(** * Task Analyzer: the scoring engine and the dependency-cycle detector

    A shallow embedding of [backend/tasks/scoring.py] (factor scores,
    weighted aggregate, cycle detection) and of the scoring and sorting part
    of [AnalyzeTasksView.post] in [backend/tasks/views.py].

    Modelling conventions.
    - A Python float is an IEEE 754 double.  A finite double is kept as the
      rational number it is ([Q], compared with [==]), and every operation
      on floats rounds its exact result to the nearest double, ties to the
      even significand ([rnd]).  Infinities and NaN are not values of the
      model; an integer too large for a float raises [OverflowError] where
      Python converts it.
    - A value whose Python type is not fixed by the code (the due date, the
      importance and the estimated hours of a task) is a [pyval]; operations
      that Python rejects on it raise, see [pyres].
    - The text of an explanation is kept as the message template with its
      arguments (an inductive "note"), not rendered to characters, except for
      task titles and cycle descriptions, which are strings.
    - Recursion takes a fuel argument, the number of nested calls there is
      room for; [None] is "out of fuel".  [detect_circular_dependencies]
      supplies the fuel the batch needs, and
      [detect_circular_dependencies_within] takes the room the recursion
      limit of the interpreter leaves and raises [RecursionError] beyond
      it. *)

From Stdlib Require Import QArith ZArith Ascii String List Lqa Lia DecimalString.
From Stdlib Require Import Qround Qminmax Qabs Qpower.
From stdpp Require Import gmap list strings sorting.

Local Open Scope Z_scope.
Local Open Scope Q_scope.

(* [set_solver] clears hypotheses by name and warns when one is gone. *)
#[local] Set Warnings "-clear-no-such-hyp".

(** ** Python values, exceptions *)

Inductive pyexc : Type :=
| TypeError | ValueError | KeyError | IndexError | OverflowError | RecursionError.

Inductive pyres (A : Type) : Type :=
| Ok (a : A)
| Raise (e : pyexc).
Arguments Ok {A} a.
Arguments Raise {A} e.

(** Sequencing: an exception raised by the first computation propagates.
    Written [x ← m; k] below. *)
#[global] Instance pyres_ret : MRet pyres := fun A a => Ok a.
#[global] Instance pyres_bind : MBind pyres := fun A B k m =>
  match m with
  | Ok a => k a
  | Raise e => Raise e
  end.

(** The values a task field can hold.  [PyFloat q] is the finite float
    that equals [q].  [PyDate] is a [datetime.date], given by its proleptic
    Gregorian ordinal, and [PyDateTime] a [datetime.datetime] object, which
    is a [date] for [isinstance] but cannot be subtracted from one. *)
Inductive pyval : Type :=
| PyNone
| PyBool (b : bool)
| PyInt (z : Z)
| PyFloat (q : Q)
| PyStr (s : string)
| PyDate (ordinal : Z)
| PyDateTime.

(** The number a value stands for in a comparison with a numeric literal
    ([bool] is a subclass of [int]); any other value makes [<], [<=], [>]
    raise [TypeError].  Python compares an integer with a float by their
    exact values, without converting the integer. *)
Definition py_number (v : pyval) : pyres Q :=
  match v with
  | PyBool b => Ok (if b then 1 else 0)
  | PyInt z => Ok (inject_Z z)
  | PyFloat q => Ok q
  | PyNone | PyStr _ | PyDate _ | PyDateTime => Raise TypeError
  end.

Definition Qlt_b (a b : Q) : bool := if Qlt_le_dec a b then true else false.
Definition Qle_b (a b : Q) : bool := if Qlt_le_dec b a then false else true.

(** [max(a, b)] and [min(a, b)] of two floats: the first argument is kept
    unless the second is strictly larger (smaller). *)
Definition py_max (a b : Q) : Q := if Qlt_b a b then b else a.
Definition py_min (a b : Q) : Q := if Qlt_b b a then b else a.

(** [str(n)] for an integer. *)
Definition str_of_int (n : Z) : string := NilZero.string_of_int (Z.to_int n).

(** [round(x)] to the nearest integer, ties to even. *)
Definition round_half_even (x : Q) : Z :=
  let f := Qfloor x in
  match Qcompare (x - inject_Z f) (1 # 2) with
  | Lt => f
  | Gt => (f + 1)%Z
  | Eq => if Z.even f then f else (f + 1)%Z
  end.

(** ** Double precision *)

(** [2 ** e] *)
Definition pow2 (e : Z) : Q := 2 ^ e.

(** The exponent of a positive number: the [e] with [2^e <= q < 2^(e+1)]. *)
Definition floor_log2 (q : Q) : Z :=
  let e := (Z.log2 (Qnum q) - Z.log2 (Zpos (Qden q)))%Z in
  if Qle_b (pow2 e) q then e else (e - 1)%Z.

(** The spacing of the doubles around [q]: 52 binary places below the
    leading bit, and never less than [2^-1074], the spacing of the
    subnormal numbers. *)
Definition ulp (q : Q) : Q :=
  pow2 (Z.max (floor_log2 (Qabs q)) (-1022) - 52).

(** The double nearest to [q]; a tie goes to the even significand.  This is
    what a float operation returns for the exact result [q], what a decimal
    literal denotes, and what [float(n)] is for an integer [n].  The
    exponent has no upper bound here: the operations on floats below stay
    far from the largest double, and the conversion of an integer checks
    its size (see [float_of_int]). *)
Definition rnd (q : Q) : Q :=
  inject_Z (round_half_even (q / ulp q)) * ulp q.

(** [a + b], [a - b] and [a * b] of two floats. *)
Definition fadd (a b : Q) : Q := rnd (a + b).
Definition fsub (a b : Q) : Q := rnd (a - b).
Definition fmul (a b : Q) : Q := rnd (a * b).

(** The conversion of an integer that is an operand of a float operation.
    From [2^1024 - 2^970] on the nearest double would be beyond the largest
    one and Python raises [OverflowError]. *)
Definition float_of_int (z : Z) : pyres Q :=
  if (Z.abs z <? 2 ^ 1024 - 2 ^ 970)%Z then Ok (rnd (inject_Z z))
  else Raise OverflowError.

(** [x - k] for an integer literal [k], as the left operand of a product
    with a float: the difference of two integers is exact and is converted
    by the product; from a float, the literal is subtracted as a float. *)
Definition minus_as_float (x : pyval) (k : Z) : pyres Q :=
  match x with
  | PyBool b => float_of_int ((if b then 1 else 0) - k)
  | PyInt z => float_of_int (z - k)
  | PyFloat q => Ok (fsub q (inject_Z k))
  | PyNone | PyStr _ | PyDate _ | PyDateTime => Raise TypeError
  end.

(** [round(x, ndigits)] for a float [x] and [ndigits >= 0]: the decimal
    with [ndigits] places nearest to the exact value of [x], ties to even,
    read back as a float. *)
Definition py_round (x : Q) (ndigits : nat) : Q :=
  let scale := (10 ^ Z.of_nat ndigits)%Z in
  rnd (Qmake (round_half_even (x * inject_Z scale)) (Z.to_pos scale)).

(** ** Strategy weights *)

Record weight_vector : Type := {
  w_urgency : Q;
  w_importance : Q;
  w_effort : Q;
  w_dependency : Q
}.

(** The weights are float literals.  A literal that is a double, such as
    [0.25], is written as itself; the others denote the nearest double. *)
Definition FASTEST_WINS : weight_vector :=
  {| w_urgency := rnd 0.15; w_importance := rnd 0.15;
     w_effort := rnd 0.55; w_dependency := rnd 0.15 |}.
Definition HIGH_IMPACT : weight_vector :=
  {| w_urgency := rnd 0.15; w_importance := rnd 0.55;
     w_effort := rnd 0.15; w_dependency := rnd 0.15 |}.
Definition DEADLINE_DRIVEN : weight_vector :=
  {| w_urgency := rnd 0.55; w_importance := rnd 0.20;
     w_effort := rnd 0.10; w_dependency := rnd 0.15 |}.
Definition SMART_BALANCE : weight_vector :=
  {| w_urgency := 0.25; w_importance := 0.25; w_effort := 0.25; w_dependency := 0.25 |}.

Definition STRATEGY_WEIGHTS : gmap string weight_vector :=
  <["FASTEST_WINS" := FASTEST_WINS]>
  (<["HIGH_IMPACT" := HIGH_IMPACT]>
  (<["DEADLINE_DRIVEN" := DEADLINE_DRIVEN]>
  (<["SMART_BALANCE" := SMART_BALANCE]> ∅))).

(** ** Urgency *)

Inductive urgency_note : Type :=
| UInvalidDate                 (* "Invalid date format, using default urgency" *)
| UOverdue (days : Z)          (* "OVERDUE by {abs(days_left)} days - Maximum urgency!" *)
| UDueToday                    (* "Due TODAY - Very high urgency" *)
| UHigh (days_left : Z)        (* "Due in {days_left} days - High urgency" *)
| UMedium (days_left : Z)      (* "Due in {days_left} days - Medium urgency" *)
| UModerate (days_left : Z)    (* "Due in {days_left} days - Moderate urgency" *)
| ULow (days_left : Z).        (* "Due in {days_left} days - Low urgency" *)

(** A number of days as the operand of a product with a float.  The
    difference of two dates is far below [2^53] days, so that the
    conversion is exact and cannot overflow. *)
Definition float_of_days (days : Z) : Q := rnd (inject_Z days).

(** The branches of [calculate_urgency_score] below the computation of
    [days_left]. *)
Definition urgency_of_days_left (days_left : Z) : Q * urgency_note :=
  if (days_left <? 0)%Z then (10.0, UOverdue (Z.abs days_left))
  else if (days_left =? 0)%Z then (9.0, UDueToday)
  else if (days_left <=? 3)%Z then
    (fsub 8.0 (fmul (float_of_days days_left) (rnd 0.3)), UHigh days_left)
  else if (days_left <=? 7)%Z then
    (fsub 7.0 (fmul (float_of_days (days_left - 3)) 0.5), UMedium days_left)
  else if (days_left <=? 14)%Z then
    (fsub 5.0 (fmul (float_of_days (days_left - 7)) (rnd 0.3)),
     UModerate days_left)
  else
    (py_max 1.0 (fsub 3.0 (fmul (float_of_days (days_left - 14)) (rnd 0.1))),
     ULow days_left).

Section Clock.

(** The environment of the scoring functions: [date.today()], as an ordinal,
    and [datetime.strptime(s, '%Y-%m-%d').date()], which gives the ordinal of
    the date [s] denotes or fails with [ValueError] ([None]). *)
Variable date_today : Z.
Variable strptime_ymd : string -> option Z.

Definition calculate_urgency_score (due_date_str : pyval) (today : option Z)
  : pyres (Q * urgency_note) :=
  let today := match today with None => date_today | Some d => d end in
  match due_date_str with
  | PyStr s =>
      match strptime_ymd s with
      | None => Ok (5.0, UInvalidDate)
      | Some due_date => Ok (urgency_of_days_left (due_date - today)%Z)
      end
  | PyDate due_date => Ok (urgency_of_days_left (due_date - today)%Z)
  | PyNone | PyBool _ | PyInt _ | PyFloat _ | PyDateTime => Raise TypeError
  end.

End Clock.

(** ** Importance *)

Inductive importance_level : Type := Critical | High | Medium | Low.

Inductive importance_note : Type :=
| IInvalid                                       (* "Invalid importance (must be 1-10), using default" *)
| IRated (level : importance_level) (importance : pyval).  (* "{level} (rated {importance}/10)" *)

Definition calculate_importance_score (importance : pyval)
  : pyres (Q * importance_note) :=
  x ← py_number importance;
  if Qlt_b x 1 || Qlt_b 10 x then Ok (5.0, IInvalid)
  else
    let score := x in
    let level :=
      if Qle_b 8 x then Critical
      else if Qle_b 6 x then High
      else if Qle_b 4 x then Medium
      else Low in
    Ok (score, IRated level importance).

(** ** Effort *)

Inductive effort_note : Type :=
| EInvalid                          (* "Invalid estimated hours, using default" *)
| EQuickWin (hours : pyval)         (* "Quick win! ({h}h) - Maximum effort score" *)
| EFast (hours : pyval)             (* "Fast task ({h}h) - High effort score" *)
| EModerate (hours : pyval)         (* "Moderate task ({h}h) - Medium effort score" *)
| ESubstantial (hours : pyval)      (* "Substantial task ({h}h) - Lower effort score" *)
| ELarge (hours : pyval).           (* "Large task ({h}h) - Low effort score" *)

Definition calculate_effort_score (estimated_hours : pyval)
  : pyres (Q * effort_note) :=
  h ← py_number estimated_hours;
  if Qle_b h 0 then Ok (5.0, EInvalid)
  else if Qlt_b h 1 then Ok (10.0, EQuickWin estimated_hours)
  else if Qle_b h 2 then
    d ← minus_as_float estimated_hours 1;
    Ok (fsub 9.0 (fmul d 0.5), EFast estimated_hours)
  else if Qle_b h 4 then
    d ← minus_as_float estimated_hours 2;
    Ok (fsub 7.5 (fmul d 0.75), EModerate estimated_hours)
  else if Qle_b h 8 then
    d ← minus_as_float estimated_hours 4;
    Ok (fsub 5.5 (fmul d 0.375), ESubstantial estimated_hours)
  else
    d ← minus_as_float estimated_hours 8;
    Ok (py_max 1.0 (fsub 4.0 (fmul d (rnd 0.2))), ELarge estimated_hours).

(** ** Tasks *)

(** A task record, as the scoring functions read it with [task.get]: [title]
    and [dependencies] may be absent; [id] is an integer and [dependencies] a
    list of integers. *)
Record task : Type := {
  id : Z;
  title : option string;
  due_date : pyval;
  estimated_hours : pyval;
  importance : pyval;
  dependencies : option (list Z)
}.

(** [task.get('dependencies', [])] *)
Definition get_dependencies (t : task) : list Z := default [] (dependencies t).

(** [task.get('title', f"Task {task.get('id')}")] *)
Definition get_title (t : task) : string :=
  default ("Task " +:+ str_of_int (id t)) (title t).

(** ** Dependency (blocking) score *)

Inductive dependency_note : Type :=
| DNoDependents                   (* "No tasks depend on this" *)
| DBlocksOne (blocked : string)   (* "Blocks 1 task: {blocked_tasks[0]}" *)
| DBlocks (count : Z)             (* "Blocks {blocking_count} tasks" *)
| DBlocksMany (count : Z).        (* "Blocks {blocking_count} tasks - High priority!" *)

(** One iteration of the loop over [all_tasks]; the state is
    [(blocking_count, blocked_tasks)]. *)
Definition dependency_step (task_id : Z) (acc : Z * list string) (t : task)
  : Z * list string :=
  let '(blocking_count, blocked_tasks) := acc in
  let task_deps := get_dependencies t in
  if bool_decide (task_id ∈ task_deps)
  then ((blocking_count + 1)%Z, blocked_tasks ++ [get_title t])
  else (blocking_count, blocked_tasks).

(** The score of more than two blocked tasks is computed on an integer,
    halves and small constants, all far below [2^53]: these float operations
    are exact and are written without [rnd]. *)
Definition calculate_dependency_score (task_id : Z) (all_tasks : list task)
  : pyres (Q * dependency_note) :=
  let '(blocking_count, blocked_tasks) :=
    fold_left (dependency_step task_id) all_tasks (0%Z, []) in
  if (blocking_count =? 0)%Z then Ok (3.0, DNoDependents)
  else if (blocking_count =? 1)%Z then
    match blocked_tasks with
    | first :: _ => Ok (6.0, DBlocksOne first)
    | [] => Raise IndexError
    end
  else if (blocking_count =? 2)%Z then Ok (8.0, DBlocks blocking_count)
  else
    let score := py_min 10.0 (8.0 + (inject_Z blocking_count - 2) * 0.5) in
    Ok (score, DBlocksMany blocking_count).

(** ** Final score *)

Record factor_scores : Type := {
  b_urgency : Q;
  b_importance : Q;
  b_effort : Q;
  b_dependency : Q
}.

(** The explanation text: the header line shows the final score and the
    strategy name as given; each factor line shows the factor score, its
    weight, their product and the factor's own explanation. *)
Record explanation_text : Type := {
  x_final_score : Q;
  x_strategy : string;
  x_urgency : Q * Q * urgency_note;
  x_importance : Q * Q * importance_note;
  x_effort : Q * Q * effort_note;
  x_dependency : Q * Q * dependency_note
}.

(** The dictionary [calculate_final_score] returns. *)
Record score_data : Type := {
  final_score : Q;
  breakdown : factor_scores;
  weights : weight_vector;
  explanation : explanation_text
}.

Section Scoring.

Variable date_today : Z.
Variable strptime_ymd : string -> option Z.

Definition calculate_final_score (t : task) (all_tasks : list task)
  (strategy : string) : pyres score_data :=
  let weights := default SMART_BALANCE (STRATEGY_WEIGHTS !! strategy) in
  '(urgency_score, urgency_exp) ←
    calculate_urgency_score date_today strptime_ymd (due_date t) None;
  '(importance_score, importance_exp) ←
    calculate_importance_score (importance t);
  '(effort_score, effort_exp) ←
    calculate_effort_score (estimated_hours t);
  '(dependency_score, dependency_exp) ←
    calculate_dependency_score (id t) all_tasks;
  let final_score :=
    fadd (fadd (fadd (fmul urgency_score (w_urgency weights))
                     (fmul importance_score (w_importance weights)))
               (fmul effort_score (w_effort weights)))
         (fmul dependency_score (w_dependency weights)) in
  let final_score := py_round final_score 2 in
  Ok {| final_score := final_score;
        breakdown :=
          {| b_urgency := urgency_score;
             b_importance := importance_score;
             b_effort := effort_score;
             b_dependency := dependency_score |};
        weights := weights;
        explanation :=
          {| x_final_score := final_score;
             x_strategy := strategy;
             x_urgency := (urgency_score, w_urgency weights, urgency_exp);
             x_importance := (importance_score, w_importance weights, importance_exp);
             x_effort := (effort_score, w_effort weights, effort_exp);
             x_dependency := (dependency_score, w_dependency weights, dependency_exp) |} |}.

End Scoring.

(** ** Scoring and sorting in [AnalyzeTasksView.post] *)

(** [get_priority_level] of [utils.py] *)
Definition get_priority_level (score : Q) : string :=
  if Qle_b 7 score then "HIGH"
  else if Qle_b 4 score then "MEDIUM"
  else "LOW".

(** [{**task, 'priority_score': ..., ...}] *)
Record scored_task : Type := {
  task_fields : task;
  priority_score : Q;
  score_breakdown : factor_scores;
  score_explanation : explanation_text;
  priority_level : string
}.

(** [list.sort(key=key, reverse=True)].  Python's sort is stable, also with
    [reverse=True]: elements whose keys compare equal keep their order.  The
    model inserts the elements from the last to the first, each one before
    the first element whose key is not greater than its own. *)
Section ListSort.

Context {A : Type} (key : A -> Q).

Fixpoint insert_reverse (x : A) (l : list A) : list A :=
  match l with
  | [] => [x]
  | y :: l' =>
      if Qlt_b (key x) (key y) then y :: insert_reverse x l' else x :: l
  end.

Definition sort_reverse (l : list A) : list A := foldr insert_reverse [] l.

End ListSort.

Section Ranking.

Variable date_today : Z.
Variable strptime_ymd : string -> option Z.

(** The loop [for task in validated_tasks] that fills [scored_tasks]. *)
Fixpoint score_tasks (tasks validated_tasks : list task) (strategy : string)
  : pyres (list scored_task) :=
  match tasks with
  | [] => Ok []
  | t :: tasks' =>
      score_data ←
        calculate_final_score date_today strptime_ymd t validated_tasks strategy;
      let task_with_score :=
        {| task_fields := t;
           priority_score := final_score score_data;
           score_breakdown := breakdown score_data;
           score_explanation := explanation score_data;
           priority_level := get_priority_level (final_score score_data) |} in
      scored_tasks ← score_tasks tasks' validated_tasks strategy;
      Ok (task_with_score :: scored_tasks)
  end.

(** The ['tasks'] entry of the response: every validated task scored
    against the whole validated batch, then sorted by priority score,
    highest first. *)
Definition rank (validated_tasks : list task) (strategy : string)
  : pyres (list scored_task) :=
  scored_tasks ← score_tasks validated_tasks validated_tasks strategy;
  Ok (sort_reverse priority_score scored_tasks).

End Ranking.

(** ** Dependency graph analysis *)

(** A Python [dict] with integer keys: the bindings in insertion order.
    Assigning to a key already present replaces its value in place. *)
Section PyDict.

Context {V : Type}.

Fixpoint dict_get (d : list (Z * V)) (k : Z) : option V :=
  match d with
  | [] => None
  | (k', v) :: d' => if (k =? k')%Z then Some v else dict_get d' k
  end.

Fixpoint dict_set (d : list (Z * V)) (k : Z) (v : V) : list (Z * V) :=
  match d with
  | [] => [(k, v)]
  | (k', v') :: d' =>
      if (k =? k')%Z then (k, v) :: d' else (k', v') :: dict_set d' k v
  end.

Definition dict_keys (d : list (Z * V)) : list Z := map fst d.

End PyDict.

(** [list.index(x)]: the position of the first occurrence. *)
Fixpoint list_index (x : Z) (l : list Z) : option nat :=
  match l with
  | [] => None
  | y :: l' => if (x =? y)%Z then Some O else S <$> list_index x l'
  end.

(** The two sets the traversal shares between its calls.  [visited] is kept
    as the sequence of its [add] calls, most recent first: the code only
    tests membership in it. *)
Record dfs_state : Type := {
  st_visited : list Z;
  st_rec_stack : gset Z
}.

Definition dfs_result : Type := option (pyres (option (list Z) * dfs_state)).

(** The loop [for neighbor in graph.get(node, [])] of [has_cycle_util],
    followed by [rec_stack.remove(node)] and [return None].  [recurse] is
    the recursive call [has_cycle_util(neighbor, visited, rec_stack,
    path[:])]; a cycle it returns is passed on when it is truthy, that is,
    a non-empty list. *)
Fixpoint visit_neighbors (recurse : Z -> dfs_state -> dfs_result)
  (node : Z) (path : list Z) (neighbors : list Z) (st : dfs_state)
  : dfs_result :=
  match neighbors with
  | [] =>
      if decide (node ∈ st_rec_stack st)
      then Some (Ok (None, {| st_visited := st_visited st;
                              st_rec_stack := st_rec_stack st ∖ {[node]} |}))
      else Some (Raise KeyError)
  | neighbor :: rest =>
      if decide (neighbor ∉ st_visited st) then
        match recurse neighbor st with
        | None => None
        | Some (Raise e) => Some (Raise e)
        | Some (Ok (Some (c :: cycle), st')) =>
            Some (Ok (Some (c :: cycle), st'))
        | Some (Ok (_, st')) => visit_neighbors recurse node path rest st'
        end
      else if decide (neighbor ∈ st_rec_stack st) then
        match list_index neighbor path with
        | None => Some (Raise ValueError)
        | Some cycle_start =>
            Some (Ok (Some (drop cycle_start path ++ [neighbor]), st))
        end
      else visit_neighbors recurse node path rest st
  end.

(** [has_cycle_util]; [path] is the caller's copy [path[:]].  The result is
    the returned cycle (or [None]) with the two sets as the call leaves
    them. *)
Fixpoint has_cycle_util (fuel : nat) (graph : list (Z * list Z)) (node : Z)
  (st : dfs_state) (path : list Z) : dfs_result :=
  match fuel with
  | O => None
  | S fuel' =>
      let st := {| st_visited := node :: st_visited st;
                   st_rec_stack := {[node]} ∪ st_rec_stack st |} in
      let path := path ++ [node] in
      visit_neighbors
        (fun neighbor st' => has_cycle_util fuel' graph neighbor st' path)
        node path (default [] (dict_get graph node)) st
  end.

(** The first loop of [detect_circular_dependencies]: [graph] and
    [task_map]. *)
Definition build_graph (tasks : list task) : list (Z * list Z) :=
  fold_left (fun graph t => dict_set graph (id t) (get_dependencies t)) tasks [].

Definition build_task_map (tasks : list task) : list (Z * string) :=
  fold_left (fun task_map t => dict_set task_map (id t) (get_title t)) tasks [].

(** [' → '.join(names)] *)
Fixpoint join_arrow (names : list string) : string :=
  match names with
  | [] => ""
  | [name] => name
  | name :: rest => name +:+ " → " +:+ join_arrow rest
  end.

Definition cycle_description (task_map : list (Z * string)) (cycle : list Z)
  : string :=
  join_arrow
    (map (fun tid => default ("Task " +:+ str_of_int tid) (dict_get task_map tid))
       cycle).

(** The loop over the keys of [graph]; the state is [(visited, cycles)]. *)
Fixpoint detect_loop (fuel : nat) (graph : list (Z * list Z))
  (task_map : list (Z * string)) (keys : list Z)
  (visited : list Z) (cycles : list string)
  : option (pyres (list Z * list string)) :=
  match keys with
  | [] => Some (Ok (visited, cycles))
  | task_id :: keys' =>
      if decide (task_id ∉ visited) then
        match has_cycle_util fuel graph task_id
                {| st_visited := visited; st_rec_stack := ∅ |} [] with
        | None => None
        | Some (Raise e) => Some (Raise e)
        | Some (Ok (Some (c :: cycle), st')) =>
            let cycle_desc := cycle_description task_map (c :: cycle) in
            detect_loop fuel graph task_map keys' (st_visited st')
              (cycles ++ [cycle_desc])
        | Some (Ok (_, st')) =>
            detect_loop fuel graph task_map keys' (st_visited st') cycles
        end
      else detect_loop fuel graph task_map keys' visited cycles
  end.

(** The ids a traversal can meet: the keys of the graph and the ids the
    dependency lists mention. *)
Definition graph_ids (graph : list (Z * list Z)) : list Z :=
  dict_keys graph ++ concat (map snd graph).

(** [detect_circular_dependencies] with a given recursion budget, returning
    also the final [visited]. *)
Definition detect_with_fuel (fuel : nat) (tasks : list task)
  : option (pyres (list Z * list string)) :=
  let graph := build_graph tasks in
  let task_map := build_task_map tasks in
  detect_loop fuel graph task_map (dict_keys graph) [] [].

(** The recursion of [has_cycle_util] is never deeper than the number of
    ids of the graph (see [detect_with_fuel_enough]); this much fuel is
    supplied. *)
Definition detect_fuel (tasks : list task) : nat :=
  S (length (graph_ids (build_graph tasks))).

Definition detect_circular_dependencies (tasks : list task)
  : option (pyres (bool * list string)) :=
  r ← detect_with_fuel (detect_fuel tasks) tasks;
  Some ('(_, cycles) ← r; Ok (bool_decide (0 < length cycles)%nat, cycles)).


(** ** A calendar to run the functions on

    The theorems below hold for any clock and any date parser.  To evaluate
    the functions on concrete tasks, [strptime_padded] reads the zero-padded
    form [YYYY-MM-DD] (one of the forms [strptime] accepts for the format
    ['%Y-%m-%d']) and gives the ordinal of the date as [date.toordinal]
    does. *)

Definition is_leap (y : Z) : bool :=
  ((y mod 4 =? 0) && negb (y mod 100 =? 0) || (y mod 400 =? 0))%Z.

Definition days_in_month (y m : Z) : Z :=
  (if m =? 2 then (if is_leap y then 29 else 28)
   else if (m =? 4) || (m =? 6) || (m =? 9) || (m =? 11) then 30
   else 31)%Z.

Definition days_before_year (y : Z) : Z :=
  (let p := y - 1 in p * 365 + p / 4 - p / 100 + p / 400)%Z.

Definition days_before_month (y m : Z) : Z :=
  fold_left (fun acc k => (acc + days_in_month y (Z.of_nat k))%Z)
    (seq 1 (Z.to_nat m - 1)) 0%Z.

Definition ymd_to_ordinal (y m d : Z) : option Z :=
  if ((1 <=? y) && (1 <=? m) && (m <=? 12) && (1 <=? d)
      && (d <=? days_in_month y m))%Z
  then Some (days_before_year y + days_before_month y m + d)%Z
  else None.

Definition digit_of (c : ascii) : option Z :=
  let n := Z.of_nat (nat_of_ascii c) in
  if ((48 <=? n) && (n <=? 57))%Z then Some (n - 48)%Z else None.

Definition strptime_padded (s : string) : option Z :=
  match list_ascii_of_string s with
  | [y1; y2; y3; y4; h1; m1; m2; h2; d1; d2] =>
      if (Ascii.eqb h1 "-"%char && Ascii.eqb h2 "-"%char)%bool then
        y1 ← digit_of y1; y2 ← digit_of y2; y3 ← digit_of y3; y4 ← digit_of y4;
        m1 ← digit_of m1; m2 ← digit_of m2;
        d1 ← digit_of d1; d2 ← digit_of d2;
        ymd_to_ordinal (y1 * 1000 + y2 * 100 + y3 * 10 + y4)%Z
          (m1 * 10 + m2)%Z (d1 * 10 + d2)%Z
      else None
  | _ => None
  end.

(** ** Notions the statements use *)


(** The date a due date denotes: a date itself, or the one a date string
    parses to. *)
Definition due_ordinal (strptime_ymd : string -> option Z) (due : pyval)
  : option Z :=
  match due with
  | PyStr s => strptime_ymd s
  | PyDate ordinal => Some ordinal
  | _ => None
  end.

(** The tasks of a batch that list [task_id] among their dependencies. *)
Definition dependents (task_id : Z) (all_tasks : list task) : list task :=
  filter (fun t => task_id ∈ get_dependencies t) all_tasks.

(** Those among them that are other tasks than the task [task_id] itself. *)
Definition other_dependents (task_id : Z) (all_tasks : list task) : list task :=
  filter (fun t => id t ≠ task_id) (dependents task_id all_tasks).

(** The mapping from the number of dependents to the score, in the words of
    the specification: 0 gives 3.0, 1 gives 6.0, 2 gives 8.0, and more give
    [min(10.0, 8.0 + (count - 2) * 0.5)]. *)
Definition blocking_count_score (count : nat) : Q :=
  match count with
  | 0%nat => 3.0
  | 1%nat => 6.0
  | 2%nat => 8.0
  | _ => Qmin 10.0 (8.0 + (inject_Z (Z.of_nat count) - 2) * 0.5)
  end.

(** [a] depends on [b]: some task of the batch with id [a] lists [b]. *)
Definition depends_on (tasks : list task) (a b : Z) : Prop :=
  ∃ t, t ∈ tasks ∧ id t = a ∧ b ∈ get_dependencies t.

(** No task depends on itself, directly or through other tasks. *)
Definition acyclic (tasks : list task) : Prop :=
  ∀ a, ¬ tc (depends_on tasks) a a.

(** A result of [calculate_final_score] with the strategy name of its
    explanation header replaced. *)
Definition with_strategy_name (strategy : string) (r : score_data) : score_data :=
  {| final_score := final_score r;
     breakdown := breakdown r;
     weights := weights r;
     explanation :=
       {| x_final_score := x_final_score (explanation r);
          x_strategy := strategy;
          x_urgency := x_urgency (explanation r);
          x_importance := x_importance (explanation r);
          x_effort := x_effort (explanation r);
          x_dependency := x_dependency (explanation r) |} |}.

Definition map_result {A B : Type} (f : A -> B) (r : pyres A) : pyres B :=
  match r with
  | Ok a => Ok (f a)
  | Raise e => Raise e
  end.

(** The keys of a list in descending order: no element has a smaller key
    than an element after it. *)
Definition sorted_descending {A : Type} (key : A -> Q) (l : list A) : Prop :=
  StronglySorted (fun x y => key y <= key x) l.

(** Equality of two scores is decidable. *)
#[global] Instance Qeq_decision (a b : Q) : Decision (a == b) := Qeq_dec a b.


(** ** Sample data *)

(** A sample batch: [sample_task i deps] has id [i], depends on [deps], and
    is otherwise well formed. *)
Definition sample_task (i : Z) (deps : list Z) : task :=
  {| id := i; title := None; due_date := PyStr "2025-12-03";
     estimated_hours := PyFloat 3; importance := PyInt 8;
     dependencies := Some deps |}.

(** A task whose three scalar fields are all malformed. *)
Definition malformed_task : task :=
  {| id := 1; title := Some "Broken"; due_date := PyStr "12/01/2025";
     estimated_hours := PyInt (-2); importance := PyInt 15;
     dependencies := Some [] |}.

(** A batch in which tasks 1 and 2 get the same score and task 3 a higher
    one. *)
Definition tie_batch : list task :=
  [ {| id := 1; title := Some "A"; due_date := PyStr "2025-12-03";
       estimated_hours := PyFloat 3; importance := PyInt 5;
       dependencies := Some [] |};
    {| id := 2; title := Some "B"; due_date := PyStr "2025-12-03";
       estimated_hours := PyFloat 3; importance := PyInt 5;
       dependencies := None |};
    {| id := 3; title := Some "C"; due_date := PyStr "2025-12-03";
       estimated_hours := PyFloat 3; importance := PyInt 9;
       dependencies := Some [] |} ].

(** ** Notions the traversal proofs use *)

(** An edge of the graph the traversal follows: [b] is in [graph.get(a, [])]. *)
Definition edge (graph : list (Z * list Z)) (a b : Z) : Prop :=
  b ∈ default [] (dict_get graph a).

(** How many ids of the graph are not in [visited]. *)
Definition unvisited (graph : list (Z * list Z)) (visited : list Z) : nat :=
  size ((list_to_set (graph_ids graph) : gset Z) ∖ list_to_set visited).

(** What holds when [has_cycle_util] is called: the node is a new id of the
    graph, the recursion stack holds the ids of [path], all of them visited,
    no id was added to [visited] twice, and there is fuel for every id not
    yet visited. *)
Definition dfs_pre (graph : list (Z * list Z)) (fuel : nat) (node : Z)
  (st : dfs_state) (path : list Z) : Prop :=
  (node ∉ st_visited st) ∧
  node ∈ graph_ids graph ∧
  (∀ x, x ∈ st_rec_stack st → x ∈ st_visited st) ∧
  (∀ x, x ∈ path ↔ x ∈ st_rec_stack st) ∧
  NoDup (st_visited st) ∧
  (∀ x, x ∈ st_visited st → x ∈ graph_ids graph) ∧
  (unvisited graph (st_visited st) ≤ fuel)%nat.

(** What holds when it returns: it does return, without an exception;
    [visited] has grown by new ids, the node among them; a call that
    returns [None] leaves the recursion stack as it found it; a returned
    cycle is not empty; and when every id of the stack reaches the node and
    the graph has no cycle, [None] is returned. *)
Definition dfs_post (graph : list (Z * list Z)) (node : Z) (st : dfs_state)
  (res : dfs_result) : Prop :=
  ∃ r st',
    res = Some (Ok (r, st')) ∧
    (∃ ext, st_visited st' = ext ++ st_visited st ∧ node ∈ ext) ∧
    NoDup (st_visited st') ∧
    (∀ x, x ∈ st_visited st' → x ∈ graph_ids graph) ∧
    (r = None → st_rec_stack st' = st_rec_stack st) ∧
    r ≠ Some [] ∧
    ((∀ x, x ∈ st_rec_stack st → rtc (edge graph) x node) →
     (∀ a, ¬ tc (edge graph) a a) → r = None).

(** ** Notions of the further properties *)

(** A task whose fields the scoring functions can use: the due date is a
    string or a date, and the importance and the estimated hours are numbers
    (booleans, integers or floats). *)
Definition scorable (t : task) : bool :=
  match due_date t with PyStr _ | PyDate _ => true | _ => false end
  && match importance t with PyBool _ | PyInt _ | PyFloat _ => true | _ => false end
  && match estimated_hours t with
     | PyBool _ | PyInt _ | PyFloat _ => true
     | _ => false
     end.

(** Hours whose scoring does not overflow: an integer above 8 is converted
    to a float after 8 is subtracted from it. *)
Definition hours_in_float_range (hours : pyval) : bool :=
  match hours with
  | PyInt z => (z - 8 <? 2 ^ 1024 - 2 ^ 970)%Z
  | _ => true
  end.

(** The tasks on which [calculate_final_score] returns. *)
Definition can_be_scored (t : task) : bool :=
  scorable t && hours_in_float_range (estimated_hours t).

(** The weighted sum of four factor scores, in exact arithmetic. *)
Definition weighted_sum (w : weight_vector) (b : factor_scores) : Q :=
  b_urgency b * w_urgency w + b_importance b * w_importance w
  + b_effort b * w_effort w + b_dependency b * w_dependency w.

(** The same sum as [calculate_final_score] computes it, in floats. *)
Definition float_weighted_sum (w : weight_vector) (b : factor_scores) : Q :=
  fadd (fadd (fadd (fmul (b_urgency b) (w_urgency w))
                   (fmul (b_importance b) (w_importance w)))
             (fmul (b_effort b) (w_effort w)))
       (fmul (b_dependency b) (w_dependency w)).

(** A linear piece of a score, [a - (x - k) * c], as the floats compute
    it. *)
Definition linear_piece (a c k x : Q) : Q := fsub a (fmul (rnd (x - k)) c).

(** The effort score of [h >= 1] hours. *)
Definition effort_value (h : Q) : Q :=
  if Qle_b h 2 then linear_piece 9.0 0.5 1 h
  else if Qle_b h 4 then linear_piece 7.5 0.75 2 h
  else if Qle_b h 8 then linear_piece 5.5 0.375 4 h
  else py_max 1.0 (linear_piece 4.0 (rnd 0.2) 8 h).


(** A task that gives its importance as text. *)
Definition text_importance_task : task :=
  {| id := 1; title := Some "Plan"; due_date := PyStr "2025-12-03";
     estimated_hours := PyFloat 3; importance := PyStr "5";
     dependencies := Some [] |}.

(** A task due the day after 2025-12-01, of importance 4 and half an hour
    of work. *)
Definition quick_task : task :=
  {| id := 1; title := Some "Call"; due_date := PyStr "2025-12-02";
     estimated_hours := PyFloat 0.5; importance := PyInt 4;
     dependencies := Some [] |}.

(** The four factor scores all equal to [x]. *)
Definition all_factors (x : Q) : factor_scores :=
  {| b_urgency := x; b_importance := x; b_effort := x; b_dependency := x |}.

(** The four weight vectors of [STRATEGY_WEIGHTS]. *)
Definition presets : list weight_vector :=
  [FASTEST_WINS; HIGH_IMPACT; DEADLINE_DRIVEN; SMART_BALANCE].

(** A task whose hours are an integer that no float holds. *)
Definition huge_hours_task : task :=
  {| id := 1; title := Some "Plan"; due_date := PyStr "2025-12-03";
     estimated_hours := PyInt (2 ^ 1024); importance := PyInt 5;
     dependencies := Some [] |}.

(** A list of ids in which each id is followed by one it is related to. *)
Definition is_walk (R : relation Z) (l : list Z) : Prop :=
  ∀ (i : nat) (a b : Z), l !! i = Some a → l !! S i = Some b → R a b.

(** A list of ids that goes round a cycle of the relation: a walk of at
    least one step that ends where it starts. *)
Definition is_cycle (R : relation Z) (c : list Z) : Prop :=
  (2 ≤ length c)%nat ∧ head c = last c ∧ is_walk R c.



(** [build_dependency_graph] of [utils.py]. *)
Definition build_dependency_graph (tasks : list task) : list (Z * list Z) :=
  fold_left
    (fun graph t =>
       let task_id := id t in
       let dependencies := get_dependencies t in
       dict_set graph task_id dependencies)
    tasks [].

(** The last task of a batch that has the id [k]. *)
Definition last_with_id (k : Z) (tasks : list task) : option task :=
  last (filter (fun t => id t = k) tasks).

(** ** Tasks as the request gives them *)

(** A JSON value: an atom, a list or an object. *)
#[local] Set Warnings "-register-all".
Inductive jsonval : Type :=
| JAtom (v : pyval)
| JList (items : list jsonval)
| JDict (entries : list (string * jsonval)).
#[local] Set Warnings "register-all".

(** A task of the request: a dictionary, of which the code reads these six
    keys.  A key that the dictionary does not have is [None] here.  The id,
    when there is one, is an integer. *)
Record raw_task : Type := {
  raw_id : option Z;
  raw_title : option jsonval;
  raw_due_date : option jsonval;
  raw_estimated_hours : option jsonval;
  raw_importance : option jsonval;
  raw_dependencies : option jsonval
}.

(** [add_task_ids] of [utils.py]: [enumerate(tasks)] from index [i] on. *)
Fixpoint add_task_ids_from (i : nat) (tasks : list raw_task) : list raw_task :=
  match tasks with
  | [] => []
  | task :: tasks' =>
      (match raw_id task with
       | None =>
           {| raw_id := Some (Z.of_nat i + 1)%Z;
              raw_title := raw_title task;
              raw_due_date := raw_due_date task;
              raw_estimated_hours := raw_estimated_hours task;
              raw_importance := raw_importance task;
              raw_dependencies := raw_dependencies task |}
       | Some _ => task
       end) :: add_task_ids_from (S i) tasks'
  end.

Definition add_task_ids (tasks : list raw_task) : list raw_task :=
  add_task_ids_from 0 tasks.

(** The messages of [validate_task_data]. *)
Inductive validation_error : Type :=
| MissingField (field : string)   (* "Missing required field: {field}" *)
| TitleNotString                  (* "Title must be a string" *)
| TitleEmpty                      (* "Title cannot be empty" *)
| TitleTooLong                    (* "Title must be 255 characters or less" *)
| DueDateFormat                   (* "Invalid due_date format. Use YYYY-MM-DD" *)
| DueDateType                     (* "due_date must be a string (YYYY-MM-DD) or datetime object" *)
| HoursNotPositive                (* "estimated_hours must be greater than 0" *)
| HoursNotNumber                  (* "estimated_hours must be a number" *)
| ImportanceRange                 (* "importance must be between 1 and 10" *)
| ImportanceNotInteger            (* "importance must be an integer" *)
| DependenciesNotList             (* "dependencies must be a list" *)
| DependencyInvalid (dep : jsonval). (* "Invalid dependency ID: {dep} (must be integer)" *)

(** [value is None] *)
Definition is_none (value : jsonval) : bool :=
  match value with JAtom PyNone => true | _ => false end.

(** [isinstance(dep, int)]; a boolean is an [int]. *)
Definition is_int (value : jsonval) : bool :=
  match value with JAtom (PyInt _) | JAtom (PyBool _) => true | _ => false end.

(** [int(x)] of a float: the fraction is cut off. *)
Definition int_of_float (q : Q) : Z := Z.quot (Qnum q) (Zpos (Qden q)).

Section Validation.

(** Functions of the interpreter on strings: [datetime.strptime] for the
    format ['%Y-%m-%d'], [float(s)] and [int(s)] ([None] where they raise
    [ValueError]), [s.strip()] and [len(s)]. *)
Variable strptime_ymd : string -> option Z.
Variable float_of_str : string -> option Q.
Variable int_of_str : string -> option Z.
Variable str_strip : string -> string.
Variable str_len : string -> nat.

(** [float(value)] *)
Definition py_float (value : jsonval) : pyres Q :=
  match value with
  | JAtom (PyBool b) => Ok (if b then 1 else 0)
  | JAtom (PyInt z) => Ok (inject_Z z)
  | JAtom (PyFloat q) => Ok q
  | JAtom (PyStr s) =>
      match float_of_str s with
      | Some q => Ok q
      | None => Raise ValueError
      end
  | JAtom PyNone | JAtom (PyDate _) | JAtom PyDateTime | JList _ | JDict _ =>
      Raise TypeError
  end.

(** [int(value)] *)
Definition py_int (value : jsonval) : pyres Z :=
  match value with
  | JAtom (PyBool b) => Ok (if b then 1 else 0)%Z
  | JAtom (PyInt z) => Ok z
  | JAtom (PyFloat q) => Ok (int_of_float q)
  | JAtom (PyStr s) =>
      match int_of_str s with
      | Some z => Ok z
      | None => Raise ValueError
      end
  | JAtom PyNone | JAtom (PyDate _) | JAtom PyDateTime | JList _ | JDict _ =>
      Raise TypeError
  end.

Definition required_fields : list (string * (raw_task -> option jsonval)) :=
  [("title", raw_title); ("due_date", raw_due_date);
   ("estimated_hours", raw_estimated_hours); ("importance", raw_importance)].

(** The loop over [required_fields]. *)
Definition check_required (task_dict : raw_task) : list validation_error :=
  flat_map
    (fun '(field, get) =>
       match get task_dict with
       | None => [MissingField field]
       | Some value => if is_none value then [MissingField field] else []
       end)
    required_fields.

Definition check_title (task_dict : raw_task) : list validation_error :=
  match raw_title task_dict with
  | None => []
  | Some (JAtom (PyStr title)) =>
      if (str_len (str_strip title) =? 0)%nat then [TitleEmpty]
      else if (255 <? str_len title)%nat then [TitleTooLong]
      else []
  | Some _ => [TitleNotString]
  end.

Definition check_due_date (task_dict : raw_task) : list validation_error :=
  match raw_due_date task_dict with
  | None => []
  | Some (JAtom (PyStr due_date)) =>
      match strptime_ymd due_date with
      | Some _ => []
      | None => [DueDateFormat]
      end
  | Some (JAtom PyDateTime) => []
  | Some _ => [DueDateType]
  end.

Definition check_estimated_hours (task_dict : raw_task) : list validation_error :=
  match raw_estimated_hours task_dict with
  | None => []
  | Some hours =>
      match py_float hours with
      | Ok hours_float =>
          if Qle_b hours_float 0 then [HoursNotPositive] else []
      | Raise _ => [HoursNotNumber]
      end
  end.

Definition check_importance (task_dict : raw_task) : list validation_error :=
  match raw_importance task_dict with
  | None => []
  | Some importance =>
      match py_int importance with
      | Ok importance_int =>
          if ((importance_int <? 1) || (10 <? importance_int))%Z
          then [ImportanceRange] else []
      | Raise _ => [ImportanceNotInteger]
      end
  end.

(** The loop over [deps], left at the first entry that is not an [int]. *)
Fixpoint check_dependency_ids (deps : list jsonval) : list validation_error :=
  match deps with
  | [] => []
  | dep :: deps' =>
      if is_int dep then check_dependency_ids deps'
      else [DependencyInvalid dep]
  end.

Definition check_dependencies (task_dict : raw_task) : list validation_error :=
  match raw_dependencies task_dict with
  | None => []
  | Some (JList deps) => check_dependency_ids deps
  | Some _ => [DependenciesNotList]
  end.

(** [validate_task_data] of [utils.py] *)
Definition validate_task_data (task_dict : raw_task)
  : bool * list validation_error :=
  let errors := [] in
  let errors := errors ++ check_required task_dict in
  let errors := errors ++ check_title task_dict in
  let errors := errors ++ check_due_date task_dict in
  let errors := errors ++ check_estimated_hours task_dict in
  let errors := errors ++ check_importance task_dict in
  let errors := errors ++ check_dependencies task_dict in
  (bool_decide (length errors = 0%nat), errors).

End Validation.

(** [TaskAnalysisSerializer.validate_tasks] of [serializers.py]; the
    [ValidationError] it raises is kept by its message. *)
Inductive serializer_error : Type :=
| TasksEmpty                                    (* "Tasks list cannot be empty" *)
| TaskMissingField (number : nat) (field : string).
                                  (* "Task {i + 1} is missing required field: {field}" *)

(** The loop over the fields of one task. *)
Fixpoint first_missing_field (task : raw_task)
  (fields : list (string * (raw_task -> option jsonval))) : option string :=
  match fields with
  | [] => None
  | (field, get) :: fields' =>
      match get task with
      | None => Some field
      | Some _ => first_missing_field task fields'
      end
  end.

(** The loop [for i, task in enumerate(value)], from index [i] on. *)
Fixpoint check_tasks_from (i : nat) (value : list raw_task)
  : option serializer_error :=
  match value with
  | [] => None
  | task :: value' =>
      match first_missing_field task required_fields with
      | Some field => Some (TaskMissingField (i + 1) field)
      | None => check_tasks_from (S i) value'
      end
  end.

Definition validate_tasks (value : list raw_task)
  : list raw_task + serializer_error :=
  match value with
  | [] => inr TasksEmpty
  | _ =>
      match check_tasks_from 0 value with
      | Some err => inr err
      | None => inl value
      end
  end.
(** ** The request handlers of [views.py] *)

(** The task record the scoring functions read from a dictionary: for each
    key what [task.get] gives.  It exists when the values are ones the
    record can hold: a title that is a string, atoms for the due date, the
    hours and the importance, a list of integers for the dependencies; a
    boolean in that list is the integer it equals. *)
Definition dependency_id (dep : jsonval) : option Z :=
  match dep with
  | JAtom (PyInt z) => Some z
  | JAtom (PyBool b) => Some (if b then 1 else 0)%Z
  | _ => None
  end.

Definition atom_of (value : option jsonval) : option pyval :=
  match value with
  | None => Some PyNone
  | Some (JAtom v) => Some v
  | Some _ => None
  end.

Definition read_task (raw : raw_task) : option task :=
  task_id ← raw_id raw;
  task_title ←
    match raw_title raw with
    | None => Some None
    | Some (JAtom (PyStr s)) => Some (Some s)
    | Some _ => None
    end;
  task_due_date ← atom_of (raw_due_date raw);
  task_hours ← atom_of (raw_estimated_hours raw);
  task_importance ← atom_of (raw_importance raw);
  task_dependencies ←
    match raw_dependencies raw with
    | None => Some None
    | Some (JList deps) => Some <$> mapM dependency_id deps
    | Some _ => None
    end;
  Some {| id := task_id; title := task_title; due_date := task_due_date;
          estimated_hours := task_hours; importance := task_importance;
          dependencies := task_dependencies |}.

Inductive warning : Type :=
| ValidationWarning (task_index : nat) (task_title : jsonval)
    (message : validation_error)
| CircularDependencyWarning (details : list string).

(** What [AnalyzeTasksView.post] answers once the request is parsed: status
    400 with the warnings, or status 200 with the ranking. *)
Inductive analysis_response : Type :=
| NoValidTasks (warnings : list warning)
| Analysis (tasks : list scored_task) (warnings : list warning)
    (strategy : string) (has_circular_dependencies : bool)
    (circular_dependency_details : list string).

(** The recommendation of [SuggestTasksView.post]: the sentence for the
    rank, with the score it shows, and whether the blocking notice is
    appended. *)
Inductive recommendation_text : Type :=
| TopPriority (score : Q)
| SecondPriority (score : Q)
| ThirdPriority (score : Q).

Record recommendation : Type := {
  rec_text : recommendation_text;
  rec_blocking_notice : bool
}.

(** The body of the loop [for i, task in enumerate(top_tasks)]. *)
Definition recommend (i : nat) (task : scored_task) : recommendation :=
  let rank := (i + 1)%nat in
  let score := priority_score task in
  {| rec_text :=
       if (rank =? 1)%nat then TopPriority score
       else if (rank =? 2)%nat then SecondPriority score
       else ThirdPriority score;
     rec_blocking_notice := Qle_b 6 (b_dependency (score_breakdown task)) |}.

(** [top_tasks]: the first three analysed tasks, each with its
    recommendation. *)
Definition top_tasks (all_tasks : list scored_task)
  : list (scored_task * recommendation) :=
  imap (fun i task => (task, recommend i task)) (take 3 all_tasks).

Inductive suggestion_response : Type :=
| AnalysisFailed (response : analysis_response)
| Suggestions (top : list (scored_task * recommendation))
    (strategy : string) (total_tasks_analyzed : nat)
    (warnings : list warning) (has_circular_dependencies : bool)
    (circular_dependency_details : list string).

Section Views.

Variable date_today : Z.
Variable strptime_ymd : string -> option Z.
Variable float_of_str : string -> option Q.
Variable int_of_str : string -> option Z.
Variable str_strip : string -> string.
Variable str_len : string -> nat.

(** The loop [for i, task in enumerate(tasks)] of [AnalyzeTasksView.post],
    from index [i] on; the result is [(all_warnings, validated_tasks)]. *)
Fixpoint validate_all (i : nat) (tasks : list raw_task)
  : list warning * list raw_task :=
  match tasks with
  | [] => ([], [])
  | task :: tasks' =>
      let '(is_valid, errors) :=
        validate_task_data strptime_ymd float_of_str int_of_str
          str_strip str_len task in
      let '(all_warnings, validated_tasks) := validate_all (S i) tasks' in
      if negb is_valid then
        (map (ValidationWarning i
                (default (JAtom (PyStr ("Task " +:+ str_of_int (Z.of_nat i + 1))))
                   (raw_title task)))
           errors ++ all_warnings,
         validated_tasks)
      else (all_warnings, task :: validated_tasks)
  end.

(** [AnalyzeTasksView.post], from the parsed request on.  [None] is for a
    batch whose valid tasks cannot be read as task records, or for the
    detector running out of fuel; neither happens. *)
Definition analyze_tasks_post (tasks : list raw_task) (strategy : string)
  : option (pyres analysis_response) :=
  let tasks := add_task_ids tasks in
  let '(all_warnings, validated_tasks) := validate_all 0 tasks in
  match validated_tasks with
  | [] => Some (Ok (NoValidTasks all_warnings))
  | _ =>
      validated_tasks ← mapM read_task validated_tasks;
      match detect_circular_dependencies validated_tasks with
      | None => None
      | Some (Raise e) => Some (Raise e)
      | Some (Ok (has_cycles, cycle_details)) =>
          let all_warnings :=
            if has_cycles
            then all_warnings ++ [CircularDependencyWarning cycle_details]
            else all_warnings in
          Some (
            scored_tasks ←
              rank date_today strptime_ymd validated_tasks strategy;
            Ok (Analysis scored_tasks all_warnings strategy has_cycles
                  (if has_cycles then cycle_details else [])))
      end
  end.

(** [SuggestTasksView.post] *)
Definition suggest_tasks_post (tasks : list raw_task) (strategy : string)
  : option (pyres suggestion_response) :=
  match analyze_tasks_post tasks strategy with
  | None => None
  | Some (Raise e) => Some (Raise e)
  | Some (Ok (NoValidTasks warnings)) =>
      Some (Ok (AnalysisFailed (NoValidTasks warnings)))
  | Some (Ok (Analysis all_tasks warnings strategy has_cycles details)) =>
      Some (Ok (Suggestions (top_tasks all_tasks) strategy (length all_tasks)
                  warnings has_cycles details))
  end.

End Views.

(** ** Sample requests *)

Definition raw_sample (title : string) (due : string) (hours importance : pyval)
  (deps : option (list Z)) : raw_task :=
  {| raw_id := None;
     raw_title := Some (JAtom (PyStr title));
     raw_due_date := Some (JAtom (PyStr due));
     raw_estimated_hours := Some (JAtom hours);
     raw_importance := Some (JAtom importance);
     raw_dependencies := (fun l => JList (map (fun z => JAtom (PyInt z)) l)) <$> deps |}.

(** Stand-ins for the string functions of the interpreter, right on the
    strings of the samples: texts of decimal digits are the numbers they
    spell, nothing is stripped, and a character is a byte. *)
Definition sample_int_of_str (s : string) : option Z :=
  match NilZero.int_of_string s with
  | Some d => Some (Z.of_int d)
  | None => None
  end.

Definition sample_float_of_str (s : string) : option Q :=
  inject_Z <$> sample_int_of_str s.

(** ** Notions of the request handling properties *)

Section ValidationNotions.

Variable strptime_ymd : string -> option Z.
Variable float_of_str : string -> option Q.
Variable int_of_str : string -> option Z.
Variable str_strip : string -> string.
Variable str_len : string -> nat.

(** What validation asks of a task: a title that is a string, not blank and
    of at most 255 characters; a due date that is a string the date format
    reads, or a [datetime] object; hours that [float] turns into a number
    that is not [<= 0]; an importance that [int] turns into one of 1..10;
    and dependencies, when given, that are a list of integers. *)
Definition accepted (task_dict : raw_task) : Prop :=
  (∃ title, raw_title task_dict = Some (JAtom (PyStr title)) ∧
     str_len (str_strip title) ≠ 0%nat ∧ (str_len title ≤ 255)%nat) ∧
  ((∃ due o, raw_due_date task_dict = Some (JAtom (PyStr due)) ∧
      strptime_ymd due = Some o) ∨
   raw_due_date task_dict = Some (JAtom PyDateTime)) ∧
  (∃ hours h, raw_estimated_hours task_dict = Some hours ∧
     py_float float_of_str hours = Ok h ∧ ¬ h <= 0) ∧
  (∃ importance z, raw_importance task_dict = Some importance ∧
     py_int int_of_str importance = Ok z ∧ (1 ≤ z ≤ 10)%Z) ∧
  (raw_dependencies task_dict = None ∨
   ∃ deps, raw_dependencies task_dict = Some (JList deps) ∧
     Forall (fun dep => is_int dep = true) deps).

(** [is_valid] of [validate_task_data]. *)
Definition is_valid (task_dict : raw_task) : bool :=
  (validate_task_data strptime_ymd float_of_str int_of_str str_strip str_len
     task_dict).1.

End ValidationNotions.

(** A value that is a text. *)
Definition is_text (value : option jsonval) : Prop :=
  ∃ s, value = Some (JAtom (PyStr s)).


(** A task that has the four keys the serializer asks for, whatever their
    values. *)
Definition has_required_keys (task : raw_task) : Prop :=
  is_Some (raw_title task) ∧ is_Some (raw_due_date task) ∧
  is_Some (raw_estimated_hours task) ∧ is_Some (raw_importance task).

(** Two dictionaries that agree on every key but ['id']. *)
Definition same_fields (task task' : raw_task) : Prop :=
  raw_title task' = raw_title task ∧
  raw_due_date task' = raw_due_date task ∧
  raw_estimated_hours task' = raw_estimated_hours task ∧
  raw_importance task' = raw_importance task ∧
  raw_dependencies task' = raw_dependencies task.

(** The sentence of a recommendation by the position in [top_tasks]. *)
Definition rank_text (k : nat) : Q -> recommendation_text :=
  match k with
  | 0%nat => TopPriority
  | 1%nat => SecondPriority
  | _ => ThirdPriority
  end.
(** A sample request: the first and the third task depend on each other,
    and the second gives no positive number of hours. *)
Definition sample_request : list raw_task :=
  [raw_sample "Write report" "2025-12-03" (PyInt 3) (PyInt 8) (Some [3%Z]);
   raw_sample "Book room" "2025-12-01" (PyInt 0) (PyInt 5) None;
   raw_sample "Collect figures" "2025-11-30" (PyFloat 1.5) (PyInt 6) (Some [1%Z])].


(** * Properties *)

(** ** Comparisons on rationals *)

Lemma Qlt_b_true (a b : Q) : Qlt_b a b = true ↔ a < b.
Proof.
  unfold Qlt_b. destruct (Qlt_le_dec a b) as [H|H]; split; intros; try done.
  exfalso. lra.
Qed.

Lemma Qlt_b_false (a b : Q) : Qlt_b a b = false ↔ b <= a.
Proof.
  unfold Qlt_b. destruct (Qlt_le_dec a b) as [H|H]; split; intros; try done.
  exfalso. lra.
Qed.

Lemma Qle_b_true (a b : Q) : Qle_b a b = true ↔ a <= b.
Proof.
  unfold Qle_b. destruct (Qlt_le_dec b a) as [H|H]; split; intros; try done.
  exfalso. lra.
Qed.

Lemma Qle_b_false (a b : Q) : Qle_b a b = false ↔ b < a.
Proof.
  unfold Qle_b. destruct (Qlt_le_dec b a) as [H|H]; split; intros; try done.
  exfalso. lra.
Qed.

(** Case analysis on every comparison of the goal, the outcome recorded as
    an order fact. *)
Ltac qcases :=
  repeat match goal with
  | |- context [Qlt_b ?a ?b] =>
      let E := fresh "E" in
      destruct (Qlt_b a b) eqn:E;
      [apply Qlt_b_true in E | apply Qlt_b_false in E]
  | |- context [Qle_b ?a ?b] =>
      let E := fresh "E" in
      destruct (Qle_b a b) eqn:E;
      [apply Qle_b_true in E | apply Qle_b_false in E]
  end.

Lemma py_max_spec (a b : Q) :
  (a < b ∧ py_max a b = b) ∨ (b <= a ∧ py_max a b = a).
Proof. unfold py_max. qcases; [left | right]; done. Qed.

Lemma py_min_Qmin (a b : Q) : py_min a b == Qmin a b.
Proof.
  unfold py_min. qcases.
  - symmetry. apply Q.min_r. lra.
  - symmetry. apply Q.min_l. lra.
Qed.

(** ** Double precision *)

Lemma round_half_even_proper (x y : Q) :
  x == y → round_half_even x = round_half_even y.
Proof.
  intros H. unfold round_half_even.
  rewrite (Qfloor_comp x y H).
  assert (x - inject_Z (Qfloor y) == y - inject_Z (Qfloor y)) as Hfrac
    by (rewrite H; reflexivity).
  by rewrite (Qcompare_comp _ _ Hfrac (1 # 2) (1 # 2) (Qeq_refl _)).
Qed.

Lemma round_half_even_near (x : Q) :
  inject_Z (round_half_even x) - (1 # 2) <= x
  ∧ x <= inject_Z (round_half_even x) + (1 # 2).
Proof.
  unfold round_half_even.
  pose proof (Qfloor_le x) as Hlo. pose proof (Qlt_floor x) as Hhi.
  set (f := Qfloor x) in *.
  rewrite inject_Z_plus in Hhi. change (inject_Z 1) with 1 in Hhi.
  destruct (Qcompare_spec (x - inject_Z f) (1 # 2)) as [E|E|E].
  - destruct (Z.even f); [| rewrite inject_Z_plus; change (inject_Z 1) with 1];
      lra.
  - lra.
  - rewrite inject_Z_plus. change (inject_Z 1) with 1. lra.
Qed.

Lemma round_half_even_mono (x y : Q) :
  x <= y → (round_half_even x ≤ round_half_even y)%Z.
Proof.
  intros Hxy.
  assert (Qfloor x ≤ Qfloor y)%Z as Hf by (by apply Qfloor_resp_le).
  assert (∀ z, Qfloor z ≤ round_half_even z ≤ Qfloor z + 1)%Z as Hbounds.
  { intros z. unfold round_half_even.
    destruct (Qcompare _ _); [destruct (Z.even _) | |]; lia. }
  destruct (decide (Qfloor x = Qfloor y)) as [Heq|Hne].
  - unfold round_half_even. rewrite <- Heq.
    set (f := Qfloor x).
    destruct (Qcompare_spec (x - inject_Z f) (1 # 2)) as [Ex|Ex|Ex];
      destruct (Qcompare_spec (y - inject_Z f) (1 # 2)) as [Ey|Ey|Ey];
      try (destruct (Z.even f)); try lia; exfalso; lra.
  - pose proof (Hbounds x). pose proof (Hbounds y). lia.
Qed.

Lemma round_half_even_inject (z : Z) : round_half_even (inject_Z z) = z.
Proof.
  unfold round_half_even. rewrite Qfloor_Z.
  destruct (Qcompare_spec (inject_Z z - inject_Z z) (1 # 2)) as [E|E|E];
    [exfalso; lra | done | exfalso; lra].
Qed.

(** Rounding to the nearest integer is odd: [round(-x) = -round(x)]. *)
Lemma round_half_even_opp (x : Q) :
  round_half_even (- x) = (- round_half_even x)%Z.
Proof.
  unfold round_half_even.
  pose proof (Qfloor_le x) as Hlo. pose proof (Qlt_floor x) as Hhi.
  pose proof (Qfloor_le (- x)) as Hlo'. pose proof (Qlt_floor (- x)) as Hhi'.
  set (f := Qfloor x) in *. set (g := Qfloor (- x)) in *.
  rewrite inject_Z_plus in Hhi, Hhi'.
  change (inject_Z 1) with 1 in Hhi, Hhi'.
  assert (g = (- f)%Z ∨ g = (- f - 1)%Z) as [Hg|Hg].
  { assert (g + f ≤ 0)%Z as H1.
    { rewrite Zle_Qle, inject_Z_plus. change (inject_Z 0) with 0. lra. }
    assert (-2 < g + f)%Z as H2.
    { rewrite Zlt_Qlt, inject_Z_plus. change (inject_Z (-2)) with (-2 # 1). lra. }
    lia. }
  - assert (x == inject_Z f) as Hx.
    { rewrite Hg, inject_Z_opp in Hlo'. lra. }
    rewrite Hg.
    destruct (Qcompare_spec (- x - inject_Z (- f)) (1 # 2)) as [E|E|E];
      rewrite inject_Z_opp in E; [exfalso; lra | | exfalso; lra].
    destruct (Qcompare_spec (x - inject_Z f) (1 # 2)) as [E'|E'|E'];
      [exfalso; lra | done | exfalso; lra].
  - rewrite Hg.
    assert (inject_Z (- f - 1) == - inject_Z f - 1) as Hinj.
    { unfold Z.sub. rewrite inject_Z_plus, inject_Z_opp. reflexivity. }
    assert (Z.even (- f - 1) = negb (Z.even f)) as Hev.
    { replace (- f - 1)%Z with (- (f + 1))%Z by lia.
      rewrite Z.even_opp, Z.even_add. by destruct (Z.even f). }
    destruct (Qcompare_spec (- x - inject_Z (- f - 1)) (1 # 2)) as [E|E|E];
      rewrite Hinj in E;
      destruct (Qcompare_spec (x - inject_Z f) (1 # 2)) as [E'|E'|E'];
      try (exfalso; lra); try lia.
    rewrite Hev. destruct (Z.even f); simpl; lia.
Qed.

(** ** Powers of two *)

Lemma pow2_pos (e : Z) : 0 < pow2 e.
Proof. apply Qpower_0_lt. reflexivity. Qed.

Lemma pow2_add (a b : Z) : pow2 (a + b) == pow2 a * pow2 b.
Proof. apply Qpower_plus. discriminate. Qed.

Lemma pow2_opp (a : Z) : pow2 (- a) == / pow2 a.
Proof. apply Qpower_opp. Qed.

Lemma pow2_sub (a b : Z) : pow2 (a - b) == pow2 a / pow2 b.
Proof. unfold Z.sub. rewrite pow2_add, pow2_opp. reflexivity. Qed.

Lemma pow2_succ (a : Z) : pow2 (a + 1) == 2 * pow2 a.
Proof. rewrite pow2_add. change (pow2 1) with 2. ring. Qed.

Lemma pow2_le (a b : Z) : (a ≤ b)%Z → pow2 a <= pow2 b.
Proof. intros H. apply Qpower_le_compat_l; [done | discriminate]. Qed.

Lemma pow2_lt (a b : Z) : (a < b)%Z → pow2 a < pow2 b.
Proof. intros H. apply Qpower_lt_compat_l; [done | reflexivity]. Qed.

Lemma pow2_inject (a : Z) : (0 ≤ a)%Z → inject_Z (2 ^ a) == pow2 a.
Proof. intros H. by apply Zpower_Qpower. Qed.

(** ** The exponent of a number *)

Lemma floor_log2_spec (q : Q) :
  0 < q → pow2 (floor_log2 q) <= q ∧ q < pow2 (floor_log2 q + 1).
Proof.
  intros Hq. unfold floor_log2.
  destruct q as [n d]. simpl Qnum. simpl Qden.
  assert (0 < n)%Z as Hn by (unfold Qlt in Hq; simpl in Hq; lia).
  pose proof (Z.log2_spec n Hn) as [Ha1 Ha2].
  pose proof (Z.log2_spec (Zpos d) (Pos2Z.is_pos d)) as [Hb1 Hb2].
  pose proof (Z.log2_nonneg n) as Ha0.
  pose proof (Z.log2_nonneg (Zpos d)) as Hb0.
  set (a := Z.log2 n) in *. set (b := Z.log2 (Zpos d)) in *.
  rewrite Zle_Qle, pow2_inject in Ha1 by done.
  rewrite Zlt_Qlt, Z.pow_succ_r, inject_Z_mult, pow2_inject in Ha2 by done.
  rewrite Zle_Qle, pow2_inject in Hb1 by done.
  rewrite Zlt_Qlt, Z.pow_succ_r, inject_Z_mult, pow2_inject in Hb2 by done.
  change (inject_Z 2) with 2 in Ha2, Hb2.
  pose proof (pow2_pos a) as Hpa. pose proof (pow2_pos b) as Hpb.
  assert (n # d == inject_Z n / inject_Z (Zpos d)) as Eq by apply Qmake_Qdiv.
  assert (0 < inject_Z (Zpos d)) as Hd by (unfold Qlt; simpl; lia).
  set (N := inject_Z n) in *. set (D := inject_Z (Zpos d)) in *.
  assert (pow2 (a - b + 1) == 2 * pow2 a / pow2 b) as E1.
  { rewrite pow2_succ, pow2_sub. field. lra. }
  assert (pow2 (a - b - 1 + 1) == pow2 a / pow2 b) as E2.
  { replace (a - b - 1 + 1)%Z with (a - b)%Z by lia. apply pow2_sub. }
  assert (pow2 (a - b - 1) == pow2 a / (2 * pow2 b)) as E3.
  { unfold Z.sub at 1. rewrite pow2_add, pow2_sub, pow2_opp.
    change (pow2 1) with 2. field. lra. }
  assert (n # d < pow2 (a - b + 1)) as Hup.
  { rewrite Eq, E1. apply Qlt_shift_div_r; [done |].
    assert (2 * pow2 a / pow2 b * D == 2 * pow2 a * D / pow2 b) as ->
      by (field; lra).
    apply Qlt_shift_div_l; [done |]. nra. }
  assert (pow2 (a - b - 1) <= n # d) as Hdown.
  { rewrite Eq, E3. apply Qle_shift_div_l; [done |].
    assert (pow2 a / (2 * pow2 b) * D == pow2 a * D / (2 * pow2 b)) as ->
      by (field; lra).
    apply Qle_shift_div_r; [lra |]. nra. }
  destruct (Qle_b (pow2 (a - b)) (n # d)) eqn:Ecmp.
  - apply Qle_b_true in Ecmp. done.
  - split; [done |]. rewrite E2, <- pow2_sub.
    destruct (Qlt_le_dec (n # d) (pow2 (a - b))) as [H|H]; [done |].
    apply Qle_b_true in H. congruence.
Qed.

Lemma floor_log2_unique (q : Q) (e : Z) :
  pow2 e <= q → q < pow2 (e + 1) → floor_log2 q = e.
Proof.
  intros Hlo Hhi.
  assert (0 < q) as Hq by (pose proof (pow2_pos e); lra).
  destruct (floor_log2_spec q Hq) as [Hlo' Hhi'].
  set (f := floor_log2 q) in *.
  destruct (Z.lt_trichotomy f e) as [H|[H|H]]; [| done |].
  - assert (pow2 (f + 1) <= pow2 e) by (apply pow2_le; lia). lra.
  - assert (pow2 (e + 1) <= pow2 f) by (apply pow2_le; lia). lra.
Qed.

Lemma floor_log2_proper (q q' : Q) :
  0 < q → q == q' → floor_log2 q = floor_log2 q'.
Proof.
  intros Hq E. symmetry. apply floor_log2_unique;
    destruct (floor_log2_spec q Hq); lra.
Qed.

Lemma floor_log2_mono (q q' : Q) :
  0 < q → q <= q' → (floor_log2 q ≤ floor_log2 q')%Z.
Proof.
  intros Hq Hle.
  destruct (floor_log2_spec q Hq) as [Hlo _].
  destruct (floor_log2_spec q') as [_ Hhi']; [lra |].
  destruct (Z.le_gt_cases (floor_log2 q) (floor_log2 q')) as [H|H]; [done |].
  assert (pow2 (floor_log2 q' + 1) <= pow2 (floor_log2 q))
    by (apply pow2_le; lia).
  lra.
Qed.

(** ** The spacing of the doubles *)

Lemma ulp_pos (q : Q) : 0 < ulp q.
Proof. apply pow2_pos. Qed.

Lemma Qabs_pos_lt (q : Q) : ¬ q == 0 → 0 < Qabs q.
Proof.
  intros Hq. pose proof (Qabs_nonneg q) as H0.
  destruct (Qeq_dec (Qabs q) 0) as [Ez|Ez]; [| lra].
  exfalso. apply Hq.
  assert (Qabs q <= 0) as Hle by lra.
  apply Qabs_Qle_condition in Hle. lra.
Qed.

Lemma ulp_proper (q q' : Q) : ¬ q == 0 → q == q' → ulp q = ulp q'.
Proof.
  intros Hq E. unfold ulp. do 3 f_equal.
  apply floor_log2_proper; [by apply Qabs_pos_lt | by rewrite E].
Qed.

Lemma ulp_opp (q : Q) : ulp (- q) = ulp q.
Proof.
  unfold ulp. do 4 f_equal. destruct q as [n d]. simpl. by rewrite Z.abs_opp.
Qed.

(** ** Rounding to a double *)

Lemma rnd_zero (q : Q) : q == 0 → rnd q == 0.
Proof.
  intros E. unfold rnd.
  assert (q / ulp q == 0) as E'
    by (unfold Qdiv; set (u := / ulp q); clearbody u; nra).
  rewrite (round_half_even_proper _ _ E'). change (round_half_even 0) with 0%Z.
  ring.
Qed.

#[global] Instance rnd_proper : Proper (Qeq ==> Qeq) rnd.
Proof.
  intros q q' E. destruct (Qeq_dec q 0) as [Ez|Ez].
  - rewrite (rnd_zero q Ez), (rnd_zero q'); [reflexivity | by rewrite <- E].
  - unfold rnd. rewrite <- (ulp_proper q q' Ez E).
    assert (q / ulp q == q' / ulp q) as E'
      by (unfold Qdiv; set (u := / ulp q); clearbody u; nra).
    by rewrite (round_half_even_proper _ _ E').
Qed.

Lemma rnd_opp (q : Q) : rnd (- q) == - rnd q.
Proof.
  unfold rnd. rewrite ulp_opp.
  assert (- q / ulp q == - (q / ulp q)) as E by (unfold Qdiv; ring).
  rewrite (round_half_even_proper _ _ E), round_half_even_opp, inject_Z_opp.
  ring.
Qed.

Lemma rnd_nonneg (q : Q) : 0 <= q → 0 <= rnd q.
Proof.
  intros Hq. unfold rnd. pose proof (ulp_pos q) as Hu.
  apply Qmult_le_0_compat; [| lra].
  change 0 with (inject_Z 0). rewrite <- Zle_Qle.
  change 0%Z with (round_half_even 0). apply round_half_even_mono.
  apply Qle_shift_div_l; [done | lra].
Qed.

Lemma rnd_nonpos (q : Q) : q <= 0 → rnd q <= 0.
Proof.
  intros Hq. assert (0 <= rnd (- q)) as H by (apply rnd_nonneg; lra).
  rewrite rnd_opp in H. lra.
Qed.

(** The bounds of a rounded positive number: it stays within the binade of
    the number, ends included. *)
Lemma rnd_binade (q : Q) :
  0 < q →
  let e := Z.max (floor_log2 q) (-1022) in
  rnd q <= pow2 (e + 1) ∧ (e = floor_log2 q → pow2 e <= rnd q).
Proof.
  intros Hq e.
  destruct (floor_log2_spec q Hq) as [Hlo Hhi].
  assert (ulp q = pow2 (e - 52)) as Hu.
  { unfold ulp. do 3 f_equal. apply floor_log2_proper.
    - apply Qabs_pos_lt. lra.
    - apply Qabs_pos. lra. }
  unfold rnd. rewrite Hu. pose proof (pow2_pos (e - 52)) as Hp.
  assert (pow2 (e + 1) == inject_Z (2 ^ 53) * pow2 (e - 52)) as E1.
  { rewrite pow2_inject by lia. rewrite <- pow2_add. by replace (53 + (e - 52))%Z with (e + 1)%Z by lia. }
  assert (pow2 e == inject_Z (2 ^ 52) * pow2 (e - 52)) as E2.
  { rewrite pow2_inject by lia. rewrite <- pow2_add. by replace (52 + (e - 52))%Z with e by lia. }
  split.
  - rewrite E1. apply Qmult_le_compat_r; [| lra].
    rewrite <- Zle_Qle.
    transitivity (round_half_even (inject_Z (2 ^ 53)));
      [| by rewrite round_half_even_inject].
    apply round_half_even_mono. apply Qle_shift_div_r; [done |].
    rewrite <- E1.
    assert (pow2 (floor_log2 q + 1) <= pow2 (e + 1)) by (apply pow2_le; lia).
    lra.
  - intros He. rewrite E2. apply Qmult_le_compat_r; [| lra].
    rewrite <- Zle_Qle.
    transitivity (round_half_even (inject_Z (2 ^ 52)));
      [by rewrite round_half_even_inject |].
    apply round_half_even_mono. apply Qle_shift_div_l; [done |].
    rewrite <- E2, He. done.
Qed.

Lemma rnd_mono_pos (q1 q2 : Q) : 0 < q1 → q1 <= q2 → rnd q1 <= rnd q2.
Proof.
  intros H1 H12. assert (0 < q2) as H2 by lra.
  pose proof (floor_log2_mono q1 q2 H1 H12) as He.
  destruct (rnd_binade q1 H1) as [Hup1 _].
  destruct (rnd_binade q2 H2) as [_ Hlo2].
  set (e1 := Z.max (floor_log2 q1) (-1022)) in *.
  set (e2 := Z.max (floor_log2 q2) (-1022)) in *.
  assert (ulp q1 = pow2 (e1 - 52)) as Hu1.
  { unfold ulp. do 3 f_equal. apply floor_log2_proper;
      [apply Qabs_pos_lt; lra | apply Qabs_pos; lra]. }
  assert (ulp q2 = pow2 (e2 - 52)) as Hu2.
  { unfold ulp. do 3 f_equal. apply floor_log2_proper;
      [apply Qabs_pos_lt; lra | apply Qabs_pos; lra]. }
  destruct (decide (e1 = e2)) as [E|E].
  - unfold rnd. rewrite Hu1, Hu2, E.
    pose proof (pow2_pos (e2 - 52)) as Hp.
    apply Qmult_le_compat_r; [| lra].
    rewrite <- Zle_Qle. apply round_half_even_mono.
    unfold Qdiv. apply Qmult_le_compat_r; [done |].
    apply Qinv_le_0_compat. lra.
  - assert (e1 < e2)%Z as Hlt by lia.
    assert (e2 = floor_log2 q2) as E2 by lia.
    specialize (Hlo2 E2).
    assert (pow2 (e1 + 1) <= pow2 e2) by (apply pow2_le; lia).
    lra.
Qed.

(** Rounding keeps the order. *)
Lemma rnd_mono (q1 q2 : Q) : q1 <= q2 → rnd q1 <= rnd q2.
Proof.
  intros H. destruct (Qlt_le_dec 0 q1) as [H1|H1].
  - by apply rnd_mono_pos.
  - destruct (Qlt_le_dec q2 0) as [H2|H2].
    + assert (rnd (- q2) <= rnd (- q1)) as H' by (apply rnd_mono_pos; lra).
      rewrite !rnd_opp in H'. lra.
    + pose proof (rnd_nonpos q1 H1). pose proof (rnd_nonneg q2 H2). lra.
Qed.

(** A number between two doubles is rounded to a double between them. *)
Lemma rnd_between (a b q : Q) :
  rnd a == a → rnd b == b → a <= q <= b → a <= rnd q <= b.
Proof.
  intros Ea Eb [Ha Hb].
  pose proof (rnd_mono a q Ha). pose proof (rnd_mono q b Hb). lra.
Qed.

(** The rounding error is at most half the spacing. *)
Lemma rnd_near (q : Q) :
  rnd q - ulp q * (1 # 2) <= q ∧ q <= rnd q + ulp q * (1 # 2).
Proof.
  unfold rnd. pose proof (ulp_pos q) as Hu.
  destruct (round_half_even_near (q / ulp q)) as [Hlo Hhi].
  set (m := inject_Z (round_half_even (q / ulp q))) in *.
  assert (q == q / ulp q * ulp q) as E by (field; lra).
  set (x := q / ulp q) in *. set (u := ulp q) in *. clearbody m x u.
  assert ((m - (1 # 2)) * u <= x * u) by (apply Qmult_le_compat_r; lra).
  assert (x * u <= (m + (1 # 2)) * u) by (apply Qmult_le_compat_r; lra).
  split; lra.
Qed.

(** Below [2^k] in absolute value, the rounding error is at most
    [2^(k-54)]. *)
Lemma rnd_error (q : Q) (k : Z) :
  Qabs q < pow2 k → (-1022 < k)%Z → Qabs (rnd q - q) <= pow2 (k - 54).
Proof.
  intros Hq Hk. pose proof (pow2_pos (k - 54)) as Hp.
  destruct (Qeq_dec q 0) as [Ez|Ez].
  - pose proof (rnd_zero q Ez) as E0.
    apply Qabs_Qle_condition. lra.
  - assert (ulp q <= pow2 (k - 53)) as Hu.
    { unfold ulp. apply pow2_le.
      destruct (floor_log2_spec (Qabs q)) as [Hlo Hhi]; [by apply Qabs_pos_lt |].
      assert (floor_log2 (Qabs q) < k)%Z.
      { destruct (Z.lt_ge_cases (floor_log2 (Qabs q)) k) as [H|H]; [done |].
        assert (pow2 k <= pow2 (floor_log2 (Qabs q))) by (by apply pow2_le).
        lra. }
      lia. }
    assert (pow2 (k - 53) == 2 * pow2 (k - 54)) as E.
    { rewrite <- pow2_succ. by replace (k - 54 + 1)%Z with (k - 53)%Z by lia. }
    destruct (rnd_near q) as [Hlo Hhi].
    apply Qabs_Qle_condition. lra.
Qed.

(** A closed equation or inequality between rationals, by evaluation. *)
Ltac qeval :=
  first [ apply Qeq_bool_eq; vm_compute; reflexivity
        | apply Qle_bool_imp_le; vm_compute; reflexivity
        | apply Qlt_b_true; vm_compute; reflexivity ].

#[global] Instance fadd_proper : Proper (Qeq ==> Qeq ==> Qeq) fadd.
Proof. intros a a' Ea b b' Eb. unfold fadd. by rewrite Ea, Eb. Qed.

#[global] Instance fsub_proper : Proper (Qeq ==> Qeq ==> Qeq) fsub.
Proof. intros a a' Ea b b' Eb. unfold fsub. by rewrite Ea, Eb. Qed.

#[global] Instance fmul_proper : Proper (Qeq ==> Qeq ==> Qeq) fmul.
Proof. intros a a' Ea b b' Eb. unfold fmul. by rewrite Ea, Eb. Qed.

Lemma fadd_mono (a a' b b' : Q) : a <= a' → b <= b' → fadd a b <= fadd a' b'.
Proof. intros. apply rnd_mono. lra. Qed.

Lemma fsub_mono (a a' b b' : Q) : a <= a' → b' <= b → fsub a b <= fsub a' b'.
Proof. intros. apply rnd_mono. lra. Qed.

Lemma fmul_mono_r (a a' c : Q) : 0 <= c → a <= a' → fmul a c <= fmul a' c.
Proof. intros. apply rnd_mono. by apply Qmult_le_compat_r. Qed.

Lemma py_max_mono (a b b' : Q) : b <= b' → py_max a b <= py_max a b'.
Proof.
  intros H. destruct (py_max_spec a b) as [[? ->]|[? ->]];
    destruct (py_max_spec a b') as [[? ->]|[? ->]]; lra.
Qed.

Lemma py_max_bounds (a b : Q) : a <= py_max a b ∧ b <= py_max a b.
Proof. destruct (py_max_spec a b) as [[? ->]|[? ->]]; split; lra. Qed.

Lemma py_max_proper (a b b' : Q) : b == b' → py_max a b == py_max a b'.
Proof.
  intros E. destruct (py_max_spec a b) as [[? ->]|[? ->]];
    destruct (py_max_spec a b') as [[? ->]|[? ->]]; lra.
Qed.

(** ** Rounding to two decimals *)

Lemma py_round_proper (x y : Q) (ndigits : nat) :
  x == y → py_round x ndigits = py_round y ndigits.
Proof.
  intros H. unfold py_round. do 2 f_equal.
  apply round_half_even_proper. by rewrite H.
Qed.

Lemma py_round_2_value (x : Q) :
  py_round x 2 == rnd (inject_Z (round_half_even (x * 100)) / 100).
Proof.
  unfold py_round. simpl. apply rnd_proper. rewrite (Qmake_Qdiv _ 100).
  reflexivity.
Qed.

Lemma py_round_2_mono (x y : Q) : x <= y → py_round x 2 <= py_round y 2.
Proof.
  intros Hxy. rewrite !py_round_2_value. apply rnd_mono.
  assert (inject_Z (round_half_even (x * 100))
          <= inject_Z (round_half_even (y * 100))) as H.
  { rewrite <- Zle_Qle. apply round_half_even_mono. lra. }
  unfold Qdiv. apply Qmult_le_compat_r; [done | by vm_compute].
Qed.

(** The decimal that [round(x, 2)] reads back is within 0.005 of [x]. *)
Lemma hundredths_near (x : Q) :
  x - (1 # 200) <= inject_Z (round_half_even (x * 100)) / 100 ∧
  inject_Z (round_half_even (x * 100)) / 100 <= x + (1 # 200).
Proof.
  destruct (round_half_even_near (x * 100)) as [Hlo Hhi].
  set (r := inject_Z (round_half_even (x * 100))) in *.
  split.
  - apply Qle_shift_div_l; [reflexivity | lra].
  - apply Qle_shift_div_r; [reflexivity | lra].
Qed.

(** ** C2: the importance score *)

Lemma importance_score_number (v : pyval) (x : Q) :
  py_number v = Ok x →
  (1 <= x <= 10 → ∃ level, calculate_importance_score v = Ok (x, IRated level v)) ∧
  (x < 1 ∨ 10 < x → calculate_importance_score v = Ok (5.0, IInvalid)).
Proof.
  intros Hv. unfold calculate_importance_score. rewrite Hv. simpl.
  split.
  - intros [H1 H10].
    destruct (Qlt_b x 1) eqn:E1; [apply Qlt_b_true in E1; lra |].
    destruct (Qlt_b 10 x) eqn:E2; [apply Qlt_b_true in E2; lra |].
    simpl. eauto.
  - intros H.
    destruct (Qlt_b x 1) eqn:E1; [done |]. apply Qlt_b_false in E1.
    destruct (Qlt_b 10 x) eqn:E2; [done |]. apply Qlt_b_false in E2.
    exfalso. lra.
Qed.

(** C2 (as amended).  For an integer rating in [1,10] the importance score
    is the rating itself; for an integer outside [1,10] (0, 11, ...) it is
    the default 5.0.  A float is treated by the same range test on its
    value, so a non-integer value inside [1,10] is returned as it is; a
    value that is not a number (a string, None) raises TypeError. *)
Theorem C2_importance_score :
  (∀ z : Z, (1 ≤ z ≤ 10)%Z →
     ∃ level, calculate_importance_score (PyInt z)
              = Ok (inject_Z z, IRated level (PyInt z))) ∧
  (∀ z : Z, (z < 1 ∨ 10 < z)%Z →
     calculate_importance_score (PyInt z) = Ok (5.0, IInvalid)) ∧
  (∀ q : Q, 1 <= q <= 10 →
     ∃ level, calculate_importance_score (PyFloat q)
              = Ok (q, IRated level (PyFloat q))) ∧
  (∀ q : Q, q < 1 ∨ 10 < q →
     calculate_importance_score (PyFloat q) = Ok (5.0, IInvalid)) ∧
  (∀ s : string, calculate_importance_score (PyStr s) = Raise TypeError) ∧
  calculate_importance_score PyNone = Raise TypeError.
Proof.
  repeat split; try done.
  - intros z [H1 H10].
    apply (importance_score_number (PyInt z) (inject_Z z)); [done |].
    split; [change 1 with (inject_Z 1) | change 10 with (inject_Z 10)];
      rewrite <- Zle_Qle; lia.
  - intros z H.
    apply (importance_score_number (PyInt z) (inject_Z z)); [done |].
    destruct H as [H|H]; [left; change 1 with (inject_Z 1)
                         | right; change 10 with (inject_Z 10)];
      rewrite <- Zlt_Qlt; lia.
  - intros q H. by apply (importance_score_number (PyFloat q) q).
  - intros q H. by apply (importance_score_number (PyFloat q) q).
Qed.

Lemma C2_importance_score_witness :
  (∃ level, calculate_importance_score (PyInt 7)
            = Ok (inject_Z 7, IRated level (PyInt 7))) ∧
  calculate_importance_score (PyInt 0) = Ok (5.0, IInvalid) ∧
  calculate_importance_score (PyInt 11) = Ok (5.0, IInvalid) ∧
  calculate_importance_score (PyFloat 10.5) = Ok (5.0, IInvalid).
Proof.
  destruct C2_importance_score as (Hin & Hout & _ & Hfout & _).
  split; [apply (Hin 7%Z); lia |].
  split; [apply (Hout 0%Z); lia |].
  split; [apply (Hout 11%Z); lia |].
  apply (Hfout 10.5). right. reflexivity.
Defined.

(** C2 (as stated) fails: the non-integer input 5.5 is scored 5.5, not the
    default 5.0, and a string does not get a score at all. *)
Lemma C2_importance_score_counterexample :
  (∃ note, calculate_importance_score (PyFloat 5.5) = Ok (5.5, note)) ∧
  ¬ (5.5 == 5.0) ∧
  calculate_importance_score (PyStr "high") = Raise TypeError.
Proof.
  split; [eexists; reflexivity |]. split; [| reflexivity].
  intros H. discriminate H.
Qed.

(** ** C3: the effort score *)

#[global] Instance linear_piece_proper :
  Proper (Qeq ==> Qeq ==> Qeq ==> Qeq ==> Qeq) linear_piece.
Proof.
  intros a a' Ea c c' Ec k k' Ek x x' Ex. unfold linear_piece.
  by rewrite Ea, Ec, Ek, Ex.
Qed.

(** A piece with a slope [c >= 0] does not increase. *)
Lemma linear_piece_anti (a c k x y : Q) :
  0 <= c → x <= y → linear_piece a c k y <= linear_piece a c k x.
Proof.
  intros Hc Hxy. unfold linear_piece.
  apply fsub_mono; [lra |]. apply fmul_mono_r; [done |].
  apply rnd_mono. lra.
Qed.

(** The integer operand [x - k] of the products in [calculate_effort_score]. *)
Lemma minus_as_float_number (v : pyval) (h : Q) (k : Z) :
  py_number v = Ok h → (0 ≤ k ≤ 8)%Z →
  (∀ z, v = PyInt z → (Z.abs (z - k) < 2 ^ 1024 - 2 ^ 970)%Z) →
  ∃ d, minus_as_float v k = Ok d ∧ d == rnd (h - inject_Z k).
Proof.
  intros Hv Hk Hfit.
  destruct v as [|b|z|q|s|o|]; simplify_eq/=.
  - unfold float_of_int.
    destruct (Z.ltb_spec (Z.abs ((if b then 1 else 0) - k)) (2 ^ 1024 - 2 ^ 970))
      as [_|Hbig]; [| exfalso; destruct b; simpl in Hbig; lia].
    eexists. split; [done |]. apply rnd_proper.
    unfold Z.sub. rewrite inject_Z_plus, inject_Z_opp. by destruct b.
  - unfold float_of_int.
    destruct (Z.ltb_spec (Z.abs (z - k)) (2 ^ 1024 - 2 ^ 970)) as [_|Hbig];
      [| specialize (Hfit z eq_refl); lia].
    eexists. split; [done |]. apply rnd_proper.
    unfold Z.sub. rewrite inject_Z_plus, inject_Z_opp. reflexivity.
  - eexists. split; [done |]. reflexivity.
Qed.

(** The effort score of at least one hour is [effort_value], unless the
    hours are an integer too large to be converted. *)
Lemma effort_score_hours (v : pyval) (h : Q) :
  py_number v = Ok h → 1 <= h → hours_in_float_range v = true →
  ∃ s note, calculate_effort_score v = Ok (s, note) ∧ s == effort_value h.
Proof.
  intros Hv H1 Hfit. unfold calculate_effort_score, effort_value.
  rewrite Hv. simpl.
  assert (∀ k : Z, (0 ≤ k ≤ 8)%Z → h <= 8 ∨ k = 8%Z →
            ∃ d, minus_as_float v k = Ok d ∧ d == rnd (h - inject_Z k)) as Hd.
  { intros k Hk Hsmall. apply minus_as_float_number; [done | done |].
    intros z ->. simpl in Hv, Hfit. injection Hv as <-.
    apply Z.ltb_lt in Hfit.
    assert (1 ≤ z)%Z by (rewrite Zle_Qle; done).
    destruct Hsmall as [H8| ->]; [| lia].
    assert (z ≤ 8)%Z by (rewrite Zle_Qle; done).
    apply Z.abs_lt. split; [| lia].
    assert (0 < 2 ^ 1024 - 2 ^ 970 - 8)%Z by (by vm_compute). lia. }
  qcases; try (exfalso; lra).
  - destruct (Hd 1%Z) as (d & -> & Ed); [lia | left; lra |].
    eexists _, _. split; [done |]. unfold linear_piece. by rewrite Ed.
  - destruct (Hd 2%Z) as (d & -> & Ed); [lia | left; lra |].
    eexists _, _. split; [done |]. unfold linear_piece. by rewrite Ed.
  - destruct (Hd 4%Z) as (d & -> & Ed); [lia | left; lra |].
    eexists _, _. split; [done |]. unfold linear_piece. by rewrite Ed.
  - destruct (Hd 8%Z) as (d & -> & Ed); [lia | by right |].
    eexists _, _. split; [done |]. apply py_max_proper.
    unfold linear_piece. by rewrite Ed.
Qed.

(** An integer of hours too large to be converted raises [OverflowError]. *)
Lemma effort_score_overflow (v : pyval) :
  hours_in_float_range v = false →
  calculate_effort_score v = Raise OverflowError.
Proof.
  destruct v as [|b|z|q|s|o|]; try done. simpl. intros Hbig.
  apply Z.ltb_ge in Hbig.
  assert (0 < 2 ^ 1024 - 2 ^ 970 - 8)%Z as Hpos by (by vm_compute).
  assert (8 < z)%Z as H8 by lia.
  unfold calculate_effort_score. simpl.
  assert (8 < inject_Z z) as Hq by (change 8 with (inject_Z 8); by rewrite <- Zlt_Qlt).
  qcases; try (exfalso; lra).
  unfold float_of_int.
  destruct (Z.ltb_spec (Z.abs (z - 8)) (2 ^ 1024 - 2 ^ 970)) as [Hs|_]; [lia | done].
Qed.

(** The range of each piece of the effort score. *)
Lemma effort_value_pieces (h : Q) :
  1 <= h →
  (h <= 2 ∧ effort_value h = linear_piece 9.0 0.5 1 h ∧
     8.5 <= effort_value h <= 9) ∨
  (2 < h ∧ h <= 4 ∧ effort_value h = linear_piece 7.5 0.75 2 h ∧
     6 <= effort_value h <= 7.5) ∨
  (4 < h ∧ h <= 8 ∧ effort_value h = linear_piece 5.5 0.375 4 h ∧
     4 <= effort_value h <= 5.5) ∨
  (8 < h ∧ effort_value h = py_max 1.0 (linear_piece 4.0 (rnd 0.2) 8 h) ∧
     1 <= effort_value h <= 4).
Proof.
  intros H1. unfold effort_value. qcases.
  - left. split; [done |]. split; [done |].
    pose proof (linear_piece_anti 9.0 0.5 1 h 2 ltac:(lra) ltac:(lra)) as Hlo.
    pose proof (linear_piece_anti 9.0 0.5 1 1 h ltac:(lra) ltac:(lra)) as Hhi.
    assert (linear_piece 9.0 0.5 1 2 == 8.5) as Vlo by qeval.
    assert (linear_piece 9.0 0.5 1 1 == 9) as Vhi by qeval.
    lra.
  - right. left. split; [done |]. split; [done |]. split; [done |].
    pose proof (linear_piece_anti 7.5 0.75 2 h 4 ltac:(lra) ltac:(lra)) as Hlo.
    pose proof (linear_piece_anti 7.5 0.75 2 2 h ltac:(lra) ltac:(lra)) as Hhi.
    assert (linear_piece 7.5 0.75 2 4 == 6) as Vlo by qeval.
    assert (linear_piece 7.5 0.75 2 2 == 7.5) as Vhi by qeval.
    lra.
  - do 2 right. left. split; [done |]. split; [done |]. split; [done |].
    pose proof (linear_piece_anti 5.5 0.375 4 h 8 ltac:(lra) ltac:(lra)) as Hlo.
    pose proof (linear_piece_anti 5.5 0.375 4 4 h ltac:(lra) ltac:(lra)) as Hhi.
    assert (linear_piece 5.5 0.375 4 8 == 4) as Vlo by qeval.
    assert (linear_piece 5.5 0.375 4 4 == 5.5) as Vhi by qeval.
    lra.
  - do 3 right. split; [done |]. split; [done |].
    assert (0 <= rnd 0.2) as Hc by (apply rnd_nonneg; lra).
    pose proof (linear_piece_anti 4.0 (rnd 0.2) 8 8 h Hc ltac:(lra)) as Hhi.
    assert (linear_piece 4.0 (rnd 0.2) 8 8 == 4) as Vhi by qeval.
    destruct (py_max_spec 1.0 (linear_piece 4.0 (rnd 0.2) 8 h))
      as [[Hlt ->]|[Hle ->]]; lra.
Qed.

(** From one hour on the effort score does not increase. *)
Lemma effort_value_anti (h1 h2 : Q) :
  1 <= h1 → h1 <= h2 → effort_value h2 <= effort_value h1.
Proof.
  intros H1 H12.
  assert (0 <= rnd 0.2) as Hc by (apply rnd_nonneg; lra).
  destruct (effort_value_pieces h1 H1) as [C1|[C1|[C1|C1]]];
    destruct (effort_value_pieces h2 ltac:(lra)) as [C2|[C2|[C2|C2]]];
    destruct_and?; try lra;
    match goal with
    | E1 : effort_value h1 = _, E2 : effort_value h2 = _ |- _ =>
        rewrite E1, E2
    end;
    try (apply linear_piece_anti; lra).
  apply py_max_mono. by apply linear_piece_anti.
Qed.







(** ** C4: the urgency score *)

(** Integer bounds as bounds on rationals. *)
Ltac qconst :=
  repeat match goal with
  | H : context [inject_Z (Zpos ?p)] |- _ =>
      change (inject_Z (Zpos p)) with (Zpos p # 1) in H
  | H : context [inject_Z Z0] |- _ =>
      change (inject_Z Z0) with (0 # 1) in H
  | |- context [inject_Z (Zpos ?p)] =>
      change (inject_Z (Zpos p)) with (Zpos p # 1)
  | |- context [inject_Z Z0] =>
      change (inject_Z Z0) with (0 # 1)
  end.

Ltac z2q :=
  repeat match goal with
  | H : (_ ≤ _ ≤ _)%Z |- _ => destruct H
  | H : (_ ≤ _)%Z |- _ => rewrite Zle_Qle in H
  | H : (_ < _)%Z |- _ => rewrite Zlt_Qlt in H
  | H : @eq Z _ _ |- _ => subst
  end;
  qconst.

(** The urgency score of a date that is not overdue, branch by branch, with
    the range of each branch. *)
Lemma urgency_of_days_left_cases (d : Z) :
  (0 ≤ d)%Z →
  let s := (urgency_of_days_left d).1 in
  (d = 0%Z ∧ s == 9.0) ∨
  ((1 ≤ d ≤ 3)%Z ∧ s == linear_piece 8.0 (rnd 0.3) 0 (inject_Z d) ∧
     7 <= s <= 8) ∨
  ((4 ≤ d ≤ 7)%Z ∧ s == linear_piece 7.0 0.5 3 (inject_Z d) ∧
     5 <= s <= 6.5) ∨
  ((8 ≤ d ≤ 14)%Z ∧ s == linear_piece 5.0 (rnd 0.3) 7 (inject_Z d) ∧
     rnd 2.9 <= s <= 5) ∨
  ((15 ≤ d)%Z ∧ s == py_max 1.0 (linear_piece 3.0 (rnd 0.1) 14 (inject_Z d)) ∧
     1 <= s <= rnd 2.9).
Proof.
  intros H0. unfold urgency_of_days_left.
  assert (0 <= rnd 0.3) as Hc3 by (apply rnd_nonneg; lra).
  assert (0 <= rnd 0.1) as Hc1 by (apply rnd_nonneg; lra).
  assert (∀ k : Z, float_of_days (d - k) == rnd (inject_Z d - inject_Z k))
    as Hdays.
  { intros k. unfold float_of_days. apply rnd_proper.
    unfold Z.sub. rewrite inject_Z_plus, inject_Z_opp. reflexivity. }
  assert (float_of_days d == rnd (inject_Z d - 0)) as Hdays0.
  { unfold float_of_days. apply rnd_proper. ring. }
  destruct (Z.ltb_spec d 0); [lia |].
  destruct (Z.eqb_spec d 0); [left; done |].
  destruct (Z.leb_spec d 3) as [H3|H3].
  { right. left. split; [lia |]. cbn [fst].
    assert (fsub 8.0 (fmul (float_of_days d) (rnd 0.3))
            == linear_piece 8.0 (rnd 0.3) 0 (inject_Z d)) as ->
      by (unfold linear_piece; by rewrite Hdays0).
    split; [reflexivity |].
    assert (1 ≤ d)%Z as H1 by lia. z2q.
    pose proof (linear_piece_anti 8.0 (rnd 0.3) 0 (inject_Z d) 3 Hc3 H3) as Hlo.
    pose proof (linear_piece_anti 8.0 (rnd 0.3) 0 1 (inject_Z d) Hc3 H1) as Hhi.
    assert (7 <= linear_piece 8.0 (rnd 0.3) 0 3) by qeval.
    assert (linear_piece 8.0 (rnd 0.3) 0 1 <= 8) by qeval.
    lra. }
  destruct (Z.leb_spec d 7) as [H7|H7].
  { do 2 right. left. split; [lia |]. cbn [fst].
    assert (fsub 7.0 (fmul (float_of_days (d - 3)) 0.5)
            == linear_piece 7.0 0.5 3 (inject_Z d)) as ->
      by (unfold linear_piece; by rewrite Hdays).
    split; [reflexivity |].
    assert (4 ≤ d)%Z as H4 by lia. clear H3. z2q.
    pose proof (linear_piece_anti 7.0 0.5 3 (inject_Z d) 7 ltac:(lra) H7) as Hlo.
    pose proof (linear_piece_anti 7.0 0.5 3 4 (inject_Z d) ltac:(lra) H4) as Hhi.
    assert (5 <= linear_piece 7.0 0.5 3 7) by qeval.
    assert (linear_piece 7.0 0.5 3 4 <= 6.5) by qeval.
    lra. }
  destruct (Z.leb_spec d 14) as [H14|H14].
  { do 3 right. left. split; [lia |]. cbn [fst].
    assert (fsub 5.0 (fmul (float_of_days (d - 7)) (rnd 0.3))
            == linear_piece 5.0 (rnd 0.3) 7 (inject_Z d)) as ->
      by (unfold linear_piece; by rewrite Hdays).
    split; [reflexivity |].
    assert (8 ≤ d)%Z as H8 by lia. clear H3 H7. z2q.
    pose proof (linear_piece_anti 5.0 (rnd 0.3) 7 (inject_Z d) 14 Hc3 H14) as Hlo.
    pose proof (linear_piece_anti 5.0 (rnd 0.3) 7 8 (inject_Z d) Hc3 H8) as Hhi.
    assert (rnd 2.9 <= linear_piece 5.0 (rnd 0.3) 7 14) by qeval.
    assert (linear_piece 5.0 (rnd 0.3) 7 8 <= 5) by qeval.
    lra. }
  do 4 right. split; [lia |]. cbn [fst].
  assert (py_max 1.0 (fsub 3.0 (fmul (float_of_days (d - 14)) (rnd 0.1)))
          == py_max 1.0 (linear_piece 3.0 (rnd 0.1) 14 (inject_Z d))) as ->
    by (apply py_max_proper; unfold linear_piece; by rewrite Hdays).
  split; [reflexivity |].
  assert (15 ≤ d)%Z as H15 by lia. clear H3 H7 H14. z2q.
  pose proof (linear_piece_anti 3.0 (rnd 0.1) 14 15 (inject_Z d) Hc1 H15) as Hhi.
  assert (linear_piece 3.0 (rnd 0.1) 14 15 <= rnd 2.9) by qeval.
  destruct (py_max_spec 1.0 (linear_piece 3.0 (rnd 0.1) 14 (inject_Z d)))
    as [[Hlt ->]|[Hle ->]]; [lra |].
  assert (1 <= rnd 2.9) by qeval. lra.
Qed.

Lemma urgency_of_days_left_monotone (d1 d2 : Z) :
  (0 ≤ d1)%Z → (d1 < d2)%Z →
  (urgency_of_days_left d2).1 <= (urgency_of_days_left d1).1.
Proof.
  intros H0 H12.
  assert (0 <= rnd 0.3) as Hc3 by (apply rnd_nonneg; lra).
  assert (0 <= rnd 0.1) as Hc1 by (apply rnd_nonneg; lra).
  assert (inject_Z d1 <= inject_Z d2) as Hq by (rewrite <- Zle_Qle; lia).
  assert (1 <= rnd 2.9 <= 3) as Hsep by (split; qeval).
  destruct (urgency_of_days_left_cases d1) as [C1|[C1|[C1|[C1|C1]]]];
    [done | ..];
  destruct (urgency_of_days_left_cases d2) as [C2|[C2|[C2|[C2|C2]]]];
    try lia;
  cbv zeta in C1, C2; destruct_and?; try lia; try lra;
  match goal with
  | E1 : (urgency_of_days_left d1).1 == _,
    E2 : (urgency_of_days_left d2).1 == _ |- _ => rewrite E1, E2
  end;
  try (by apply linear_piece_anti).
  apply py_max_mono. by apply linear_piece_anti.
Qed.

(** C4.  The urgency score does not increase with the days left, from zero
    days on: of two due dates, given as dates or as date strings, that lie
    [d1] and [d2] days after today with [0 <= d1 < d2], the later one does
    not score more; a task due in one day scores strictly more than one due
    in thirty days. *)
Theorem C4_urgency_score_non_increasing
  (date_today : Z) (strptime_ymd : string -> option Z) (today : option Z)
  (due1 due2 : pyval) (d1 d2 : Z) :
  let now := default date_today today in
  due_ordinal strptime_ymd due1 = Some (now + d1)%Z →
  due_ordinal strptime_ymd due2 = Some (now + d2)%Z →
  (0 ≤ d1)%Z → (d1 < d2)%Z →
  ∃ s1 note1 s2 note2,
    calculate_urgency_score date_today strptime_ymd due1 today = Ok (s1, note1) ∧
    calculate_urgency_score date_today strptime_ymd due2 today = Ok (s2, note2) ∧
    s2 <= s1 ∧
    (d1 = 1%Z → d2 = 30%Z → s2 < s1).
Proof.
  intros now Hdue1 Hdue2 H0 H12.
  assert (∀ due d, due_ordinal strptime_ymd due = Some (now + d)%Z →
            calculate_urgency_score date_today strptime_ymd due today
            = Ok (urgency_of_days_left d)) as Hcalc.
  { intros due d Hdue.
    assert (∀ o, o = (now + d)%Z →
              (o - match today with None => date_today | Some t => t end)%Z = d)
      as Hdays by (intros o ->; unfold now; destruct today; simpl; lia).
    unfold calculate_urgency_score.
    destruct due as [| | | |s|o|]; simpl in Hdue; try done.
    - rewrite Hdue. by rewrite Hdays.
    - injection Hdue as ->. by rewrite Hdays. }
  exists (urgency_of_days_left d1).1, (urgency_of_days_left d1).2,
         (urgency_of_days_left d2).1, (urgency_of_days_left d2).2.
  rewrite (Hcalc due1 d1 Hdue1), (Hcalc due2 d2 Hdue2), <- !surjective_pairing.
  split; [done |]. split; [done |].
  split; [by apply urgency_of_days_left_monotone |].
  intros -> ->. qeval.
Qed.

Lemma C4_urgency_score_non_increasing_witness :
  ∃ s1 note1 s2 note2,
    calculate_urgency_score 739586 strptime_padded (PyStr "2025-12-02") None
      = Ok (s1, note1) ∧
    calculate_urgency_score 739586 strptime_padded (PyStr "2025-12-31") None
      = Ok (s2, note2) ∧
    s2 <= s1 ∧
    s2 < s1.
Proof.
  destruct (C4_urgency_score_non_increasing 739586 strptime_padded None
              (PyStr "2025-12-02") (PyStr "2025-12-31") 1 30)
    as (s1 & n1 & s2 & n2 & E1 & E2 & Hle & Hlt);
    [reflexivity | reflexivity | lia | lia |].
  exists s1, n1, s2, n2. split; [exact E1 |]. split; [exact E2 |].
  split; [exact Hle |]. apply Hlt; reflexivity.
Defined.

(** ** C5: the dependency score *)

Lemma dependency_fold (task_id : Z) (all_tasks : list task) (acc : Z * list string) :
  fold_left (dependency_step task_id) all_tasks acc
  = ((acc.1 + Z.of_nat (length (dependents task_id all_tasks)))%Z,
     acc.2 ++ map get_title (dependents task_id all_tasks)).
Proof.
  revert acc. induction all_tasks as [|t all_tasks IH]; intros [n l]; simpl.
  - f_equal; [lia | by rewrite app_nil_r].
  - rewrite IH. unfold dependents. rewrite filter_cons.
    unfold dependency_step.
    case_bool_decide as Hin.
    + rewrite decide_True by done. simpl. f_equal; [lia |].
      by rewrite <- app_assoc.
    + rewrite decide_False by done. done.
Qed.

Lemma blocking_count_score_large (n : nat) :
  (3 ≤ n)%nat →
  blocking_count_score n
  = Qmin 10.0 (8.0 + (inject_Z (Z.of_nat n) - 2) * 0.5).
Proof. intros H. do 3 (destruct n as [|n]; [lia |]). done. Qed.

Lemma dependency_score_dependents (task_id : Z) (all_tasks : list task) :
  ∃ s note,
    calculate_dependency_score task_id all_tasks = Ok (s, note) ∧
    s == blocking_count_score (length (dependents task_id all_tasks)).
Proof.
  unfold calculate_dependency_score. rewrite dependency_fold. simpl.
  destruct (dependents task_id all_tasks) as [|t1 [|t2 [|t3 l]]] eqn:E.
  - eexists _, _. split; [done | reflexivity].
  - eexists _, _. split; [done | reflexivity].
  - eexists _, _. split; [done | reflexivity].
  - set (n := length (t1 :: t2 :: t3 :: l)).
    assert (3 ≤ n)%nat as Hn by (unfold n; simpl; lia).
    rewrite !Z.add_0_l.
    destruct (Z.eqb_spec (Z.of_nat n) 0); [lia |].
    destruct (Z.eqb_spec (Z.of_nat n) 1); [lia |].
    destruct (Z.eqb_spec (Z.of_nat n) 2); [lia |].
    eexists _, _. split; [done |].
    rewrite blocking_count_score_large by done. apply py_min_Qmin.
Qed.

Lemma other_dependents_all (task_id : Z) (all_tasks : list task) :
  (∀ t, t ∈ all_tasks → id t = task_id → task_id ∉ get_dependencies t) →
  other_dependents task_id all_tasks = dependents task_id all_tasks.
Proof.
  intros Hself. unfold other_dependents, dependents.
  induction all_tasks as [|t l IH]; [done |].
  rewrite filter_cons. case_decide as Hin.
  - rewrite filter_cons. rewrite decide_True.
    + f_equal. apply IH. intros t' Ht'. apply Hself. by right.
    + intros Hid. eapply Hself; [by left | done | done].
  - apply IH. intros t' Ht'. apply Hself. by right.
Qed.

(** C5 (as amended).  The dependency score of a task id counts the tasks of
    the batch that list the id among their dependencies, a task that lists
    its own id included, and maps the count: 0 to 3.0, 1 to 6.0, 2 to 8.0,
    more to min(10.0, 8.0 + (count-2)*0.5), so that five give 9.5.  When no
    task with that id lists itself, these are the other tasks that list
    it. *)
Theorem C5_dependency_score (task_id : Z) (all_tasks : list task) :
  (∃ s note,
     calculate_dependency_score task_id all_tasks = Ok (s, note) ∧
     s == blocking_count_score (length (dependents task_id all_tasks))) ∧
  ((∀ t, t ∈ all_tasks → id t = task_id → task_id ∉ get_dependencies t) →
   dependents task_id all_tasks = other_dependents task_id all_tasks) ∧
  blocking_count_score 5 == 9.5.
Proof.
  split; [apply dependency_score_dependents |].
  split; [| reflexivity].
  intros H. symmetry. by apply other_dependents_all.
Qed.

Lemma C5_dependency_score_witness :
  dependents 1 [sample_task 1 []; sample_task 2 [1%Z]; sample_task 3 [1%Z]]
  = other_dependents 1 [sample_task 1 []; sample_task 2 [1%Z]; sample_task 3 [1%Z]].
Proof.
  apply (C5_dependency_score 1
           [sample_task 1 []; sample_task 2 [1%Z]; sample_task 3 [1%Z]]).
  intros t Ht Hid.
  repeat (apply elem_of_cons in Ht as [-> | Ht]); try discriminate Hid.
  - simpl. apply not_elem_of_nil.
  - by apply elem_of_nil in Ht.
Defined.

(** C5 (as stated) fails: a single task that lists its own id is counted,
    and scores 6.0, while no other task lists it, which would give 3.0. *)
Lemma C5_dependency_score_counterexample :
  (∃ note, calculate_dependency_score 1 [sample_task 1 [1%Z]] = Ok (6.0, note)) ∧
  other_dependents 1 [sample_task 1 [1%Z]] = [] ∧
  ¬ (6.0 == blocking_count_score (length (other_dependents 1 [sample_task 1 [1%Z]]))).
Proof.
  split; [eexists; reflexivity |]. split; [reflexivity |].
  intros H. discriminate H.
Qed.

(** ** The final score: C1, C8, C9 *)

Lemma strategy_weights_known :
  STRATEGY_WEIGHTS !! "SMART_BALANCE" = Some SMART_BALANCE.
Proof. reflexivity. Qed.

Lemma strategy_weights_unknown (strategy : string) :
  strategy ∉ ["FASTEST_WINS"; "HIGH_IMPACT"; "DEADLINE_DRIVEN"; "SMART_BALANCE"] →
  STRATEGY_WEIGHTS !! strategy = None.
Proof.
  intros H. unfold STRATEGY_WEIGHTS.
  rewrite !lookup_insert_ne; [apply lookup_empty | ..];
    intros <-; apply H; set_solver.
Qed.

Section FinalScore.

Variable date_today : Z.
Variable strptime_ymd : string -> option Z.

Local Abbreviation urgency_score := (calculate_urgency_score date_today strptime_ymd).
Local Abbreviation final_score_of := (calculate_final_score date_today strptime_ymd).

(** What [calculate_final_score] returns, from what the factor functions
    return. *)
Lemma calculate_final_score_Ok (t : task) (all_tasks : list task)
  (strategy : string) (r : score_data) :
  final_score_of t all_tasks strategy = Ok r →
  ∃ u un i inn e en d dn,
    urgency_score (due_date t) None = Ok (u, un) ∧
    calculate_importance_score (importance t) = Ok (i, inn) ∧
    calculate_effort_score (estimated_hours t) = Ok (e, en) ∧
    calculate_dependency_score (id t) all_tasks = Ok (d, dn) ∧
    let w := default SMART_BALANCE (STRATEGY_WEIGHTS !! strategy) in
    breakdown r = {| b_urgency := u; b_importance := i;
                     b_effort := e; b_dependency := d |} ∧
    weights r = w ∧
    final_score r = py_round (float_weighted_sum w (breakdown r)) 2.
Proof.
  unfold calculate_final_score.
  destruct (urgency_score _ _) as [[u un]|]; [| done].
  destruct (calculate_importance_score _) as [[i inn]|]; [| done].
  destruct (calculate_effort_score _) as [[e en]|]; [| done].
  destruct (calculate_dependency_score _ _) as [[d dn]|]; [| done].
  intros [= <-]. exists u, un, i, inn, e, en, d, dn. done.
Qed.

Lemma urgency_score_typed (v : pyval) :
  match v with PyStr _ | PyDate _ => true | _ => false end = true →
  ∃ u un, urgency_score v None = Ok (u, un) ∧
    (∀ s, v = PyStr s → strptime_ymd s = None → u = 5.0).
Proof.
  destruct v as [| | | |s|d|]; try done; intros _; simpl.
  - destruct (strptime_ymd s) as [due|] eqn:E.
    + eexists _, _. split; [apply f_equal, surjective_pairing |].
      intros ? [= <-]. congruence.
    + eexists _, _. split; [done |]. done.
  - eexists _, _. split; [apply f_equal, surjective_pairing |]. done.
Qed.





(** With a name that is not a preset, the score is the one of SMART_BALANCE
    with the name as given in the header of the explanation. *)
Lemma calculate_final_score_fallback (t : task) (all_tasks : list task)
  (strategy : string) :
  strategy ∉ ["FASTEST_WINS"; "HIGH_IMPACT"; "DEADLINE_DRIVEN"; "SMART_BALANCE"] →
  final_score_of t all_tasks strategy
  = map_result (with_strategy_name strategy)
      (final_score_of t all_tasks "SMART_BALANCE").
Proof.
  intros Hs. pose proof (strategy_weights_unknown strategy Hs) as Hw.
  unfold calculate_final_score. rewrite Hw, strategy_weights_known.
  destruct (urgency_score _ _) as [[u un]|]; [| done].
  destruct (calculate_importance_score _) as [[i inn]|]; [| done].
  destruct (calculate_effort_score _) as [[e en]|]; [| done].
  destruct (calculate_dependency_score _ _) as [[d dn]|]; [| done].
  done.
Qed.

(** C9 (as amended).  With a strategy name that is not one of the four
    presets the score is computed with the SMART_BALANCE weights: an
    exception is raised exactly when SMART_BALANCE raises it, and a result
    has the final score, the breakdown and the weights of the SMART_BALANCE
    result, its explanation differing only in the strategy name its header
    repeats. *)
Theorem C9_unknown_strategy (t : task) (all_tasks : list task)
  (strategy : string) :
  strategy ∉ ["FASTEST_WINS"; "HIGH_IMPACT"; "DEADLINE_DRIVEN"; "SMART_BALANCE"] →
  final_score_of t all_tasks strategy
  = map_result (with_strategy_name strategy)
      (final_score_of t all_tasks "SMART_BALANCE") ∧
  (∀ e, final_score_of t all_tasks strategy = Raise e
        ↔ final_score_of t all_tasks "SMART_BALANCE" = Raise e) ∧
  (∀ r, final_score_of t all_tasks strategy = Ok r →
     weights r = SMART_BALANCE ∧
     ∃ r', final_score_of t all_tasks "SMART_BALANCE" = Ok r' ∧
           final_score r = final_score r' ∧
           breakdown r = breakdown r' ∧
           weights r = weights r').
Proof.
  intros Hs. pose proof (calculate_final_score_fallback t all_tasks strategy Hs)
    as Hfall.
  split; [done |]. rewrite Hfall.
  destruct (final_score_of t all_tasks "SMART_BALANCE") as [r'|e'] eqn:Hsmart;
    simpl.
  - split; [done |]. intros r [= <-]. simpl.
    apply calculate_final_score_Ok in Hsmart
      as (u & un & i & inn & e & en & d & dn & _ & _ & _ & _ & _ & Hwr & _).
    rewrite strategy_weights_known in Hwr.
    split; [done |]. by exists r'.
  - split; [done |]. done.
Qed.

End FinalScore.


Lemma C9_unknown_strategy_witness :
  calculate_final_score 739586 strptime_padded (sample_task 1 [])
    [sample_task 1 []; sample_task 2 [1%Z]] "FOO"
  = map_result (with_strategy_name "FOO")
      (calculate_final_score 739586 strptime_padded (sample_task 1 [])
         [sample_task 1 []; sample_task 2 [1%Z]] "SMART_BALANCE").
Proof.
  apply (C9_unknown_strategy 739586 strptime_padded (sample_task 1 [])
           [sample_task 1 []; sample_task 2 [1%Z]] "FOO").
  intros H. by repeat (apply elem_of_cons in H as [H|H]; [discriminate H |]);
    apply elem_of_nil in H.
Defined.

(** C9 (as stated) fails twice.  With the unknown name "FOO" the result is
    not the one of SMART_BALANCE, since the explanation names the strategy
    as given; and the call does fail, with TypeError, on a task whose
    importance is text, as it does with SMART_BALANCE. *)
Lemma C9_unknown_strategy_counterexample :
  (∃ r r',
     calculate_final_score 739586 strptime_padded (sample_task 1 [])
       [sample_task 1 []; sample_task 2 [1%Z]] "FOO" = Ok r ∧
     calculate_final_score 739586 strptime_padded (sample_task 1 [])
       [sample_task 1 []; sample_task 2 [1%Z]] "SMART_BALANCE" = Ok r' ∧
     x_strategy (explanation r) = "FOO" ∧
     x_strategy (explanation r') = "SMART_BALANCE" ∧
     r ≠ r') ∧
  calculate_final_score 739586 strptime_padded text_importance_task
    [text_importance_task] "FOO" = Raise TypeError.
Proof.
  split; [| vm_compute; reflexivity].
  eexists _, _. split; [vm_compute; reflexivity |].
  split; [vm_compute; reflexivity |].
  split; [reflexivity |]. split; [reflexivity |].
  intros H. apply (f_equal (fun r => x_strategy (explanation r))) in H.
  discriminate H.
Qed.

(** ** C7: ranking *)

Section SortReverse.

Context {A : Type} (key : A -> Q).

Lemma insert_reverse_perm (x : A) (l : list A) :
  insert_reverse key x l ≡ₚ x :: l.
Proof.
  induction l as [|y l IH]; simpl; [done |].
  destruct (Qlt_b (key x) (key y)); [| done].
  rewrite IH. apply perm_swap.
Qed.

Lemma sort_reverse_perm (l : list A) : sort_reverse key l ≡ₚ l.
Proof.
  induction l as [|x l IH]; simpl; [done |].
  by rewrite insert_reverse_perm, IH.
Qed.

Lemma insert_reverse_sorted (x : A) (l : list A) :
  sorted_descending key l → sorted_descending key (insert_reverse key x l).
Proof.
  unfold sorted_descending.
  induction l as [|y l IH]; intros Hl; simpl.
  - by repeat constructor.
  - apply StronglySorted_inv in Hl as [Hl Hy].
    destruct (Qlt_b (key x) (key y)) eqn:E.
    + apply Qlt_b_true in E. constructor; [by apply IH |].
      rewrite insert_reverse_perm. constructor; [lra | done].
    + apply Qlt_b_false in E. constructor; [by constructor |].
      constructor; [done |].
      eapply Forall_impl; [exact Hy |]. simpl. intros z Hz. lra.
Qed.

Lemma sort_reverse_sorted (l : list A) : sorted_descending key (sort_reverse key l).
Proof.
  induction l as [|x l IH]; simpl; [constructor |].
  by apply insert_reverse_sorted.
Qed.



End SortReverse.

Section Rank.

Variable date_today : Z.
Variable strptime_ymd : string -> option Z.



End Rank.



(** ** Cycle detection: C6, C10 *)

Section PyDictFacts.

Context {V : Type}.
Implicit Types (d : list (Z * V)) (k : Z) (v : V).

Lemma dict_get_set d k v k' :
  dict_get (dict_set d k v) k'
  = if (k' =? k)%Z then Some v else dict_get d k'.
Proof.
  induction d as [|[k0 v0] d IH]; simpl.
  - done.
  - destruct (Z.eqb_spec k k0) as [->|Hne]; simpl.
    + by destruct (Z.eqb_spec k' k0).
    + destruct (Z.eqb_spec k' k0) as [->|Hne'].
      * by destruct (Z.eqb_spec k0 k) as [->|].
      * done.
Qed.

Lemma dict_get_elem_of d k v : dict_get d k = Some v → (k, v) ∈ d.
Proof.
  induction d as [|[k0 v0] d IH]; simpl; [done |].
  destruct (Z.eqb_spec k k0) as [->|Hne].
  - intros [= ->]. by left.
  - intros H. right. by apply IH.
Qed.

Lemma dict_keys_set d k v :
  ∀ k', k' ∈ dict_keys (dict_set d k v) ↔ k' = k ∨ k' ∈ dict_keys d.
Proof.
  unfold dict_keys. induction d as [|[k0 v0] d IH]; intros k'; simpl.
  - set_solver.
  - destruct (Z.eqb_spec k k0) as [->|Hne]; simpl.
    + set_solver.
    + rewrite !elem_of_cons, IH. tauto.
Qed.

End PyDictFacts.

Lemma list_index_is_Some (x : Z) (l : list Z) : x ∈ l → is_Some (list_index x l).
Proof.
  induction l as [|y l IH]; [by intros ?%elem_of_nil |].
  intros Hx. simpl. destruct (Z.eqb_spec x y) as [->|Hne]; [by eexists |].
  apply elem_of_cons in Hx as [->|Hx]; [done |].
  destruct (IH Hx) as [i ->]. by eexists.
Qed.

Section Traversal.

Variable graph : list (Z * list Z).

Lemma edge_graph_ids (a b : Z) : edge graph a b → b ∈ graph_ids graph.
Proof.
  unfold edge, graph_ids. destruct (dict_get graph a) as [l|] eqn:E; simpl.
  - intros Hb. apply elem_of_app. right.
    apply dict_get_elem_of in E.
    apply list_elem_of_In, in_concat. exists l. split.
    + apply in_map_iff. exists (a, l). split; [done |]. by apply list_elem_of_In.
    + by apply list_elem_of_In.
  - by intros ?%elem_of_nil.
Qed.

Lemma unvisited_mono (ext visited : list Z) :
  (unvisited graph (ext ++ visited) ≤ unvisited graph visited)%nat.
Proof.
  unfold unvisited. apply subseteq_size. rewrite list_to_set_app_L. set_solver.
Qed.

Lemma unvisited_new (node : Z) (visited : list Z) :
  node ∈ graph_ids graph → node ∉ visited →
  (S (unvisited graph (node :: visited)) ≤ unvisited graph visited)%nat.
Proof.
  intros HU HV. unfold unvisited. apply subset_size.
  rewrite list_to_set_cons. apply strict_spec_alt. split.
  - set_solver.
  - intros Heq.
    assert (node ∈ (list_to_set (graph_ids graph) : gset Z) ∖ list_to_set visited)
      as Hin by set_solver.
    rewrite <- Heq in Hin. set_solver.
Qed.

End Traversal.

Section TraversalSpec.

Variable graph : list (Z * list Z).

(** The loop over the neighbours of [node], entered with the state
    [(node :: V0, {node} ∪ R0)] and running on whatever the recursive calls
    leave. *)
Lemma visit_neighbors_spec (fuel : nat) (recurse : Z -> dfs_state -> dfs_result)
  (node : Z) (path : list Z) (V0 : list Z) (R0 : gset Z) :
  (∀ n st, dfs_pre graph fuel n st path → dfs_post graph n st (recurse n st)) →
  node ∉ R0 →
  (∀ x, x ∈ path ↔ x ∈ ({[node]} ∪ R0 : gset Z)) →
  (∀ x, x ∈ R0 → x ∈ V0) →
  ∀ (neighbors : list Z) (st1 : dfs_state),
    (∀ n, n ∈ neighbors → edge graph node n) →
    st_rec_stack st1 = {[node]} ∪ R0 →
    (∃ ext, st_visited st1 = ext ++ node :: V0) →
    NoDup (st_visited st1) →
    (∀ x, x ∈ st_visited st1 → x ∈ graph_ids graph) →
    (unvisited graph (st_visited st1) ≤ fuel)%nat →
    ∃ r st',
      visit_neighbors recurse node path neighbors st1 = Some (Ok (r, st')) ∧
      (∃ ext, st_visited st' = ext ++ node :: V0) ∧
      NoDup (st_visited st') ∧
      (∀ x, x ∈ st_visited st' → x ∈ graph_ids graph) ∧
      (r = None → st_rec_stack st' = R0) ∧
      r ≠ Some [] ∧
      ((∀ x, x ∈ R0 → rtc (edge graph) x node) →
       (∀ a, ¬ tc (edge graph) a a) → r = None).
Proof.
  intros Hrec HnodeR Hpath HRV.
  induction neighbors as [|n rest IH];
    intros st1 Hedges Hstack [ext Hext] Hnodup HU Hfuel; simpl.
  - rewrite decide_True by (rewrite Hstack; set_solver).
    eexists _, _. split; [done |]. simpl.
    split; [by exists ext |]. split; [done |]. split; [done |].
    split; [intros _; rewrite Hstack; set_solver |].
    split; done.
  - assert (edge graph node n) as Hedge by (apply Hedges; by left).
    assert (∀ n', n' ∈ rest → edge graph node n') as Hedges'
      by (intros n' Hn'; apply Hedges; by right).
    destruct (decide (n ∉ st_visited st1)) as [Hnew|Hseen].
    + destruct (Hrec n st1) as (r & st2 & -> & [ext2 [Hext2 _]] & Hnodup2
                                  & HU2 & Hstack2 & Hnonempty & Hacyclic).
      { split; [done |]. split; [by eapply edge_graph_ids |].
        split; [intros x Hx; rewrite Hstack in Hx; rewrite Hext;
                set_solver |].
        split; [intros x; by rewrite Hstack |]. done. }
      destruct r as [[|c cycle]|]; [done | |].
      * eexists _, _. split; [done |].
        split; [exists (ext2 ++ ext); by rewrite Hext2, Hext, app_assoc |].
        split; [done |]. split; [done |]. split; [done |]. split; [done |].
        intros Hreach Hno. apply Hacyclic; [| done].
        intros x Hx. rewrite Hstack in Hx.
        apply elem_of_union in Hx as [->%elem_of_singleton|Hx].
        -- by apply rtc_once.
        -- eapply rtc_r; [by apply Hreach | done].
      * apply IH; try done.
        -- by rewrite Hstack2.
        -- exists (ext2 ++ ext). by rewrite Hext2, Hext, app_assoc.
        -- rewrite Hext2. etrans; [apply unvisited_mono | done].
    + destruct (decide (n ∈ st_rec_stack st1)) as [Hstacked|Hdone].
      * destruct (list_index_is_Some n path) as [i ->].
        { apply Hpath. by rewrite <- Hstack. }
        eexists _, _. split; [done |].
        split; [by exists ext |]. split; [done |]. split; [done |].
        split; [done |].
        split; [intros [= H]; by apply app_nil in H as [_ ?] |].
        intros Hreach Hno. exfalso. apply (Hno n).
        rewrite Hstack in Hstacked.
        apply elem_of_union in Hstacked as [->%elem_of_singleton|Hx].
        -- by apply tc_once.
        -- eapply tc_rtc_l; [by apply Hreach | by apply tc_once].
      * apply IH; try done. by exists ext.
Qed.

Lemma has_cycle_util_spec (fuel : nat) :
  ∀ (node : Z) (st : dfs_state) (path : list Z),
    dfs_pre graph fuel node st path →
    dfs_post graph node st (has_cycle_util fuel graph node st path).
Proof.
  induction fuel as [|fuel IH];
    intros node st path (Hnew & HnodeU & HRV & Hpath & Hnodup & HU & Hfuel).
  - pose proof (unvisited_new graph node (st_visited st) HnodeU Hnew). lia.
  - simpl.
    destruct (visit_neighbors_spec fuel
                (fun neighbor st' =>
                   has_cycle_util fuel graph neighbor st' (path ++ [node]))
                node (path ++ [node]) (st_visited st) (st_rec_stack st))
      with (neighbors := default [] (dict_get graph node))
           (st1 := {| st_visited := node :: st_visited st;
                      st_rec_stack := {[node]} ∪ st_rec_stack st |})
      as (r & st' & Hres & [ext Hext] & Hnodup' & HU' & Hstack' & Hnonempty
            & Hacyclic); simpl.
    + intros n st1 Hpre. by apply IH.
    + intros Hin. by apply Hnew, HRV.
    + intros x. rewrite elem_of_app, list_elem_of_singleton, Hpath. set_solver.
    + done.
    + done.
    + done.
    + by exists [].
    + by constructor.
    + intros x [->|Hx]%elem_of_cons; [done | by apply HU].
    + pose proof (unvisited_new graph node (st_visited st) HnodeU Hnew). lia.
    + exists r, st'. split; [done |].
      split.
      { exists (ext ++ [node]). rewrite Hext, <- app_assoc. split; [done |].
        apply elem_of_app. right. by left. }
      done.
Qed.

End TraversalSpec.

Lemma size_list_to_set_le (l : list Z) :
  (size (list_to_set l : gset Z) ≤ length l)%nat.
Proof.
  induction l as [|x l IH].
  - rewrite list_to_set_nil, size_empty. done.
  - rewrite list_to_set_cons, size_union_alt, size_singleton. simpl.
    assert ((list_to_set l : gset Z) ∖ {[x]} ⊆ list_to_set l) as Hsub
      by set_solver.
    apply subseteq_size in Hsub. lia.
Qed.

Lemma unvisited_bound (graph : list (Z * list Z)) (visited : list Z) :
  (unvisited graph visited ≤ length (graph_ids graph))%nat.
Proof.
  unfold unvisited. etrans; [| apply size_list_to_set_le].
  apply subseteq_size. set_solver.
Qed.

Section DetectLoop.

Variable graph : list (Z * list Z).
Variable task_map : list (Z * string).

Lemma detect_loop_spec (fuel : nat) (keys : list Z) :
  ∀ (visited : list Z) (cycles : list string),
    (∀ k, k ∈ keys → k ∈ graph_ids graph) →
    NoDup visited →
    (∀ x, x ∈ visited → x ∈ graph_ids graph) →
    (unvisited graph visited ≤ fuel)%nat →
    ∃ visited' cycles',
      detect_loop fuel graph task_map keys visited cycles
        = Some (Ok (visited', cycles')) ∧
      NoDup visited' ∧
      (∀ x, x ∈ visited' → x ∈ graph_ids graph) ∧
      ((∀ a, ¬ tc (edge graph) a a) → cycles' = cycles).
Proof.
  induction keys as [|k keys IH]; intros visited cycles Hkeys Hnodup HU Hfuel;
    simpl.
  - by eexists _, _.
  - assert (∀ k', k' ∈ keys → k' ∈ graph_ids graph) as Hkeys'
      by (intros k' Hk'; apply Hkeys; by right).
    destruct (decide (k ∉ visited)) as [Hnew|Hseen]; [| by apply IH].
    destruct (has_cycle_util_spec graph fuel k
                {| st_visited := visited; st_rec_stack := ∅ |} [])
      as (r & st' & -> & [ext [Hext _]] & Hnodup' & HU' & _ & Hnonempty
            & Hacyclic).
    { split; [done |]. split; [apply Hkeys; by left |].
      split; [set_solver |]. split; [set_solver |]. done. }
    simpl in Hext.
    assert (unvisited graph (st_visited st') ≤ fuel)%nat as Hfuel'
      by (rewrite Hext; etrans; [apply unvisited_mono | done]).
    destruct r as [[|c cycle]|]; [done | |].
    + destruct (IH (st_visited st')
                  (cycles ++ [cycle_description task_map (c :: cycle)]))
        as (visited' & cycles' & -> & ? & ? & Hcycles); try done.
      eexists _, _. split; [done |]. split; [done |]. split; [done |].
      intros Hno. discriminate Hacyclic; [set_solver | done].
    + by apply IH.
Qed.

End DetectLoop.

(** More fuel does not change a result. *)
Lemma visit_neighbors_mono (recurse recurse' : Z -> dfs_state -> dfs_result)
  (node : Z) (path : list Z) :
  (∀ n st res, recurse n st = Some res → recurse' n st = Some res) →
  ∀ (neighbors : list Z) (st : dfs_state) (res : pyres (option (list Z) * dfs_state)),
    visit_neighbors recurse node path neighbors st = Some res →
    visit_neighbors recurse' node path neighbors st = Some res.
Proof.
  intros Hsub. induction neighbors as [|n rest IH]; intros st res; simpl.
  - done.
  - destruct (decide (n ∉ st_visited st)).
    + destruct (recurse n st) as [r|] eqn:E; [| done].
      rewrite (Hsub _ _ _ E).
      destruct r as [[[[|c cycle]|] st']|e]; try done; apply IH.
    + destruct (decide (n ∈ st_rec_stack st)); [done | apply IH].
Qed.

Lemma has_cycle_util_mono (graph : list (Z * list Z)) (fuel fuel' : nat) :
  (fuel ≤ fuel')%nat →
  ∀ node st path res,
    has_cycle_util fuel graph node st path = Some res →
    has_cycle_util fuel' graph node st path = Some res.
Proof.
  revert fuel'. induction fuel as [|fuel IH]; intros fuel' Hle node st path res;
    [done |].
  destruct fuel' as [|fuel']; [lia |]. simpl.
  apply visit_neighbors_mono. intros n st1 res1. apply IH. lia.
Qed.

Lemma detect_loop_mono (graph : list (Z * list Z)) (task_map : list (Z * string))
  (fuel fuel' : nat) :
  (fuel ≤ fuel')%nat →
  ∀ keys visited cycles res,
    detect_loop fuel graph task_map keys visited cycles = Some res →
    detect_loop fuel' graph task_map keys visited cycles = Some res.
Proof.
  intros Hle. induction keys as [|k keys IH]; intros visited cycles res; simpl.
  - done.
  - destruct (decide (k ∉ visited)); [| apply IH].
    destruct (has_cycle_util fuel graph k _ _) as [r|] eqn:E; [| done].
    rewrite (has_cycle_util_mono graph fuel fuel' Hle _ _ _ _ E).
    destruct r as [[[[|c cycle]|] st']|e]; try done; apply IH.
Qed.

(** The graph the detector builds has the dependencies of the batch as its
    edges. *)
Lemma build_graph_get (tasks : list task) (a : Z) (deps : list Z) :
  dict_get (build_graph tasks) a = Some deps →
  ∃ t, t ∈ tasks ∧ id t = a ∧ get_dependencies t = deps.
Proof.
  unfold build_graph.
  assert (∀ graph,
    dict_get (fold_left (fun graph t => dict_set graph (id t) (get_dependencies t))
                tasks graph) a = Some deps →
    dict_get graph a = Some deps ∨
    ∃ t, t ∈ tasks ∧ id t = a ∧ get_dependencies t = deps) as Hgen.
  { induction tasks as [|t tasks IH]; intros graph; simpl; [by left |].
    intros [Hget|(t' & Ht' & Hid & Hdeps)]%IH.
    - rewrite dict_get_set in Hget.
      destruct (Z.eqb_spec a (id t)) as [->|Hne]; [| by left].
      injection Hget as <-. right. exists t. split; [by left | done].
    - right. exists t'. split; [by right | done]. }
  intros [Hget|Ht]%Hgen; [done | done].
Qed.

Lemma edge_depends_on (tasks : list task) (a b : Z) :
  edge (build_graph tasks) a b → depends_on tasks a b.
Proof.
  unfold edge. destruct (dict_get (build_graph tasks) a) as [deps|] eqn:E; simpl.
  - intros Hb. apply build_graph_get in E as (t & Ht & Hid & <-).
    by exists t.
  - by intros ?%elem_of_nil.
Qed.

Lemma acyclic_graph (tasks : list task) :
  acyclic tasks → ∀ a, ¬ tc (edge (build_graph tasks)) a a.
Proof.
  intros Hacyclic a Hcycle. apply (Hacyclic a).
  apply (tc_congruence (R := edge (build_graph tasks)) (fun x => x)
           (depends_on tasks) a a); [| done].
  intros x y. apply edge_depends_on.
Qed.


(** With the fuel [detect_fuel] supplies, or more, the detector returns; it
    reports no cycle on an acyclic batch. *)
Lemma detect_with_fuel_enough (tasks : list task) :
  ∃ visited cycles,
    NoDup visited ∧
    (acyclic tasks → cycles = []) ∧
    ∀ fuel, (detect_fuel tasks ≤ fuel)%nat →
      detect_with_fuel fuel tasks = Some (Ok (visited, cycles)).
Proof.
  destruct (detect_loop_spec (build_graph tasks) (build_task_map tasks)
              (detect_fuel tasks) (dict_keys (build_graph tasks)) [] [])
    as (visited & cycles & Hres & Hnodup & _ & Hacyclic).
  - intros k Hk. unfold graph_ids. apply elem_of_app. by left.
  - constructor.
  - by intros x ?%elem_of_nil.
  - unfold detect_fuel. pose proof (unvisited_bound (build_graph tasks) []). lia.
  - exists visited, cycles. split; [done |].
    split; [intros H; by apply Hacyclic, acyclic_graph |].
    intros fuel Hfuel. unfold detect_with_fuel.
    by apply (detect_loop_mono _ _ (detect_fuel tasks)).
Qed.

Lemma detect_circular_dependencies_total (tasks : list task) :
  ∃ cycles,
    detect_circular_dependencies tasks
    = Some (Ok (bool_decide (0 < length cycles)%nat, cycles)) ∧
    (acyclic tasks → cycles = []).
Proof.
  destruct (detect_with_fuel_enough tasks) as (visited & cycles & _ & Hacyclic & Hres).
  exists cycles. split; [| done].
  unfold detect_circular_dependencies. by rewrite (Hres _ (Nat.le_refl _)).
Qed.








(** C10.  The cycle detector terminates on every batch, also when
    dependency lists name ids that no task of the batch has: with the fuel
    supplied, or any larger amount, it returns, and always the same result.
    An id that is not a key of the graph is entered and left at once, with
    no neighbour to follow.  No id is added to [visited] twice, that is, no
    node is entered more than once. *)
Theorem C10_detect_terminates :
  (∀ tasks, ∃ visited cycles,
     NoDup visited ∧
     ∀ fuel, (detect_fuel tasks ≤ fuel)%nat →
       detect_with_fuel fuel tasks = Some (Ok (visited, cycles))) ∧
  (∀ graph fuel node st path,
     dict_get graph node = None →
     has_cycle_util (S fuel) graph node st path
     = Some (Ok (None,
                 {| st_visited := node :: st_visited st;
                    st_rec_stack := ({[node]} ∪ st_rec_stack st) ∖ {[node]} |}))) ∧
  detect_with_fuel (detect_fuel [sample_task 1 [99%Z]]) [sample_task 1 [99%Z]]
    = Some (Ok ([99; 1]%Z, [])).
Proof.
  split.
  { intros tasks.
    destruct (detect_with_fuel_enough tasks) as (visited & cycles & Hnodup & _ & H).
    by exists visited, cycles. }
  split; [| vm_compute; reflexivity].
  intros graph fuel node st path Hnone. simpl. rewrite Hnone. simpl.
  rewrite decide_True by set_solver. done.
Qed.

Lemma C10_detect_terminates_witness :
  ∃ visited cycles,
    NoDup visited ∧
    detect_with_fuel 10 [sample_task 1 [99%Z]; sample_task 2 [1%Z; 98%Z]]
    = Some (Ok (visited, cycles)).
Proof.
  destruct (proj1 C10_detect_terminates
              [sample_task 1 [99%Z]; sample_task 2 [1%Z; 98%Z]])
    as (visited & cycles & Hnodup & Hfuel).
  exists visited, cycles. split; [exact Hnodup |].
  apply Hfuel. vm_compute. lia.
Defined.

(** * Further properties of the scoring functions *)

(** ** Rounding *)

(** ** The range of the factor scores *)

Lemma urgency_of_days_left_range (d : Z) :
  1 <= (urgency_of_days_left d).1 <= 10 ∧
  (10 <= (urgency_of_days_left d).1 ↔ (d < 0)%Z).
Proof.
  destruct (Z.lt_ge_cases d 0) as [Hneg|Hpos].
  - unfold urgency_of_days_left.
    destruct (Z.ltb_spec d 0); [| lia]. simpl. split; [lra | done].
  - assert (¬ (d < 0)%Z) as Hnn by lia.
    assert (1 <= rnd 2.9 <= 3) as Hsep by (split; qeval).
    destruct (urgency_of_days_left_cases d Hpos) as [C|[C|[C|[C|C]]]];
      cbv zeta in C; destruct_and?;
      (split; [lra |]); (split; [intros ?; exfalso; lra | done]).
Qed.

Lemma urgency_score_range
  (date_today : Z) (strptime_ymd : string -> option Z)
  (due : pyval) (today : option Z) (s : Q) (note : urgency_note) :
  calculate_urgency_score date_today strptime_ymd due today = Ok (s, note) →
  1 <= s <= 10 ∧
  (10 <= s ↔ ∃ o, due_ordinal strptime_ymd due = Some o
                  ∧ (o < default date_today today)%Z).
Proof.
  unfold calculate_urgency_score.
  assert (match today with None => date_today | Some d => d end
          = default date_today today) as -> by (by destruct today).
  set (now := default date_today today).
  assert (∀ o, Ok (urgency_of_days_left (o - now)) = Ok (s, note) →
            1 <= s <= 10 ∧ (10 <= s ↔ (o < now)%Z)) as Hord.
  { intros o [= H].
    destruct (urgency_of_days_left_range (o - now)) as [Hr Hiff].
    rewrite H in Hr, Hiff. simpl in Hr, Hiff. split; [done |].
    rewrite Hiff. lia. }
  destruct due as [| | | |str|o|]; try done; simpl.
  - destruct (strptime_ymd str) as [o|] eqn:E.
    + intros [Hr Hiff]%Hord. split; [done |]. rewrite Hiff.
      split; [intros ?; by exists o | intros (o' & [= <-] & ?); done].
    + intros [= <- <-]. split; [lra |].
      split; [intros ?; exfalso; lra | intros (o & ? & _); done].
  - intros [Hr Hiff]%Hord. split; [done |]. rewrite Hiff.
    split; [intros ?; by exists o | intros (o' & [= <-] & ?); done].
Qed.

(** X1.  Whatever the due date and the day, an urgency score that is
    returned lies between 1 and 10, and it is 10 exactly when the due date
    is a date before today. *)
Theorem X1_urgency_score_range
  (date_today : Z) (strptime_ymd : string -> option Z)
  (due : pyval) (today : option Z) (s : Q) (note : urgency_note) :
  calculate_urgency_score date_today strptime_ymd due today = Ok (s, note) →
  1 <= s <= 10 ∧
  (10 <= s ↔ ∃ o, due_ordinal strptime_ymd due = Some o
                  ∧ (o < default date_today today)%Z).
Proof. apply urgency_score_range. Qed.

Lemma X1_urgency_score_range_witness :
  ∃ s note,
    calculate_urgency_score 739586 strptime_padded (PyStr "2025-11-20") None
      = Ok (s, note) ∧
    1 <= s <= 10 ∧ 10 <= s.
Proof.
  eexists _, _. split; [vm_compute; reflexivity |].
  destruct (X1_urgency_score_range 739586 strptime_padded (PyStr "2025-11-20")
              None _ _ eq_refl) as [Hrange Hten].
  split; [exact Hrange |].
  apply Hten. exists 739575%Z. split; [reflexivity | simpl; lia].
Defined.

Lemma effort_score_range (v : pyval) (h s : Q) (note : effort_note) :
  py_number v = Ok h →
  calculate_effort_score v = Ok (s, note) →
  1 <= s <= 10 ∧ (10 <= s ↔ 0 < h ∧ h < 1).
Proof.
  intros Hv Hs.
  destruct (Qlt_le_dec h 1) as [Hlt|Hge].
  - revert Hs. unfold calculate_effort_score. rewrite Hv. simpl.
    destruct (Qle_b h 0) eqn:E0.
    + apply Qle_b_true in E0. intros [= <- <-]. split; [lra |].
      split; [intros ?; exfalso; lra | intros [? ?]; exfalso; lra].
    + apply Qle_b_false in E0.
      destruct (Qlt_b h 1) eqn:E1; [| apply Qlt_b_false in E1; lra].
      intros [= <- <-]. split; [lra |]. split; [done | intros _; lra].
  - destruct (hours_in_float_range v) eqn:Hfit;
      [| by rewrite effort_score_overflow in Hs].
    destruct (effort_score_hours v h Hv Hge Hfit) as (s' & n' & E & V).
    rewrite Hs in E. injection E as <- <-.
    destruct (effort_value_pieces h Hge) as [C|[C|[C|C]]]; destruct_and?;
      (split; [lra |]);
      (split; [intros ?; exfalso; lra | intros [? ?]; exfalso; lra]).
Qed.

(** Hours that are a number are scored unless they are an integer too large
    for a float. *)
Lemma effort_score_defined (v : pyval) (h : Q) :
  py_number v = Ok h → hours_in_float_range v = true →
  ∃ s note, calculate_effort_score v = Ok (s, note).
Proof.
  intros Hv Hfit.
  destruct (Qlt_le_dec h 1) as [Hlt|Hge].
  - unfold calculate_effort_score. rewrite Hv. simpl.
    destruct (Qle_b h 0) eqn:E0; [eexists _, _; done |].
    apply Qle_b_false in E0.
    destruct (Qlt_b h 1) eqn:E1; [| apply Qlt_b_false in E1; lra].
    eexists _, _. done.
  - destruct (effort_score_hours v h Hv Hge Hfit) as (s & note & E & _).
    by exists s, note.
Qed.

(** X2.  For hours given as a number, an integer among them being one that
    can be converted to a float, the effort score lies between 1 and 10 and
    is 10 exactly for a positive duration below one hour; over all positive
    durations, not only from one hour on, more hours never give a higher
    score. *)
Theorem X2_effort_score_range (v1 v2 : pyval) (h1 h2 : Q) :
  py_number v1 = Ok h1 → py_number v2 = Ok h2 →
  hours_in_float_range v1 = true → hours_in_float_range v2 = true →
  ∃ s1 note1 s2 note2,
    calculate_effort_score v1 = Ok (s1, note1) ∧
    calculate_effort_score v2 = Ok (s2, note2) ∧
    1 <= s1 <= 10 ∧
    (10 <= s1 ↔ 0 < h1 ∧ h1 < 1) ∧
    (0 < h1 → h1 <= h2 → s2 <= s1).
Proof.
  intros Hv1 Hv2 Hf1 Hf2.
  destruct (effort_score_defined v1 h1 Hv1 Hf1) as (s1 & n1 & E1).
  destruct (effort_score_defined v2 h2 Hv2 Hf2) as (s2 & n2 & E2).
  exists s1, n1, s2, n2. split; [done |]. split; [done |].
  destruct (effort_score_range v1 h1 s1 n1 Hv1 E1) as [Hr1 Hten1].
  split; [done |]. split; [done |].
  intros Hpos Hle.
  destruct (effort_score_range v2 h2 s2 n2 Hv2 E2) as [Hr2 _].
  destruct (Qlt_le_dec h1 1) as [Hlt|Hge].
  { assert (10 <= s1) by (apply Hten1; split; lra). lra. }
  destruct (effort_score_hours v1 h1 Hv1 Hge Hf1) as (s1' & n1' & E1' & V1).
  destruct (effort_score_hours v2 h2 Hv2 ltac:(lra) Hf2) as (s2' & n2' & E2' & V2).
  rewrite E1 in E1'. rewrite E2 in E2'.
  injection E1' as <- <-. injection E2' as <- <-.
  rewrite V1, V2. by apply effort_value_anti.
Qed.

Lemma X2_effort_score_range_witness :
  ∃ s1 note1 s2 note2,
    calculate_effort_score (PyFloat 0.5) = Ok (s1, note1) ∧
    calculate_effort_score (PyInt 1) = Ok (s2, note2) ∧
    1 <= s1 <= 10 ∧
    (10 <= s1 ↔ 0 < 0.5 ∧ 0.5 < 1) ∧
    (0 < 0.5 → 0.5 <= inject_Z 1 → s2 <= s1).
Proof.
  apply (X2_effort_score_range (PyFloat 0.5) (PyInt 1) 0.5 (inject_Z 1));
    reflexivity.
Defined.

Lemma importance_score_range (v : pyval) (s : Q) (note : importance_note) :
  calculate_importance_score v = Ok (s, note) → 1 <= s <= 10.
Proof.
  unfold calculate_importance_score.
  destruct (py_number v) as [x|]; [| done]. simpl.
  qcases; simpl; intros [= <- <-]; lra.
Qed.

Lemma blocking_count_score_range (n : nat) :
  3 <= blocking_count_score n <= 10.
Proof.
  destruct n as [|[|[|n]]]; simpl; try lra.
  set (c := inject_Z (Z.of_nat (S (S (S n))))).
  assert (3 <= c) as Hc.
  { unfold c. change 3 with (inject_Z 3). rewrite <- Zle_Qle. lia. }
  destruct (Q.min_spec 10.0 (8.0 + (c - 2) * 0.5)) as [[? ->]|[? ->]]; lra.
Qed.

Lemma blocking_count_score_mono (n m : nat) :
  (n ≤ m)%nat → blocking_count_score n <= blocking_count_score m.
Proof.
  intros Hnm.
  assert (∀ k, (3 ≤ k)%nat →
            blocking_count_score k
            == Qmin 10.0 (8.0 + (inject_Z (Z.of_nat k) - 2) * 0.5)
            ∧ 3 <= inject_Z (Z.of_nat k)) as Hlarge.
  { intros k Hk. rewrite blocking_count_score_large by done.
    split; [reflexivity |]. change 3 with (inject_Z 3).
    rewrite <- Zle_Qle. lia. }
  destruct (le_lt_dec 3 n) as [Hn|Hn].
  - destruct (Hlarge n Hn) as [-> Hn'].
    destruct (Hlarge m) as [-> Hm']; [lia |].
    assert (inject_Z (Z.of_nat n) <= inject_Z (Z.of_nat m)) as Hle
      by (rewrite <- Zle_Qle; lia).
    destruct (Q.min_spec 10.0 (8.0 + (inject_Z (Z.of_nat n) - 2) * 0.5))
      as [[? ->]|[? ->]];
    destruct (Q.min_spec 10.0 (8.0 + (inject_Z (Z.of_nat m) - 2) * 0.5))
      as [[? ->]|[? ->]]; lra.
  - destruct (le_lt_dec 3 m) as [Hm|Hm].
    + destruct (Hlarge m Hm) as [-> Hm'].
      pose proof (blocking_count_score_range n) as Hr.
      assert (blocking_count_score n <= 8) as H8.
      { destruct n as [|[|[|n]]]; simpl; [lra | lra | lra | lia]. }
      destruct (Q.min_spec 10.0 (8.0 + (inject_Z (Z.of_nat m) - 2) * 0.5))
        as [[? ->]|[? ->]]; lra.
    + destruct n as [|[|[|n]]]; destruct m as [|[|[|m]]]; simpl; try lia; lra.
Qed.

Lemma dependents_app (task_id : Z) (l1 l2 : list task) :
  dependents task_id (l1 ++ l2) = dependents task_id l1 ++ dependents task_id l2.
Proof. unfold dependents. apply filter_app. Qed.

(** X3.  The dependency score lies between 3 and 10; it is 10 as soon as
    six tasks list the id; and putting one more task into the batch, at any
    place, never lowers the dependency score of any id. *)
Theorem X3_dependency_score_range (task_id : Z) (before after : list task)
  (t : task) :
  ∃ s note s' note',
    calculate_dependency_score task_id (before ++ after) = Ok (s, note) ∧
    calculate_dependency_score task_id (before ++ t :: after) = Ok (s', note') ∧
    3 <= s <= 10 ∧
    s <= s' ∧
    ((6 ≤ length (dependents task_id (before ++ after)))%nat → s == 10).
Proof.
  destruct (dependency_score_dependents task_id (before ++ after))
    as (s & note & E & Hs).
  destruct (dependency_score_dependents task_id (before ++ t :: after))
    as (s' & note' & E' & Hs').
  exists s, note, s', note'. split; [done |]. split; [done |].
  rewrite Hs, Hs'.
  split; [apply blocking_count_score_range |].
  split.
  - apply blocking_count_score_mono.
    rewrite !dependents_app, !length_app.
    change (t :: after) with ([t] ++ after).
    rewrite dependents_app, length_app. lia.
  - intros H6. rewrite blocking_count_score_large by lia.
    set (c := inject_Z (Z.of_nat (length (dependents task_id (before ++ after))))).
    assert (6 <= c) as Hc.
    { unfold c. change 6 with (inject_Z 6). rewrite <- Zle_Qle. lia. }
    rewrite Q.min_l by lra. reflexivity.
Qed.

(** ** The final score *)

Lemma strategy_weights_preset (strategy : string) :
  default SMART_BALANCE (STRATEGY_WEIGHTS !! strategy) ∈ presets.
Proof.
  unfold STRATEGY_WEIGHTS, presets. rewrite !lookup_insert, lookup_empty.
  repeat case_decide; cbn [default]; set_solver.
Qed.

Lemma presets_nonneg (w : weight_vector) :
  w ∈ presets →
  0 <= w_urgency w ∧ 0 <= w_importance w ∧ 0 <= w_effort w ∧
  0 <= w_dependency w.
Proof.
  unfold presets. intros Hw.
  repeat (apply elem_of_cons in Hw as [->|Hw]);
    [.. | by apply elem_of_nil in Hw];
    cbn [w_urgency w_importance w_effort w_dependency
         FASTEST_WINS HIGH_IMPACT DEADLINE_DRIVEN SMART_BALANCE];
    repeat split; try (apply rnd_nonneg); lra.
Qed.

(** The float sum does not decrease when a factor score grows. *)
Lemma float_weighted_sum_mono (w : weight_vector) (b1 b2 : factor_scores) :
  0 <= w_urgency w → 0 <= w_importance w → 0 <= w_effort w →
  0 <= w_dependency w →
  b_urgency b1 <= b_urgency b2 → b_importance b1 <= b_importance b2 →
  b_effort b1 <= b_effort b2 → b_dependency b1 <= b_dependency b2 →
  float_weighted_sum w b1 <= float_weighted_sum w b2.
Proof.
  intros. unfold float_weighted_sum.
  apply fadd_mono; [apply fadd_mono; [apply fadd_mono |] |];
    by apply fmul_mono_r.
Qed.

(** Between the scores 1 and 10 everywhere, the final score is between 1
    and 10. *)
Lemma presets_range (w : weight_vector) :
  w ∈ presets →
  1 <= py_round (float_weighted_sum w (all_factors 1)) 2 ∧
  py_round (float_weighted_sum w (all_factors 10)) 2 <= 10.
Proof.
  unfold presets. intros Hw.
  repeat (apply elem_of_cons in Hw as [->|Hw]);
    [.. | by apply elem_of_nil in Hw]; split; qeval.
Qed.

(** Each float operation on numbers below 16 is off by at most [2^-50]. *)
Lemma rnd_error_16 (q : Q) :
  -16 < q < 16 → q - pow2 (-50) <= rnd q <= q + pow2 (-50).
Proof.
  intros [Hlo Hhi].
  assert (Qabs q < pow2 4) as Hq.
  { assert (pow2 4 == 16) as -> by qeval. apply Qabs_Qlt_condition.
    split; lra. }
  pose proof (rnd_error q 4 Hq ltac:(lia)) as Herr.
  apply Qabs_Qle_condition in Herr. change (4 - 54)%Z with (-50)%Z in Herr.
  lra.
Qed.

(** With four equal weights the float sum of scores between 0 and 10 is
    the average, up to seven roundings. *)
Lemma smart_balance_sum_near (b : factor_scores) :
  0 <= b_urgency b <= 10 → 0 <= b_importance b <= 10 →
  0 <= b_effort b <= 10 → 0 <= b_dependency b <= 10 →
  let average :=
    (b_urgency b + b_importance b + b_effort b + b_dependency b) / 4 in
  average - 7 * pow2 (-50) <= float_weighted_sum SMART_BALANCE b
  ∧ float_weighted_sum SMART_BALANCE b <= average + 7 * pow2 (-50)
  ∧ 0 <= float_weighted_sum SMART_BALANCE b + 7 * pow2 (-50)
  ∧ float_weighted_sum SMART_BALANCE b <= 10 + 7 * pow2 (-50).
Proof.
  destruct b as [u i e d]. cbn [b_urgency b_importance b_effort b_dependency].
  intros Hu Hi He Hd. cbv zeta.
  unfold float_weighted_sum, SMART_BALANCE.
  cbn [b_urgency b_importance b_effort b_dependency
       w_urgency w_importance w_effort w_dependency].
  assert (0 < pow2 (-50)) as Hpos by apply pow2_pos.
  assert (pow2 (-50) <= 1 # 1000) as Hsmall by qeval.
  set (eps := pow2 (-50)) in *.
  unfold fadd, fmul.
  pose proof (rnd_error_16 (u * 0.25)) as P1.
  pose proof (rnd_error_16 (i * 0.25)) as P2.
  pose proof (rnd_error_16 (e * 0.25)) as P3.
  pose proof (rnd_error_16 (d * 0.25)) as P4.
  change (pow2 (-50)) with eps in P1, P2, P3, P4.
  set (p1 := rnd (u * 0.25)) in *. set (p2 := rnd (i * 0.25)) in *.
  set (p3 := rnd (e * 0.25)) in *. set (p4 := rnd (d * 0.25)) in *.
  clearbody p1 p2 p3 p4.
  specialize (P1 ltac:(lra)). specialize (P2 ltac:(lra)).
  specialize (P3 ltac:(lra)). specialize (P4 ltac:(lra)).
  pose proof (rnd_error_16 (p1 + p2)) as S1.
  change (pow2 (-50)) with eps in S1.
  set (s1 := rnd (p1 + p2)) in *. clearbody s1. specialize (S1 ltac:(lra)).
  pose proof (rnd_error_16 (s1 + p3)) as S2.
  change (pow2 (-50)) with eps in S2.
  set (s2 := rnd (s1 + p3)) in *. clearbody s2. specialize (S2 ltac:(lra)).
  pose proof (rnd_error_16 (s2 + p4)) as S3.
  change (pow2 (-50)) with eps in S3.
  set (s3 := rnd (s2 + p4)) in *. clearbody s3. specialize (S3 ltac:(lra)).
  assert ((u + i + e + d) / 4 == (u + i + e + d) * 0.25) as -> by field.
  repeat split; lra.
Qed.

Section FinalScoreRange.

Variable date_today : Z.
Variable strptime_ymd : string -> option Z.

Local Abbreviation final_score_of :=
  (calculate_final_score date_today strptime_ymd).

Lemma final_score_factors (t : task) (all_tasks : list task)
  (strategy : string) (r : score_data) :
  final_score_of t all_tasks strategy = Ok r →
  let b := breakdown r in
  (1 <= b_urgency b <= 10) ∧ (1 <= b_importance b <= 10) ∧
  (1 <= b_effort b <= 10) ∧ (3 <= b_dependency b <= 10) ∧
  weights r = default SMART_BALANCE (STRATEGY_WEIGHTS !! strategy) ∧
  final_score r = py_round (float_weighted_sum (weights r) b) 2.
Proof.
  intros Hr.
  apply calculate_final_score_Ok in Hr
    as (u & un & i & inn & e & en & d & dn & Eu & Ei & Ee & Ed & Hb & Hw & Hf).
  cbv zeta. rewrite Hf, Hw, Hb.
  cbn [b_urgency b_importance b_effort b_dependency].
  split; [by destruct (urgency_score_range _ _ _ _ _ _ Eu) |].
  split; [by eapply importance_score_range |].
  split.
  { assert (∃ h, py_number (estimated_hours t) = Ok h) as [h Hh].
    { unfold calculate_effort_score in Ee.
      destruct (py_number (estimated_hours t)) as [h|]; [by exists h | done]. }
    by destruct (effort_score_range _ _ _ _ Hh Ee). }
  split; [| done].
  destruct (dependency_score_dependents (id t) all_tasks) as (d' & dn' & Ed' & Hd).
  rewrite Ed in Ed'. injection Ed' as <- <-. rewrite Hd.
  apply blocking_count_score_range.
Qed.

(** C8 (as amended).  Under SMART_BALANCE the final score is the sum of the
    four factor scores, each multiplied by 0.25 and the products added from
    the left in floating point, rounded to two decimals.  It need not be
    the exact average rounded to two decimals, from which it differs by at
    most 0.005 and the rounding errors of the sum. *)
Theorem C8_smart_balance_average (t : task) (all_tasks : list task)
  (r : score_data) :
  final_score_of t all_tasks "SMART_BALANCE" = Ok r →
  (∃ un inn en dn,
     calculate_urgency_score date_today strptime_ymd (due_date t) None
       = Ok (b_urgency (breakdown r), un) ∧
     calculate_importance_score (importance t)
       = Ok (b_importance (breakdown r), inn) ∧
     calculate_effort_score (estimated_hours t)
       = Ok (b_effort (breakdown r), en) ∧
     calculate_dependency_score (id t) all_tasks
       = Ok (b_dependency (breakdown r), dn)) ∧
  final_score r
  = py_round
      (fadd (fadd (fadd (fmul (b_urgency (breakdown r)) 0.25)
                        (fmul (b_importance (breakdown r)) 0.25))
                  (fmul (b_effort (breakdown r)) 0.25))
            (fmul (b_dependency (breakdown r)) 0.25)) 2 ∧
  (1 <= b_importance (breakdown r) <= 10 →
   Qabs (final_score r
         - (b_urgency (breakdown r) + b_importance (breakdown r)
            + b_effort (breakdown r) + b_dependency (breakdown r)) / 4)
   <= 0.00500000000001).
Proof.
  intros Hr. pose proof (final_score_factors _ _ _ _ Hr) as Hfactors.
  cbv zeta in Hfactors. destruct Hfactors as (Hu & _ & He & Hd & Hw & Hf).
  rewrite strategy_weights_known in Hw.
  change (default SMART_BALANCE (Some SMART_BALANCE)) with SMART_BALANCE in Hw.
  rewrite Hw in Hf.
  apply calculate_final_score_Ok in Hr
    as (u & un & i & inn & e & en & d & dn & Eu & Ei & Ee & Ed & Hb & _ & _).
  split.
  { rewrite Hb. by exists un, inn, en, dn. }
  split; [exact Hf |].
  intros Hi.
  destruct (smart_balance_sum_near (breakdown r))
    as (Hlo & Hhi & Hmin & Hmax); [lra.. |].
  cbv zeta in Hlo, Hhi. rewrite Hf, py_round_2_value.
  set (x := float_weighted_sum SMART_BALANCE (breakdown r)) in *.
  set (average := (b_urgency (breakdown r) + b_importance (breakdown r)
                   + b_effort (breakdown r) + b_dependency (breakdown r)) / 4)
    in *.
  destruct (hundredths_near x) as [Nlo Nhi].
  set (n := inject_Z (round_half_even (x * 100)) / 100) in *.
  assert (0 < pow2 (-50)) as Hpos by apply pow2_pos.
  assert (8 * pow2 (-50) <= 0.00000000000001) as Hsmall by qeval.
  assert (-16 < n < 16) as Hn by (split; lra).
  apply rnd_error_16 in Hn.
  apply Qabs_Qle_condition. lra.
Qed.

(** X4.  A final score that is returned lies between 1 and 10, under every
    strategy name, when the importance score does, as it does for every
    importance that is an integer; the urgency and the effort score always
    lie between 1 and 10 and the dependency score between 3 and 10. *)
Theorem X4_final_score_range (t : task) (all_tasks : list task)
  (strategy : string) (r : score_data) :
  final_score_of t all_tasks strategy = Ok r →
  1 <= b_importance (breakdown r) <= 10 →
  1 <= final_score r <= 10 ∧
  1 <= b_urgency (breakdown r) <= 10 ∧
  1 <= b_effort (breakdown r) <= 10 ∧
  3 <= b_dependency (breakdown r) <= 10.
Proof.
  intros Hr Hi. apply final_score_factors in Hr as (Hu & _ & He & Hd & Hw & Hf).
  split; [| done].
  pose proof (strategy_weights_preset strategy) as Hpre. rewrite <- Hw in Hpre.
  destruct (presets_nonneg _ Hpre) as (? & ? & ? & ?).
  destruct (presets_range _ Hpre) as [Hone Hten].
  rewrite Hf. split.
  - eapply Qle_trans; [exact Hone |]. apply py_round_2_mono.
    apply float_weighted_sum_mono; simpl; try done; lra.
  - eapply Qle_trans; [| exact Hten]. apply py_round_2_mono.
    apply float_weighted_sum_mono; simpl; try done; lra.
Qed.

(** X5.  The final score is the float nearest to a whole number of
    hundredths that differs from the float sum of the weighted factor
    scores by at most 0.005. *)
Theorem X5_final_score_rounding (t : task) (all_tasks : list task)
  (strategy : string) (r : score_data) :
  final_score_of t all_tasks strategy = Ok r →
  1 <= b_importance (breakdown r) <= 10 →
  ∃ n : Z,
    final_score r == rnd (inject_Z n / 100) ∧
    inject_Z n / 100 - float_weighted_sum (weights r) (breakdown r) <= 0.005 ∧
    float_weighted_sum (weights r) (breakdown r) - inject_Z n / 100 <= 0.005.
Proof.
  intros Hr _. apply final_score_factors in Hr as (_ & _ & _ & _ & _ & Hf).
  exists (round_half_even (float_weighted_sum (weights r) (breakdown r) * 100)).
  rewrite Hf. split; [apply py_round_2_value |].
  destruct (hundredths_near (float_weighted_sum (weights r) (breakdown r))).
  lra.
Qed.

(** X6.  Under one strategy a task whose four factor scores are each at
    least those of another task does not get a lower final score. *)
Theorem X6_final_score_dominance (t1 t2 : task) (all1 all2 : list task)
  (strategy : string) (r1 r2 : score_data) :
  final_score_of t1 all1 strategy = Ok r1 →
  final_score_of t2 all2 strategy = Ok r2 →
  b_urgency (breakdown r1) <= b_urgency (breakdown r2) →
  b_importance (breakdown r1) <= b_importance (breakdown r2) →
  b_effort (breakdown r1) <= b_effort (breakdown r2) →
  b_dependency (breakdown r1) <= b_dependency (breakdown r2) →
  final_score r1 <= final_score r2.
Proof.
  intros Hr1 Hr2 Hu Hi He Hd.
  apply final_score_factors in Hr1 as (_ & _ & _ & _ & Hw1 & Hf1).
  apply final_score_factors in Hr2 as (_ & _ & _ & _ & Hw2 & Hf2).
  rewrite Hf1, Hf2, Hw1, Hw2. apply py_round_2_mono.
  destruct (presets_nonneg _ (strategy_weights_preset strategy))
    as (? & ? & ? & ?).
  by apply float_weighted_sum_mono.
Qed.

Lemma calculate_final_score_defined (t : task) (all_tasks : list task)
  (strategy : string) :
  (scorable t = true → hours_in_float_range (estimated_hours t) = true →
   ∃ r, final_score_of t all_tasks strategy = Ok r) ∧
  (scorable t = false → final_score_of t all_tasks strategy = Raise TypeError) ∧
  (scorable t = true → hours_in_float_range (estimated_hours t) = false →
   final_score_of t all_tasks strategy = Raise OverflowError).
Proof.
  unfold scorable, calculate_final_score.
  destruct (dependency_score_dependents (id t) all_tasks) as (d & dn & -> & _).
  assert (∀ v, match v with PyBool _ | PyInt _ | PyFloat _ => true | _ => false end
               = true → ∃ x, py_number v = Ok x) as Hnum
    by (intros []; try done; eexists; done).
  assert (∀ v, match v with PyBool _ | PyInt _ | PyFloat _ => true | _ => false end
               = false → py_number v = Raise TypeError) as Hnot
    by (intros []; done).
  assert (∀ v x, py_number v = Ok x →
            ∃ s n, calculate_importance_score v = Ok (s, n)) as Himp.
  { intros v x Hv. unfold calculate_importance_score. rewrite Hv. simpl.
    destruct (_ || _); eexists _, _; done. }
  assert (∀ v, py_number v = Raise TypeError →
            calculate_importance_score v = Raise TypeError) as Himp'
    by (intros v Hv; unfold calculate_importance_score; by rewrite Hv).
  assert (∀ v, py_number v = Raise TypeError →
            calculate_effort_score v = Raise TypeError) as Heff'
    by (intros v Hv; unfold calculate_effort_score; by rewrite Hv).
  assert (match due_date t with PyStr _ | PyDate _ => true | _ => false end = true →
          ∃ u un, calculate_urgency_score date_today strptime_ymd (due_date t) None
                  = Ok (u, un)) as Hurg.
  { intros Hd. destruct (urgency_score_typed date_today strptime_ymd _ Hd)
      as (u & un & E & _). by exists u, un. }
  assert (match due_date t with PyStr _ | PyDate _ => true | _ => false end = false →
          calculate_urgency_score date_today strptime_ymd (due_date t) None
          = Raise TypeError) as Hurg'
    by (destruct (due_date t); done).
  split; [| split].
  - intros Ht Hfit.
    apply andb_prop in Ht as [Ht He]. apply andb_prop in Ht as [Hu Hi].
    destruct (Hurg Hu) as (u & un & ->).
    destruct (Hnum _ Hi) as [x Hx]. destruct (Himp _ _ Hx) as (i & inn & ->).
    destruct (Hnum _ He) as [h Hh].
    destruct (effort_score_defined _ _ Hh Hfit) as (e & en & ->).
    by eexists.
  - intros Ht.
    destruct (match due_date t with PyStr _ | PyDate _ => true | _ => false end)
      eqn:Hu; [| by rewrite (Hurg' eq_refl)].
    destruct (Hurg eq_refl) as (u & un & ->).
    destruct (match importance t with
              | PyBool _ | PyInt _ | PyFloat _ => true | _ => false end)
      eqn:Hi; [| by rewrite (Himp' _ (Hnot _ Hi))].
    destruct (Hnum _ Hi) as [x Hx]. destruct (Himp _ _ Hx) as (i & inn & ->).
    simpl in Ht.
    by rewrite (Heff' _ (Hnot _ Ht)).
  - intros Ht Hfit.
    apply andb_prop in Ht as [Ht He]. apply andb_prop in Ht as [Hu Hi].
    destruct (Hurg Hu) as (u & un & ->).
    destruct (Hnum _ Hi) as [x Hx]. destruct (Himp _ _ Hx) as (i & inn & ->).
    by rewrite (effort_score_overflow _ Hfit).
Qed.

(** X7.  The final score is defined exactly on the tasks whose due date is
    a string or a date and whose importance and hours are numbers, the hours
    not an integer too large for a float: on every other task the
    computation raises TypeError, or OverflowError when only the size of
    the hours is in the way, whatever the batch and the strategy name. *)
Theorem X7_final_score_defined (t : task) (all_tasks : list task)
  (strategy : string) :
  (scorable t = true → hours_in_float_range (estimated_hours t) = true →
   ∃ r, final_score_of t all_tasks strategy = Ok r) ∧
  (scorable t = false → final_score_of t all_tasks strategy = Raise TypeError) ∧
  (scorable t = true → hours_in_float_range (estimated_hours t) = false →
   final_score_of t all_tasks strategy = Raise OverflowError).
Proof. apply calculate_final_score_defined. Qed.

End FinalScoreRange.

Lemma C8_smart_balance_average_witness :
  ∃ r,
    calculate_final_score 739586 strptime_padded (sample_task 1 [])
      [sample_task 1 []; sample_task 2 [1%Z]] "SMART_BALANCE" = Ok r ∧
    Qabs (final_score r
          - (b_urgency (breakdown r) + b_importance (breakdown r)
             + b_effort (breakdown r) + b_dependency (breakdown r)) / 4)
    <= 0.00500000000001.
Proof.
  eexists. split; [vm_compute; reflexivity |].
  refine (proj2 (proj2 (C8_smart_balance_average 739586 strptime_padded
                          (sample_task 1 [])
                          [sample_task 1 []; sample_task 2 [1%Z]] _ _)) _).
  - vm_compute. reflexivity.
  - split; vm_compute; discriminate.
Defined.

(** C8 (as stated) fails.  For a task due tomorrow, of importance 4 and
    half an hour of work, that no task depends on, the factor scores are
    7.7 (the float of that name, a little above 7.7), 4, 10 and 3.  The
    code returns 6.17, the float sum being a little below 6.175, while the
    exact average, a little above 6.175, rounds to 6.18. *)
Lemma C8_smart_balance_average_counterexample :
  ∃ r,
    calculate_final_score 739586 strptime_padded quick_task [quick_task]
      "SMART_BALANCE" = Ok r ∧
    b_urgency (breakdown r) == rnd 7.7 ∧
    b_importance (breakdown r) == 4 ∧
    b_effort (breakdown r) == 10 ∧
    b_dependency (breakdown r) == 3 ∧
    final_score r == rnd 6.17 ∧
    py_round ((b_urgency (breakdown r) + b_importance (breakdown r)
               + b_effort (breakdown r) + b_dependency (breakdown r)) / 4) 2
    == rnd 6.18 ∧
    ¬ final_score r
      == py_round ((b_urgency (breakdown r) + b_importance (breakdown r)
                    + b_effort (breakdown r) + b_dependency (breakdown r)) / 4) 2.
Proof.
  eexists. split; [vm_compute; reflexivity |].
  do 6 (split; [qeval |]).
  intros H. apply Qeq_eq_bool in H. vm_compute in H. discriminate H.
Qed.

Lemma X4_final_score_range_witness :
  ∃ r,
    calculate_final_score 739586 strptime_padded malformed_task
      [malformed_task] "FASTEST_WINS" = Ok r ∧
    1 <= final_score r <= 10.
Proof.
  eexists. split; [vm_compute; reflexivity |].
  refine (proj1 (X4_final_score_range 739586 strptime_padded malformed_task
                   [malformed_task] "FASTEST_WINS" _ _ _)).
  - vm_compute. reflexivity.
  - split; vm_compute; discriminate.
Defined.

Lemma X5_final_score_rounding_witness :
  ∃ r (n : Z),
    calculate_final_score 739586 strptime_padded (sample_task 1 [])
      [sample_task 1 []; sample_task 2 [1%Z]] "DEADLINE_DRIVEN" = Ok r ∧
    final_score r == rnd (inject_Z n / 100).
Proof.
  eexists.
  destruct (X5_final_score_rounding 739586 strptime_padded
              (sample_task 1 []) [sample_task 1 []; sample_task 2 [1%Z]]
              "DEADLINE_DRIVEN" _ ltac:(vm_compute; reflexivity))
    as (n & Hn & _).
  - split; vm_compute; discriminate.
  - exists n. split; [vm_compute; reflexivity | exact Hn].
Defined.

Lemma X6_final_score_dominance_witness :
  ∃ r1 r2,
    calculate_final_score 739586 strptime_padded (sample_task 2 [1%Z])
      [sample_task 1 []; sample_task 2 [1%Z]] "HIGH_IMPACT" = Ok r1 ∧
    calculate_final_score 739586 strptime_padded (sample_task 1 [])
      [sample_task 1 []; sample_task 2 [1%Z]] "HIGH_IMPACT" = Ok r2 ∧
    final_score r1 <= final_score r2.
Proof.
  eexists _, _. split; [vm_compute; reflexivity |].
  split; [vm_compute; reflexivity |].
  refine (X6_final_score_dominance 739586 strptime_padded
            (sample_task 2 [1%Z]) (sample_task 1 [])
            [sample_task 1 []; sample_task 2 [1%Z]]
            [sample_task 1 []; sample_task 2 [1%Z]] "HIGH_IMPACT" _ _
            _ _ _ _ _ _);
    [vm_compute; reflexivity | vm_compute; reflexivity | ..];
    vm_compute; discriminate.
Defined.

Lemma X7_final_score_defined_witness :
  (∃ r, calculate_final_score 739586 strptime_padded (sample_task 1 [])
          [sample_task 1 []] "SMART_BALANCE" = Ok r) ∧
  calculate_final_score 739586 strptime_padded text_importance_task
    [text_importance_task] "SMART_BALANCE" = Raise TypeError ∧
  calculate_final_score 739586 strptime_padded huge_hours_task
    [huge_hours_task] "SMART_BALANCE" = Raise OverflowError.
Proof.
  split; [| split].
  - apply (proj1 (X7_final_score_defined 739586 strptime_padded
                    (sample_task 1 []) [sample_task 1 []] "SMART_BALANCE"));
      reflexivity.
  - apply (proj1 (proj2 (X7_final_score_defined 739586 strptime_padded
                           text_importance_task [text_importance_task]
                           "SMART_BALANCE"))).
    reflexivity.
  - apply (proj2 (proj2 (X7_final_score_defined 739586 strptime_padded
                           huge_hours_task [huge_hours_task]
                           "SMART_BALANCE")));
      vm_compute; reflexivity.
Defined.

(** ** Ranking *)

Section RankFacts.

Variable date_today : Z.
Variable strptime_ymd : string -> option Z.

Local Abbreviation final_score_of :=
  (calculate_final_score date_today strptime_ymd).
Local Abbreviation score_all := (score_tasks date_today strptime_ymd).

(** The scored task the loop makes of a task and its score. *)
Lemma score_tasks_Ok (tasks validated_tasks : list task) (strategy : string)
  (scored : list scored_task) :
  score_all tasks validated_tasks strategy = Ok scored →
  Forall2 (fun t s =>
    ∃ r, final_score_of t validated_tasks strategy = Ok r ∧
         s = {| task_fields := t;
                priority_score := final_score r;
                score_breakdown := breakdown r;
                score_explanation := explanation r;
                priority_level := get_priority_level (final_score r) |})
    tasks scored.
Proof.
  revert scored. induction tasks as [|t tasks IH]; intros scored; simpl.
  - intros [= <-]. constructor.
  - destruct (final_score_of t validated_tasks strategy) as [r|e] eqn:Er;
      [| done]. simpl.
    destruct (score_all tasks validated_tasks strategy) as [rest|e] eqn:Erest;
      [| done]. simpl.
    intros [= <-]. constructor; [by exists r | by apply IH].
Qed.

(** The loop stops at the first task whose score raises. *)
Lemma score_tasks_Raise (tasks validated_tasks : list task) (strategy : string)
  (e : pyexc) :
  score_all tasks validated_tasks strategy = Raise e ↔
  ∃ before t after,
    tasks = before ++ t :: after ∧
    Forall (fun t' => ∃ r, final_score_of t' validated_tasks strategy = Ok r)
      before ∧
    final_score_of t validated_tasks strategy = Raise e.
Proof.
  induction tasks as [|t tasks IH]; simpl.
  - split; [done |]. intros (before & t & after & H & _). by destruct before.
  - destruct (final_score_of t validated_tasks strategy) as [r|e'] eqn:Er; simpl.
    + destruct (score_all tasks validated_tasks strategy) as [rest|e'] eqn:Erest;
        simpl.
      * split; [done |].
        intros (before & t' & after & Heq & Hbefore & Ht').
        destruct before as [|b before]; simplify_eq/=; [congruence |].
        apply Forall_cons in Hbefore as [_ Hbefore].
        assert (Raise e = (Ok rest : pyres (list scored_task))) as Habs; [| done].
        symmetry. apply IH. by exists before, t', after.
      * split.
        -- intros [= ->]. destruct (proj1 IH eq_refl)
             as (before & t' & after & -> & Hbefore & Ht').
           exists (t :: before), t', after. split; [done |].
           split; [| done]. constructor; [by exists r | done].
        -- intros (before & t' & after & Heq & Hbefore & Ht').
           destruct before as [|b before]; simplify_eq/=; [congruence |].
           apply Forall_cons in Hbefore as [_ Hbefore].
           f_equal. assert (Raise e' = (Raise e : pyres (list scored_task))) as Heq;
             [| by injection Heq].
           apply IH. by exists before, t', after.
    + split.
      * intros [= ->]. exists [], t, tasks. done.
      * intros (before & t' & after & Heq & Hbefore & Ht').
        destruct before as [|b before]; simplify_eq/=; [congruence |].
        apply Forall_cons in Hbefore as [[r Hr] _]. congruence.
Qed.


Lemma get_priority_level_mono (x y : Q) :
  x <= y →
  (get_priority_level x = "HIGH" → get_priority_level y = "HIGH") ∧
  (get_priority_level y = "LOW" → get_priority_level x = "LOW").
Proof.
  intros Hxy. unfold get_priority_level.
  qcases; (split; [done || (intros _; exfalso; lra) | done || (intros _; exfalso; lra)]).
Qed.

Lemma sorted_descending_lookup {A : Type} (key : A -> Q) (l : list A)
  (i j : nat) (x y : A) :
  sorted_descending key l → (i < j)%nat →
  l !! i = Some x → l !! j = Some y → key y <= key x.
Proof.
  intros Hsorted Hij Hi Hj. unfold sorted_descending in Hsorted.
  rewrite <- (take_drop j l) in Hsorted.
  apply (StronglySorted_app_1_elem_of _ _ _ x y) in Hsorted; [done | |].
  - apply list_elem_of_lookup. exists i. by rewrite lookup_take_lt.
  - apply list_elem_of_lookup. exists 0%nat. by rewrite lookup_drop, Nat.add_0_r.
Qed.

Lemma rank_Ok (validated_tasks : list task) (strategy : string)
  (ranked : list scored_task) :
  rank date_today strptime_ymd validated_tasks strategy = Ok ranked →
  ∃ scored,
    score_all validated_tasks validated_tasks strategy = Ok scored ∧
    ranked = sort_reverse priority_score scored.
Proof.
  unfold rank.
  destruct (score_all validated_tasks validated_tasks strategy) as [scored|e];
    [| done].
  simpl. intros [= <-]. by exists scored.
Qed.

Lemma can_be_scored_spec (t : task) (validated_tasks : list task)
  (strategy : string) :
  (can_be_scored t = true →
   ∃ r, final_score_of t validated_tasks strategy = Ok r) ∧
  (can_be_scored t = false →
   final_score_of t validated_tasks strategy = Raise TypeError ∨
   final_score_of t validated_tasks strategy = Raise OverflowError).
Proof.
  destruct (calculate_final_score_defined date_today strptime_ymd
              t validated_tasks strategy) as (Hok & Htype & Hover).
  unfold can_be_scored.
  destruct (scorable t); [| split; [done | intros _; left; by apply Htype]].
  destruct (hours_in_float_range (estimated_hours t)); simpl.
  - split; [intros _; by apply Hok | done].
  - split; [done | intros _; right; by apply Hover].
Qed.

Lemma rank_defined (validated_tasks : list task) (strategy : string) :
  (Forall (fun t => can_be_scored t = true) validated_tasks →
   ∃ ranked, rank date_today strptime_ymd validated_tasks strategy = Ok ranked) ∧
  (¬ Forall (fun t => can_be_scored t = true) validated_tasks →
   rank date_today strptime_ymd validated_tasks strategy = Raise TypeError ∨
   rank date_today strptime_ymd validated_tasks strategy = Raise OverflowError).
Proof.
  assert (∀ tasks, Forall (fun t => can_be_scored t = true) tasks →
            ∃ scored, score_all tasks validated_tasks strategy = Ok scored)
    as Hall.
  { induction 1 as [|t tasks Ht _ [scored IH]]; simpl; [by eexists |].
    destruct (proj1 (can_be_scored_spec t validated_tasks strategy) Ht)
      as [r ->].
    rewrite IH. by eexists. }
  split.
  - intros [scored Hs]%Hall. unfold rank. rewrite Hs. by eexists.
  - intros Hnot. unfold rank.
    destruct (score_all validated_tasks validated_tasks strategy)
      as [scored|e] eqn:E.
    + exfalso. apply Hnot. apply score_tasks_Ok in E.
      apply Forall_forall. intros t Ht.
      apply list_elem_of_lookup in Ht as [i Hi].
      destruct (Forall2_lookup_l _ _ _ _ _ E Hi) as (s & _ & r & Hr & _).
      destruct (can_be_scored t) eqn:Hsc; [done |].
      destruct (proj2 (can_be_scored_spec t validated_tasks strategy) Hsc)
        as [Hraise|Hraise]; rewrite Hraise in Hr; done.
    + apply score_tasks_Raise in E as (before & t & after & _ & _ & Ht).
      destruct (can_be_scored t) eqn:Hsc.
      * destruct (proj1 (can_be_scored_spec t validated_tasks strategy) Hsc)
          as [r Hr].
        congruence.
      * destruct (proj2 (can_be_scored_spec t validated_tasks strategy) Hsc)
          as [Hraise|Hraise]; rewrite Hraise in Ht; injection Ht as <-;
          [by left | by right].
Qed.

(** X8.  The ranking is defined exactly when every task of the batch can be
    scored: when the due date of each is a string or a date and its
    importance and hours are numbers, the hours not an integer too large
    for a float.  Otherwise it raises TypeError or OverflowError and returns
    no task at all. *)
Theorem X8_rank_defined (validated_tasks : list task) (strategy : string) :
  (Forall (fun t => can_be_scored t = true) validated_tasks →
   ∃ ranked, rank date_today strptime_ymd validated_tasks strategy = Ok ranked) ∧
  (¬ Forall (fun t => can_be_scored t = true) validated_tasks →
   rank date_today strptime_ymd validated_tasks strategy = Raise TypeError ∨
   rank date_today strptime_ymd validated_tasks strategy = Raise OverflowError).
Proof. apply rank_defined. Qed.

(** X9.  Every entry of the ranking belongs to one task of the batch and
    carries the score, the breakdown and the explanation that the final
    score computation gives for that task against the whole batch, and the
    priority level of that score; the tasks of the ranking are the tasks of
    the batch, each as often as it occurs there. *)
Theorem X9_rank_entries (validated_tasks : list task) (strategy : string)
  (ranked : list scored_task) :
  rank date_today strptime_ymd validated_tasks strategy = Ok ranked →
  map task_fields ranked ≡ₚ validated_tasks ∧
  Forall (fun s =>
    ∃ r, final_score_of (task_fields s) validated_tasks strategy = Ok r ∧
         priority_score s = final_score r ∧
         score_breakdown s = breakdown r ∧
         score_explanation s = explanation r ∧
         priority_level s = get_priority_level (final_score r)) ranked.
Proof.
  intros (scored & Hscored & ->)%rank_Ok.
  apply score_tasks_Ok in Hscored.
  split.
  - rewrite (sort_reverse_perm priority_score scored).
    assert (map task_fields scored = validated_tasks) as ->; [| done].
    induction Hscored as [|t s tasks scored (r & _ & ->) _ IH]; simpl; [done |].
    by rewrite IH.
  - rewrite (sort_reverse_perm priority_score scored).
    apply Forall_forall. intros s Hs.
    apply list_elem_of_lookup in Hs as [i Hi].
    destruct (Forall2_lookup_r _ _ _ _ _ Hscored Hi) as (t & _ & r & Hr & ->).
    by exists r.
Qed.

(** X10.  In the ranking the priority levels follow the order: no task
    comes before a HIGH task unless it is HIGH itself, and no task comes
    after a LOW task unless it is LOW itself. *)
Theorem X10_rank_levels_ordered (validated_tasks : list task)
  (strategy : string) (ranked : list scored_task)
  (i j : nat) (x y : scored_task) :
  rank date_today strptime_ymd validated_tasks strategy = Ok ranked →
  (i < j)%nat → ranked !! i = Some x → ranked !! j = Some y →
  (priority_level y = "HIGH" → priority_level x = "HIGH") ∧
  (priority_level x = "LOW" → priority_level y = "LOW").
Proof.
  intros Hrank Hij Hi Hj.
  pose proof Hrank as (scored & Hscored & ->)%rank_Ok.
  apply score_tasks_Ok in Hscored.
  assert (∀ s, s ∈ sort_reverse priority_score scored →
            priority_level s = get_priority_level (priority_score s)) as Hlevel.
  { intros s Hs. rewrite (sort_reverse_perm priority_score scored) in Hs.
    apply list_elem_of_lookup in Hs as [k Hk].
    by destruct (Forall2_lookup_r _ _ _ _ _ Hscored Hk) as (t & _ & r & _ & ->). }
  rewrite (Hlevel x), (Hlevel y)
    by (apply list_elem_of_lookup; eauto).
  apply get_priority_level_mono.
  eapply sorted_descending_lookup;
    [apply (sort_reverse_sorted priority_score scored) | done..].
Qed.

End RankFacts.

Lemma X8_rank_defined_witness :
  (∃ ranked, rank 739586 strptime_padded tie_batch "SMART_BALANCE" = Ok ranked) ∧
  (rank 739586 strptime_padded [sample_task 1 []; text_importance_task]
     "SMART_BALANCE" = Raise TypeError ∨
   rank 739586 strptime_padded [sample_task 1 []; text_importance_task]
     "SMART_BALANCE" = Raise OverflowError).
Proof.
  split.
  - apply (proj1 (X8_rank_defined 739586 strptime_padded tie_batch
                    "SMART_BALANCE")).
    repeat constructor.
  - apply (proj2 (X8_rank_defined 739586 strptime_padded
                    [sample_task 1 []; text_importance_task] "SMART_BALANCE")).
    intros H. apply Forall_cons in H as [_ H]. apply Forall_cons in H as [H _].
    discriminate H.
Defined.

Lemma X9_rank_entries_witness :
  ∃ ranked,
    rank 739586 strptime_padded tie_batch "SMART_BALANCE" = Ok ranked ∧
    map task_fields ranked ≡ₚ tie_batch.
Proof.
  eexists. split; [vm_compute; reflexivity |].
  refine (proj1 (X9_rank_entries 739586 strptime_padded tie_batch
                   "SMART_BALANCE" _ _)).
  vm_compute. reflexivity.
Defined.

Lemma X10_rank_levels_ordered_witness :
  ∃ ranked x y,
    rank 739586 strptime_padded tie_batch "SMART_BALANCE" = Ok ranked ∧
    ranked !! 0%nat = Some x ∧ ranked !! 2%nat = Some y ∧
    (priority_level y = "HIGH" → priority_level x = "HIGH").
Proof.
  eexists _, _, _. split; [vm_compute; reflexivity |].
  split; [reflexivity |]. split; [reflexivity |].
  refine (proj1 (X10_rank_levels_ordered 739586 strptime_padded tie_batch
                   "SMART_BALANCE" _ 0 2 _ _ _ _ _ _));
    [vm_compute; reflexivity | lia | reflexivity | reflexivity].
Defined.

(** * Further properties of the cycle detector *)

(** ** The reported cycles are cycles *)

Lemma list_index_lookup (x : Z) (l : list Z) (i : nat) :
  list_index x l = Some i → l !! i = Some x.
Proof.
  revert i. induction l as [|y l IH]; intros i; simpl; [done |].
  destruct (Z.eqb_spec x y) as [->|Hne]; [by intros [= <-] |].
  destruct (list_index x l) as [j|]; [| done]. simpl. intros [= <-].
  by apply IH.
Qed.

Lemma is_walk_snoc (R : relation Z) (l : list Z) (a b : Z) :
  is_walk R l → last l = Some a → R a b → is_walk R (l ++ [b]).
Proof.
  intros Hwalk Hlast Hab i x y Hx Hy.
  destruct (decide (S i < length l)%nat) as [Hlt|Hge].
  - rewrite lookup_app_l in Hx by lia. rewrite lookup_app_l in Hy by done.
    by eapply Hwalk.
  - assert (S i = length l) as Hi.
    { apply lookup_lt_Some in Hy. rewrite length_app in Hy. simpl in Hy. lia. }
    rewrite lookup_app_l in Hx by lia.
    rewrite Hi, lookup_app_r, Nat.sub_diag in Hy by done. injection Hy as <-.
    rewrite last_lookup in Hlast.
    assert (Init.Nat.pred (length l) = i) as Hpred by lia.
    rewrite Hpred in Hlast. congruence.
Qed.

Lemma is_walk_drop (R : relation Z) (l : list Z) (n : nat) :
  is_walk R l → is_walk R (drop n l).
Proof.
  intros Hwalk i a b. rewrite !lookup_drop.
  replace (n + S i)%nat with (S (n + i)) by lia. apply Hwalk.
Qed.

Section CycleSound.

Variable graph : list (Z * list Z).

Lemma visit_neighbors_cycle (recurse : Z -> dfs_state -> dfs_result)
  (node : Z) (path : list Z) :
  (∀ n st c st', edge graph node n →
     recurse n st = Some (Ok (Some c, st')) → c ≠ [] →
     is_cycle (edge graph) c) →
  is_walk (edge graph) path → last path = Some node →
  ∀ (neighbors : list Z) (st : dfs_state) (c : list Z) (st' : dfs_state),
    (∀ n, n ∈ neighbors → edge graph node n) →
    visit_neighbors recurse node path neighbors st = Some (Ok (Some c, st')) →
    is_cycle (edge graph) c.
Proof.
  intros Hrec Hwalk Hlast.
  induction neighbors as [|n rest IH]; intros st c st' Hedges; simpl.
  - by destruct (decide _).
  - assert (edge graph node n) as Hedge by (apply Hedges; by left).
    assert (∀ n', n' ∈ rest → edge graph node n') as Hedges'
      by (intros n' Hn'; apply Hedges; by right).
    destruct (decide (n ∉ st_visited st)).
    + destruct (recurse n st) as [[[[[|c0 cycle]|] st2]|e]|] eqn:E; try done.
      * by apply IH.
      * intros [= <- <-]. by eapply Hrec.
      * by apply IH.
    + destruct (decide (n ∈ st_rec_stack st)); [| by apply IH].
      destruct (list_index n path) as [i|] eqn:Ei; [| done].
      intros [= <- <-]. apply list_index_lookup in Ei.
      assert (i < length path)%nat as Hi by (by eapply lookup_lt_Some).
      split; [rewrite length_app, length_drop; simpl; lia |].
      split.
      * rewrite last_snoc.
        destruct (drop i path) as [|x l] eqn:Ed.
        { apply (f_equal length) in Ed. rewrite length_drop in Ed. simpl in Ed.
          lia. }
        simpl. f_equal.
        assert (drop i path !! 0%nat = Some n) as H0
          by (by rewrite lookup_drop, Nat.add_0_r).
        rewrite Ed in H0. by injection H0.
      * apply (is_walk_snoc _ _ node); [by apply is_walk_drop | | done].
        rewrite last_lookup, length_drop, lookup_drop.
        rewrite last_lookup in Hlast.
        replace (i + Init.Nat.pred (length path - i))%nat
          with (Init.Nat.pred (length path)) by lia.
        done.
Qed.

Lemma has_cycle_util_cycle (fuel : nat) :
  ∀ (node : Z) (st : dfs_state) (path : list Z) (c : list Z) (st' : dfs_state),
    is_walk (edge graph) (path ++ [node]) →
    has_cycle_util fuel graph node st path = Some (Ok (Some c, st')) →
    c ≠ [] →
    is_cycle (edge graph) c.
Proof.
  induction fuel as [|fuel IH]; intros node st path c st' Hwalk; [done |].
  simpl. intros Hres _. revert Hres.
  apply visit_neighbors_cycle; [| done | by rewrite last_snoc | done].
  intros n st1 c1 st1' Hedge Hres Hne.
  eapply IH; [| done | done].
  apply (is_walk_snoc _ _ node); [done | by rewrite last_snoc | done].
Qed.

End CycleSound.

Lemma detect_loop_cycles (fuel : nat) (graph : list (Z * list Z))
  (task_map : list (Z * string)) (keys : list Z) :
  ∀ (visited : list Z) (cycles : list string) (visited' : list Z)
    (cycles' : list string),
    detect_loop fuel graph task_map keys visited cycles
      = Some (Ok (visited', cycles')) →
    ∃ cs, cycles' = cycles ++ map (cycle_description task_map) cs ∧
          Forall (is_cycle (edge graph)) cs.
Proof.
  induction keys as [|k keys IH]; intros visited cycles visited' cycles'; simpl.
  - intros [= <- <-]. exists []. by rewrite app_nil_r.
  - destruct (decide (k ∉ visited)); [| apply IH].
    destruct (has_cycle_util fuel graph k _ _)
      as [[[[[|c0 cycle]|] st2]|e]|] eqn:E; try done; try apply IH.
    intros (cs & -> & Hcs)%IH. exists ((c0 :: cycle) :: cs).
    split; [by rewrite <- app_assoc |].
    constructor; [| done].
    eapply has_cycle_util_cycle; [| exact E | done].
    intros i a b Ha Hb. destruct i; done.
Qed.

Lemma is_cycle_subrel (R R' : relation Z) (c : list Z) :
  (∀ a b, R a b → R' a b) → is_cycle R c → is_cycle R' c.
Proof.
  intros Hsub (Hlen & Hends & Hwalk). split; [done |]. split; [done |].
  intros i a b Ha Hb. by eapply Hsub, Hwalk.
Qed.

(** X11.  Every cycle the detector reports is a circular dependency of the
    batch: each description is made from a list of at least two ids that
    ends with the id it starts with, in which every id is the id of a task
    that lists the next one among its dependencies; and cycles are reported
    exactly when this list of cycles is not empty. *)
Theorem X11_reported_cycles_are_cycles (tasks : list task) (has_cycles : bool)
  (cycles : list string) :
  detect_circular_dependencies tasks = Some (Ok (has_cycles, cycles)) →
  ∃ cs,
    cycles = map (cycle_description (build_task_map tasks)) cs ∧
    Forall (is_cycle (depends_on tasks)) cs ∧
    has_cycles = bool_decide (cs ≠ []).
Proof.
  unfold detect_circular_dependencies, detect_with_fuel.
  destruct (detect_loop _ _ _ _ _ _) as [[[visited cycles']|e]|] eqn:E;
    try done.
  simpl. intros [= <- <-].
  apply detect_loop_cycles in E as (cs & -> & Hcs). exists cs.
  split; [done |]. split.
  - eapply Forall_impl; [exact Hcs |]. intros c.
    apply is_cycle_subrel. apply edge_depends_on.
  - destruct cs as [|c cs]; [done |].
    rewrite (bool_decide_true (_ :: _ ≠ [])) by done.
    apply bool_decide_true. simpl. lia.
Qed.

Lemma X11_reported_cycles_are_cycles_witness :
  ∃ cs,
    ["Task 1 → Task 3 → Task 2 → Task 1"]
    = map (cycle_description
             (build_task_map [sample_task 1 [3%Z]; sample_task 2 [1%Z];
                              sample_task 3 [2%Z]])) cs ∧
    Forall (is_cycle (depends_on [sample_task 1 [3%Z]; sample_task 2 [1%Z];
                                  sample_task 3 [2%Z]])) cs.
Proof.
  destruct (X11_reported_cycles_are_cycles
              [sample_task 1 [3%Z]; sample_task 2 [1%Z]; sample_task 3 [2%Z]]
              true ["Task 1 → Task 3 → Task 2 → Task 1"])
    as (cs & Hcs & Hall & _); [vm_compute; reflexivity |].
  exists cs. split; [exact Hcs | exact Hall].
Defined.

(** ** No cycle is overlooked *)

Section Complete.

Variable graph : list (Z * list Z).





End Complete.




(** ** The graph of a batch *)

Lemma last_with_id_cons (k : Z) (t : task) (tasks : list task) :
  last_with_id k (t :: tasks)
  = match last_with_id k tasks with
    | Some t' => Some t'
    | None => if decide (id t = k) then Some t else None
    end.
Proof.
  unfold last_with_id. rewrite filter_cons.
  destruct (decide (id t = k)); [| by destruct (last _)].
  destruct (filter _ tasks) as [|t' l]; [done |].
  rewrite last_cons. by destruct (last (t' :: l)).
Qed.

Lemma build_graph_lookup (tasks : list task) (k : Z) :
  dict_get (build_graph tasks) k = get_dependencies <$> last_with_id k tasks.
Proof.
  unfold build_graph.
  assert (∀ graph,
    dict_get (fold_left (fun graph t => dict_set graph (id t) (get_dependencies t))
                tasks graph) k
    = match last_with_id k tasks with
      | Some t => Some (get_dependencies t)
      | None => dict_get graph k
      end) as Hgen.
  { induction tasks as [|t tasks IH]; intros graph; simpl; [done |].
    rewrite IH, last_with_id_cons.
    destruct (last_with_id k tasks); [done |].
    rewrite dict_get_set.
    destruct (decide (id t = k)) as [<-|Hne].
    - by rewrite Z.eqb_refl.
    - destruct (Z.eqb_spec k (id t)); [by subst | done]. }
  rewrite Hgen. by destruct (last_with_id k tasks).
Qed.

Lemma build_graph_keys (tasks : list task) :
  NoDup (dict_keys (build_graph tasks)) ∧
  (∀ k, k ∈ dict_keys (build_graph tasks) ↔ k ∈ map id tasks) ∧
  (NoDup (map id tasks) → dict_keys (build_graph tasks) = map id tasks).
Proof.
  unfold build_graph.
  assert (∀ (graph : list (Z * list Z)) k v,
            k ∉ dict_keys graph →
            dict_set graph k v = graph ++ [(k, v)]) as Hfresh.
  { induction graph as [|[k0 v0] graph IH]; intros k v Hk; simpl; [done |].
    destruct (Z.eqb_spec k k0) as [->|Hne].
    - exfalso. apply Hk. by left.
    - rewrite IH; [done |]. intros ?. apply Hk. by right. }
  assert (∀ (graph : list (Z * list Z)) k v,
            NoDup (dict_keys graph) → NoDup (dict_keys (dict_set graph k v)))
    as Hnodup.
  { unfold dict_keys.
    induction graph as [|[k0 v0] graph IH]; intros k v Hnd; simpl.
    - repeat constructor. by intros ?%elem_of_nil.
    - apply NoDup_cons in Hnd as [Hk0 Hnd].
      destruct (Z.eqb_spec k k0) as [->|Hne]; simpl.
      + by constructor.
      + constructor; [| by apply IH].
        intros Hin. apply (dict_keys_set graph k v) in Hin as [?|?]; done. }
  assert (∀ graph,
    NoDup (dict_keys graph) →
    let graph' :=
      fold_left (fun graph t => dict_set graph (id t) (get_dependencies t))
        tasks graph in
    NoDup (dict_keys graph') ∧
    (∀ k, k ∈ dict_keys graph' ↔ k ∈ dict_keys graph ∨ k ∈ map id tasks) ∧
    (NoDup (dict_keys graph ++ map id tasks) →
     dict_keys graph' = dict_keys graph ++ map id tasks)) as Hgen.
  { induction tasks as [|t tasks IH]; intros graph Hnd; simpl.
    - split; [done |]. split; [| by rewrite app_nil_r].
      intros k. split; [by left | by intros [?|?%elem_of_nil]].
    - destruct (IH (dict_set graph (id t) (get_dependencies t)))
        as (Hnd' & Hmem & Hord); [by apply Hnodup |].
      split; [done |]. split.
      + intros k. rewrite Hmem, dict_keys_set, elem_of_cons. tauto.
      + intros Hall. rewrite Hord.
        * rewrite Hfresh.
          -- unfold dict_keys. rewrite map_app. simpl. by rewrite <- app_assoc.
          -- apply NoDup_app in Hall as (_ & Hdisj & _).
             intros Hin. apply (Hdisj _ Hin). by left.
        * rewrite Hfresh.
          -- unfold dict_keys. rewrite map_app. simpl. by rewrite <- app_assoc.
          -- apply NoDup_app in Hall as (_ & Hdisj & _).
             intros Hin. apply (Hdisj _ Hin). by left. }
  destruct (Hgen []) as (Hnd & Hmem & Hord); [constructor |].
  split; [done |]. split.
  - intros k. rewrite Hmem. split; [by intros [?%elem_of_nil|?] | by right].
  - intros H. by apply Hord.
Qed.







(** X13.  The dependency graph of a batch, which is also the graph the
    cycle detector builds, has exactly one entry for each id of the batch;
    the entry of an id holds the dependencies of the last task with that
    id, so that a task that repeats an earlier id replaces the dependencies
    recorded for it.  When the ids of the batch are distinct, the entries
    are in the order of the batch. *)
Theorem X13_dependency_graph (tasks : list task) :
  build_dependency_graph tasks = build_graph tasks ∧
  (∀ k, dict_get (build_dependency_graph tasks) k
        = get_dependencies <$> last_with_id k tasks) ∧
  NoDup (dict_keys (build_dependency_graph tasks)) ∧
  (∀ k, k ∈ dict_keys (build_dependency_graph tasks) ↔ k ∈ map id tasks) ∧
  (NoDup (map id tasks) →
   dict_keys (build_dependency_graph tasks) = map id tasks).
Proof.
  split; [done |]. split; [apply build_graph_lookup |].
  apply build_graph_keys.
Qed.

Lemma X13_dependency_graph_witness :
  dict_keys (build_dependency_graph [sample_task 4 []; sample_task 2 [4%Z]])
  = [4; 2]%Z.
Proof.
  apply (X13_dependency_graph [sample_task 4 []; sample_task 2 [4%Z]]).
  vm_compute. repeat constructor; intros H; repeat (apply elem_of_cons in H as [H|H]; [discriminate H |]); by apply elem_of_nil in H.
Defined.

(** * Properties of the request handling *)

(** ** Task ids *)

Lemma add_task_ids_from_length (i : nat) (tasks : list raw_task) :
  length (add_task_ids_from i tasks) = length tasks.
Proof. revert i. induction tasks as [|t tasks IH]; intros i; simpl; [done |]. by rewrite IH. Qed.

Lemma add_task_ids_from_lookup (i k : nat) (tasks : list raw_task)
  (task : raw_task) :
  tasks !! k = Some task →
  ∃ task',
    add_task_ids_from i tasks !! k = Some task' ∧
    raw_id task' = Some (default (Z.of_nat (i + k) + 1)%Z (raw_id task)) ∧
    raw_title task' = raw_title task ∧
    raw_due_date task' = raw_due_date task ∧
    raw_estimated_hours task' = raw_estimated_hours task ∧
    raw_importance task' = raw_importance task ∧
    raw_dependencies task' = raw_dependencies task.
Proof.
  revert i k. induction tasks as [|t tasks IH]; intros i k; [done |].
  destruct k as [|k]; simpl.
  - intros [= ->]. rewrite Nat.add_0_r.
    destruct (raw_id task) as [z|] eqn:E; eexists; (split; [done |]); simpl;
      by rewrite ?E.
  - intros Hk. destruct (IH (S i) k Hk) as (task' & Hlook & Hid & Hrest).
    exists task'. split; [done |]. split; [| done].
    rewrite Hid. do 3 f_equal. lia.
Qed.

Lemma add_task_ids_from_fixed (i : nat) (tasks : list raw_task) :
  Forall (fun task => is_Some (raw_id task)) tasks →
  add_task_ids_from i tasks = tasks.
Proof.
  intros Hall. revert i. induction Hall as [|t tasks [z Hz] _ IH]; intros i;
    simpl; [done |].
  by rewrite Hz, IH.
Qed.

Lemma add_task_ids_from_is_Some (i : nat) (tasks : list raw_task) :
  Forall (fun task => is_Some (raw_id task)) (add_task_ids_from i tasks).
Proof.
  revert i. induction tasks as [|t tasks IH]; intros i; simpl; [constructor |].
  constructor; [| apply IH].
  destruct (raw_id t) as [z|] eqn:E; [by rewrite E | by eexists].
Qed.

(** X14.  Giving ids to the tasks of a request keeps their number and their
    order and changes no other field; a task that has an id keeps it, and a
    task without one gets its position in the list, counted from 1.
    Afterwards every task has an id, and doing it once more changes
    nothing. *)
Theorem X14_add_task_ids (tasks : list raw_task) :
  length (add_task_ids tasks) = length tasks ∧
  (∀ (k : nat) (task : raw_task), tasks !! k = Some task →
     ∃ task',
       add_task_ids tasks !! k = Some task' ∧
       raw_id task' = Some (default (Z.of_nat k + 1)%Z (raw_id task)) ∧
       raw_title task' = raw_title task ∧
       raw_due_date task' = raw_due_date task ∧
       raw_estimated_hours task' = raw_estimated_hours task ∧
       raw_importance task' = raw_importance task ∧
       raw_dependencies task' = raw_dependencies task) ∧
  Forall (fun task => is_Some (raw_id task)) (add_task_ids tasks) ∧
  add_task_ids (add_task_ids tasks) = add_task_ids tasks.
Proof.
  split; [apply add_task_ids_from_length |].
  split; [intros k task; apply (add_task_ids_from_lookup 0) |].
  split; [apply add_task_ids_from_is_Some |].
  apply add_task_ids_from_fixed, add_task_ids_from_is_Some.
Qed.

Lemma X14_add_task_ids_witness :
  ∃ task',
    add_task_ids [raw_sample "A" "2025-12-03" (PyInt 3) (PyInt 8) None;
                  raw_sample "B" "2025-12-08" (PyInt 1) (PyInt 5) None]
      !! 1%nat = Some task' ∧
    raw_id task' = Some 2%Z.
Proof.
  destruct (proj1 (proj2 (X14_add_task_ids
              [raw_sample "A" "2025-12-03" (PyInt 3) (PyInt 8) None;
               raw_sample "B" "2025-12-08" (PyInt 1) (PyInt 5) None]))
              1%nat (raw_sample "B" "2025-12-08" (PyInt 1) (PyInt 5) None)
              eq_refl)
    as (task' & Hlook & Hid & _).
  exists task'. split; [exact Hlook | exact Hid].
Defined.

(** ** Validation *)

Section ValidationFacts.

Variable strptime_ymd : string -> option Z.
Variable float_of_str : string -> option Q.
Variable int_of_str : string -> option Z.
Variable str_strip : string -> string.
Variable str_len : string -> nat.

Local Abbreviation validate :=
  (validate_task_data strptime_ymd float_of_str int_of_str str_strip str_len).
Local Abbreviation accepted_task :=
  (accepted strptime_ymd float_of_str int_of_str str_strip str_len).

Lemma check_required_nil (task_dict : raw_task) :
  check_required task_dict = [] ↔
  (∃ v, raw_title task_dict = Some v ∧ is_none v = false) ∧
  (∃ v, raw_due_date task_dict = Some v ∧ is_none v = false) ∧
  (∃ v, raw_estimated_hours task_dict = Some v ∧ is_none v = false) ∧
  (∃ v, raw_importance task_dict = Some v ∧ is_none v = false).
Proof.
  assert (∀ (field : string) (value : option jsonval),
            match value with
            | None => [MissingField field]
            | Some v => if is_none v then [MissingField field] else []
            end = [] ↔ ∃ v, value = Some v ∧ is_none v = false) as Hitem.
  { intros field [v|]; [destruct (is_none v) eqn:E |].
    - split; [done |]. intros (? & [= <-] & ?). congruence.
    - split; [| done]. intros _. by exists v.
    - split; [done |]. by intros (? & ? & _). }
  unfold check_required. simpl.
  rewrite !app_nil, !Hitem. tauto.
Qed.

Lemma check_title_nil (task_dict : raw_task) (v : jsonval) :
  raw_title task_dict = Some v →
  (check_title str_strip str_len task_dict = [] ↔
   ∃ title, v = JAtom (PyStr title) ∧
     str_len (str_strip title) ≠ 0%nat ∧ (str_len title ≤ 255)%nat).
Proof.
  intros Hv. unfold check_title. rewrite Hv.
  destruct v as [[| | | |s| |]| |];
    try (split; [done | by intros (? & ? & _)]).
  destruct (Nat.eqb_spec (str_len (str_strip s)) 0) as [H0|H0].
  - split; [done |]. intros (? & [= <-] & ? & _). done.
  - destruct (Nat.ltb_spec 255 (str_len s)) as [Hlen|Hlen].
    + split; [done |]. intros (? & [= <-] & _ & ?). lia.
    + split; [| done]. intros _. exists s. split; [done |]. split; [done | lia].
Qed.

Lemma check_due_date_nil (task_dict : raw_task) (v : jsonval) :
  raw_due_date task_dict = Some v →
  (check_due_date strptime_ymd task_dict = [] ↔
   (∃ due o, v = JAtom (PyStr due) ∧ strptime_ymd due = Some o) ∨
   v = JAtom PyDateTime).
Proof.
  intros Hv. unfold check_due_date. rewrite Hv.
  destruct v as [[| | | |s| |]| |];
    try (split; [done | by intros [(? & ? & ? & _)|?]]).
  - destruct (strptime_ymd s) as [o|] eqn:E.
    + split; [| done]. intros _. left. by exists s, o.
    + split; [done |]. intros [(? & ? & [= <-] & ?)|?]; congruence.
  - split; [by right | done].
Qed.

Lemma check_estimated_hours_nil (task_dict : raw_task) (v : jsonval) :
  raw_estimated_hours task_dict = Some v →
  (check_estimated_hours float_of_str task_dict = [] ↔
   ∃ h, py_float float_of_str v = Ok h ∧ 0 < h).
Proof.
  intros Hv. unfold check_estimated_hours. rewrite Hv.
  destruct (py_float float_of_str v) as [h|e].
  - destruct (Qle_b h 0) eqn:E.
    + apply Qle_b_true in E. split; [done |]. intros (? & [= <-] & ?). lra.
    + apply Qle_b_false in E. split; [| done]. intros _. by exists h.
  - split; [done |]. by intros (? & ? & _).
Qed.

Lemma check_importance_nil (task_dict : raw_task) (v : jsonval) :
  raw_importance task_dict = Some v →
  (check_importance int_of_str task_dict = [] ↔
   ∃ z, py_int int_of_str v = Ok z ∧ (1 ≤ z ≤ 10)%Z).
Proof.
  intros Hv. unfold check_importance. rewrite Hv.
  destruct (py_int int_of_str v) as [z|e].
  - destruct (Z.ltb_spec z 1); simpl.
    + split; [done |]. intros (? & [= <-] & ?). lia.
    + destruct (Z.ltb_spec 10 z).
      * split; [done |]. intros (? & [= <-] & ?). lia.
      * split; [| done]. intros _. exists z. split; [done | lia].
  - split; [done |]. by intros (? & ? & _).
Qed.

Lemma check_dependency_ids_nil (deps : list jsonval) :
  check_dependency_ids deps = [] ↔ Forall (fun dep => is_int dep = true) deps.
Proof.
  induction deps as [|dep deps IH]; simpl; [done |].
  destruct (is_int dep) eqn:E.
  - rewrite IH. split; [by constructor | by intros [_ ?]%Forall_cons].
  - split; [done |]. intros [? _]%Forall_cons. congruence.
Qed.

Lemma check_dependencies_nil (task_dict : raw_task) :
  check_dependencies task_dict = [] ↔
  (raw_dependencies task_dict = None ∨
   ∃ deps, raw_dependencies task_dict = Some (JList deps) ∧
     Forall (fun dep => is_int dep = true) deps).
Proof.
  unfold check_dependencies.
  destruct (raw_dependencies task_dict) as [[v|deps|entries]|].
  - split; [done |]. by intros [?|(? & ? & _)].
  - rewrite check_dependency_ids_nil. split.
    + intros H. right. by exists deps.
    + by intros [?|(? & [= <-] & ?)].
  - split; [done |]. by intros [?|(? & ? & _)].
  - split; [by left | done].
Qed.

Lemma validate_errors (task_dict : raw_task) :
  (validate task_dict).2
  = check_required task_dict ++ check_title str_strip str_len task_dict
    ++ check_due_date strptime_ymd task_dict
    ++ check_estimated_hours float_of_str task_dict
    ++ check_importance int_of_str task_dict
    ++ check_dependencies task_dict.
Proof. unfold validate_task_data. simpl. by rewrite <- !app_assoc. Qed.

Lemma validate_nil_accepted (task_dict : raw_task) :
  (validate task_dict).2 = [] ↔ accepted_task task_dict.
Proof.
  rewrite validate_errors, !app_nil, check_required_nil, check_dependencies_nil.
  unfold accepted. split.
  - intros (((v1 & E1 & N1) & (v2 & E2 & N2) & (v3 & E3 & N3) & (v4 & E4 & N4))
            & Ct & Cd & Ch & Ci & Cdeps).
    apply (check_title_nil _ _ E1) in Ct as (title & -> & Cblank & Clen).
    apply (check_due_date_nil _ _ E2) in Cd.
    apply (check_estimated_hours_nil _ _ E3) in Ch as (h & Cfloat & Cpos).
    apply (check_importance_nil _ _ E4) in Ci as (z & Cint & Crange).
    split; [by exists title |].
    split.
    { destruct Cd as [(due & o & -> & Cparse)| ->];
        [left; by exists due, o | by right]. }
    split; [exists v3, h; split; [done |]; split; [done | lra] |].
    split; [by exists v4, z |]. done.
  - intros ((title & E1 & Cblank & Clen) & Cdue
            & (v3 & h & E3 & Cfloat & Cpos) & (v4 & z & E4 & Cint & Crange)
            & Cdeps).
    assert (∃ v2, raw_due_date task_dict = Some v2 ∧ is_none v2 = false ∧
              ((∃ due o, v2 = JAtom (PyStr due) ∧ strptime_ymd due = Some o) ∨
               v2 = JAtom PyDateTime)) as (v2 & E2 & N2 & Cd).
    { destruct Cdue as [(due & o & E2 & Cparse)|E2];
        (eexists; split; [exact E2 |]; split; [done |]);
        [left; by exists due, o | by right]. }
    split.
    { split; [by eexists |]. split; [by eexists |].
      split; [exists v3; split; [done |]; by destruct v3 as [[]| |] |].
      exists v4; split; [done |]; by destruct v4 as [[]| |]. }
    split; [apply (check_title_nil _ _ E1); by exists title |].
    split; [by apply (check_due_date_nil _ _ E2) |].
    split; [apply (check_estimated_hours_nil _ _ E3); exists h; split; [done | lra] |].
    split; [apply (check_importance_nil _ _ E4); by exists z |]. done.
Qed.

Lemma validate_is_valid (task_dict : raw_task) :
  (validate task_dict).1 = true ↔ (validate task_dict).2 = [].
Proof.
  unfold validate_task_data. simpl. rewrite bool_decide_eq_true.
  apply length_zero_iff_nil.
Qed.


(** X16.  Validation does not look at the id: two tasks that differ only in
    their id get the same verdict and the same errors, so that giving ids
    to the tasks of a request changes the outcome of validation for none of
    them. *)
Theorem X16_validation_ignores_id (tasks : list raw_task) :
  (∀ task task',
     raw_title task = raw_title task' →
     raw_due_date task = raw_due_date task' →
     raw_estimated_hours task = raw_estimated_hours task' →
     raw_importance task = raw_importance task' →
     raw_dependencies task = raw_dependencies task' →
     validate task = validate task') ∧
  map validate (add_task_ids tasks) = map validate tasks.
Proof.
  assert (∀ task task',
     raw_title task = raw_title task' →
     raw_due_date task = raw_due_date task' →
     raw_estimated_hours task = raw_estimated_hours task' →
     raw_importance task = raw_importance task' →
     raw_dependencies task = raw_dependencies task' →
     validate task = validate task') as Hsame.
  { intros task task' Ht Hd Hh Hi Hdeps.
    unfold validate_task_data, check_required, check_title, check_due_date,
      check_estimated_hours, check_importance, check_dependencies. simpl.
    by rewrite Ht, Hd, Hh, Hi, Hdeps. }
  split; [done |].
  apply list_eq. intros k. rewrite !list_lookup_fmap.
  destruct (tasks !! k) as [task|] eqn:E.
  - destruct (add_task_ids_from_lookup 0 k tasks task E)
      as (task' & Hlook & _ & Et & Ed & Eh & Ei & Edeps).
    unfold add_task_ids. rewrite Hlook.
    simpl. f_equal. by apply Hsame.
  - apply lookup_ge_None in E.
    rewrite (proj2 (lookup_ge_None (add_task_ids tasks) k)); [done |].
    unfold add_task_ids. by rewrite add_task_ids_from_length.
Qed.

End ValidationFacts.


Lemma X16_validation_ignores_id_witness :
  map (validate_task_data strptime_padded sample_float_of_str sample_int_of_str
         (fun s => s) String.length)
    (add_task_ids [raw_sample "" "2025-12-03" (PyInt 3) (PyInt 8) None])
  = [(false, [TitleEmpty])].
Proof.
  rewrite (proj2 (X16_validation_ignores_id strptime_padded sample_float_of_str
                    sample_int_of_str (fun s => s) String.length _)).
  reflexivity.
Defined.

(** ** From validation to scoring *)

Section ViewFacts.

Variable date_today : Z.
Variable strptime_ymd : string -> option Z.
Variable float_of_str : string -> option Q.
Variable int_of_str : string -> option Z.
Variable str_strip : string -> string.
Variable str_len : string -> nat.

Local Abbreviation validate :=
  (validate_task_data strptime_ymd float_of_str int_of_str str_strip str_len).
Local Abbreviation accepted_task :=
  (accepted strptime_ymd float_of_str int_of_str str_strip str_len).
Local Abbreviation valid :=
  (is_valid strptime_ymd float_of_str int_of_str str_strip str_len).

Lemma is_valid_accepted (task_dict : raw_task) :
  valid task_dict = true ↔ accepted_task task_dict.
Proof.
  unfold is_valid. by rewrite validate_is_valid, validate_nil_accepted.
Qed.

(** An accepted task with an id can be read as a task record. *)
Lemma accepted_read (raw : raw_task) (i : Z) :
  accepted_task raw → raw_id raw = Some i →
  ∃ t, read_task raw = Some t ∧ id t = i ∧
    raw_due_date raw = Some (JAtom (due_date t)) ∧
    ((∃ s, due_date t = PyStr s) ∨ due_date t = PyDateTime) ∧
    raw_estimated_hours raw = Some (JAtom (estimated_hours t)) ∧
    raw_importance raw = Some (JAtom (importance t)) ∧
    match estimated_hours t with
    | PyBool _ | PyInt _ | PyFloat _ | PyStr _ => true | _ => false
    end = true ∧
    match importance t with
    | PyBool _ | PyInt _ | PyFloat _ | PyStr _ => true | _ => false
    end = true.
Proof.
  intros ((title & Et & _) & Hdue & (vh & h & Eh & Hfloat & _)
          & (vi & z & Ei & Hint & _) & Hdeps) Hid.
  assert (∃ a, raw_due_date raw = Some (JAtom a) ∧
            ((∃ s, a = PyStr s) ∨ a = PyDateTime)) as (ad & Ed & Had).
  { destruct Hdue as [(due & o & Ed & _)|Ed];
      (eexists; split; [exact Ed |]); [left; by eexists | by right]. }
  assert (∃ a, vh = JAtom a ∧
            match a with
            | PyBool _ | PyInt _ | PyFloat _ | PyStr _ => true | _ => false
            end = true) as (ah & -> & Hah)
    by (destruct vh as [[]| |]; try done; eexists; done).
  assert (∃ a, vi = JAtom a ∧
            match a with
            | PyBool _ | PyInt _ | PyFloat _ | PyStr _ => true | _ => false
            end = true) as (ai & -> & Hai)
    by (destruct vi as [[]| |]; try done; eexists; done).
  assert (∃ deps,
            match raw_dependencies raw with
            | None => Some None
            | Some (JList deps) => Some <$> mapM dependency_id deps
            | Some _ => None
            end = Some deps) as [deps Edeps].
  { destruct Hdeps as [->|(items & -> & Hitems)]; [by eexists |].
    assert (is_Some (mapM dependency_id items)) as [l ->].
    { apply mapM_is_Some. eapply Forall_impl; [exact Hitems |].
      intros [[]| |]; simpl; try done; by eexists. }
    by eexists. }
  unfold read_task. rewrite Hid, Et, Ed, Eh, Ei. simpl. rewrite Edeps. simpl.
  eexists. split; [done |]. simpl. done.
Qed.

Lemma accepted_task_scorable (raw : raw_task) (i : Z) :
  accepted_task raw → raw_id raw = Some i →
  ∃ t, read_task raw = Some t ∧ id t = i ∧
    (scorable t = false
     ↔ is_text (raw_estimated_hours raw) ∨ is_text (raw_importance raw)
       ∨ raw_due_date raw = Some (JAtom PyDateTime)) ∧
    (scorable t = false →
     ∀ all_tasks strategy,
       calculate_final_score date_today strptime_ymd t all_tasks strategy
       = Raise TypeError).
Proof.
  intros Hacc Hid.
  destruct (accepted_read raw i Hacc Hid)
    as (t & Hread & Hi & Ed & Hdue & Eh & Ei & Hh & Himp).
  exists t. split; [done |]. split; [done |]. split.
  - unfold scorable, is_text. rewrite Ed, Eh, Ei.
    destruct Hdue as [[s ->]| ->];
      destruct (estimated_hours t) as [| | | |sh| |]; try done;
      destruct (importance t) as [| | | |si| |]; try done; simpl;
      (split;
       [try done; intros _;
          first [by left; eexists | by right; left; eexists | by right; right]
       | try done;
         intros [[? [=]]|[[? [=]]|[=]]] ]).
  - intros Hsc all_tasks strategy.
    by apply calculate_final_score_defined.
Qed.

(** X17.  A task that validation accepts can still be one that cannot be
    scored: this is so exactly when it writes its hours or its importance
    as text, such as "3", which [float] and [int] accept, or when its due
    date is a [datetime] object, which cannot be subtracted from the date
    of today.  The final score of such a task raises TypeError, whatever
    the day, the batch and the strategy. *)
Theorem X17_accepted_not_scorable (raw : raw_task) (i : Z) :
  accepted_task raw → raw_id raw = Some i →
  ∃ t, read_task raw = Some t ∧ id t = i ∧
    (scorable t = false
     ↔ is_text (raw_estimated_hours raw) ∨ is_text (raw_importance raw)
       ∨ raw_due_date raw = Some (JAtom PyDateTime)) ∧
    (scorable t = false →
     ∀ all_tasks strategy,
       calculate_final_score date_today strptime_ymd t all_tasks strategy
       = Raise TypeError).
Proof. apply accepted_task_scorable. Qed.

End ViewFacts.

Lemma X17_accepted_not_scorable_witness :
  ∃ t,
    read_task {| raw_id := Some 7%Z;
                 raw_title := Some (JAtom (PyStr "Plan"));
                 raw_due_date := Some (JAtom (PyStr "2025-12-03"));
                 raw_estimated_hours := Some (JAtom (PyInt 2));
                 raw_importance := Some (JAtom (PyStr "5"));
                 raw_dependencies := None |} = Some t ∧
    calculate_final_score 739586 strptime_padded t [t] "SMART_BALANCE"
    = Raise TypeError.
Proof.
  destruct (X17_accepted_not_scorable 739586 strptime_padded
              sample_float_of_str sample_int_of_str (fun s => s) String.length
              {| raw_id := Some 7%Z;
                 raw_title := Some (JAtom (PyStr "Plan"));
                 raw_due_date := Some (JAtom (PyStr "2025-12-03"));
                 raw_estimated_hours := Some (JAtom (PyInt 2));
                 raw_importance := Some (JAtom (PyStr "5"));
                 raw_dependencies := None |} 7%Z)
    as (t & Hread & _ & Hiff & Hraise).
  - split; [exists "Plan"; split; [reflexivity |]; simpl; lia |].
    split; [left; exists "2025-12-03", 739588%Z; split; reflexivity |].
    split; [exists (JAtom (PyInt 2)), 2; split; [reflexivity |];
            split; [reflexivity | lra] |].
    split; [exists (JAtom (PyStr "5")), 5%Z; split; [reflexivity |];
            split; [reflexivity | lia] |].
    by left.
  - reflexivity.
  - exists t. split; [exact Hread |]. apply Hraise. apply Hiff.
    right. left. by exists "5".
Defined.

(** ** The analysis of a request *)

Section AnalyzeFacts.

Variable date_today : Z.
Variable strptime_ymd : string -> option Z.
Variable float_of_str : string -> option Q.
Variable int_of_str : string -> option Z.
Variable str_strip : string -> string.
Variable str_len : string -> nat.

Local Abbreviation validate :=
  (validate_task_data strptime_ymd float_of_str int_of_str str_strip str_len).
Local Abbreviation accepted_task :=
  (accepted strptime_ymd float_of_str int_of_str str_strip str_len).
Local Abbreviation valid :=
  (is_valid strptime_ymd float_of_str int_of_str str_strip str_len).
Local Abbreviation validate_from :=
  (validate_all strptime_ymd float_of_str int_of_str str_strip str_len).
Local Abbreviation analyze :=
  (analyze_tasks_post date_today strptime_ymd float_of_str int_of_str
     str_strip str_len).

Lemma validate_all_cons (i : nat) (task : raw_task) (tasks : list raw_task) :
  validate_from i (task :: tasks)
  = if negb (validate task).1
    then (map (ValidationWarning i
                 (default (JAtom (PyStr ("Task " +:+ str_of_int (Z.of_nat i + 1))))
                    (raw_title task)))
            (validate task).2 ++ (validate_from (S i) tasks).1,
          (validate_from (S i) tasks).2)
    else ((validate_from (S i) tasks).1,
          task :: (validate_from (S i) tasks).2).
Proof.
  cbn -[validate_task_data].
  destruct (validate task) as [ok errors].
  by destruct (validate_from (S i) tasks) as [ws vs].
Qed.

Lemma validate_all_valid (i : nat) (tasks : list raw_task) :
  (validate_from i tasks).2 = filter (fun task => valid task = true) tasks.
Proof.
  revert i. induction tasks as [|task tasks IH]; intros i; [done |].
  rewrite validate_all_cons, filter_cons.
  change (validate task).1 with (valid task).
  destruct (decide (valid task = true)) as [E|E].
  - rewrite E. simpl. by rewrite IH.
  - apply not_true_is_false in E. rewrite E. simpl. apply IH.
Qed.

Lemma validate_all_warnings (i : nat) (tasks : list raw_task) (w : warning) :
  w ∈ (validate_from i tasks).1 ↔
  ∃ (k : nat) (task : raw_task) (e : validation_error),
    tasks !! k = Some task ∧ e ∈ (validate task).2 ∧
    w = ValidationWarning (i + k)
          (default (JAtom (PyStr ("Task " +:+ str_of_int (Z.of_nat (i + k) + 1))))
             (raw_title task)) e.
Proof.
  revert i. induction tasks as [|task tasks IH]; intros i.
  - split; [by intros ?%elem_of_nil | by intros (k & ? & ? & ? & _)].
  - specialize (IH (S i)). rewrite validate_all_cons.
    pose proof (validate_is_valid strptime_ymd float_of_str int_of_str
                  str_strip str_len task) as Hok.
    assert ((∃ k task0 e, tasks !! k = Some task0 ∧ e ∈ (validate task0).2 ∧
               w = ValidationWarning (S i + k)
                     (default (JAtom (PyStr ("Task " +:+
                                 str_of_int (Z.of_nat (S i + k) + 1))))
                        (raw_title task0)) e)
            ↔ ∃ k task0 e, (task :: tasks) !! S k = Some task0 ∧
                e ∈ (validate task0).2 ∧
                w = ValidationWarning (i + S k)
                      (default (JAtom (PyStr ("Task " +:+
                                  str_of_int (Z.of_nat (i + S k) + 1))))
                         (raw_title task0)) e) as Hshift.
    { split; intros (k & t0 & e & ? & ? & ->); exists k, t0, e;
        (split; [done |]); (split; [done |]);
        by replace (i + S k)%nat with (S i + k)%nat by lia. }
    destruct (validate task).1 eqn:Eok; cbn [negb fst snd].
    + rewrite IH, Hshift. split.
      * intros (k & t0 & e & ? & ? & ?). by exists (S k), t0, e.
      * intros ([|k] & t0 & e & Hk & He & Hw).
        -- simpl in Hk. assert (t0 = task) by congruence. subst t0.
           rewrite (proj1 Hok eq_refl) in He. by apply elem_of_nil in He.
        -- by exists k, t0, e.
    + rewrite elem_of_app, IH, Hshift, list_elem_of_fmap. split.
      * intros [(e & -> & He)|(k & t0 & e & ? & ? & ?)].
        -- exists 0%nat, task, e. rewrite Nat.add_0_r. done.
        -- by exists (S k), t0, e.
      * intros ([|k] & t0 & e & Hk & He & Hw).
        -- left. simpl in Hk. assert (t0 = task) by congruence. subst t0.
           rewrite Nat.add_0_r in Hw. by exists e.
        -- right. by exists k, t0, e.
Qed.

(** The valid tasks of a request, once they have ids, can all be read. *)
Lemma valid_tasks_read (tasks : list raw_task) :
  ∃ ts,
    mapM read_task (filter (fun task => valid task = true) (add_task_ids tasks))
    = Some ts ∧
    Forall2 (fun raw t =>
      valid raw = true ∧
      (scorable t = false
       ↔ is_text (raw_estimated_hours raw) ∨ is_text (raw_importance raw)
         ∨ raw_due_date raw = Some (JAtom PyDateTime)))
      (filter (fun task => valid task = true) (add_task_ids tasks)) ts.
Proof.
  pose proof (add_task_ids_from_is_Some 0 tasks) as Hids.
  fold (add_task_ids tasks) in Hids.
  induction (add_task_ids tasks) as [|raw raws IH]; [by exists [] |].
  apply Forall_cons in Hids as [[i Hi] Hids].
  destruct (IH Hids) as (ts & Hts & Hall).
  rewrite filter_cons. destruct (decide (valid raw = true)) as [Hv|Hv]; [| by exists ts].
  destruct (accepted_task_scorable date_today strptime_ymd float_of_str
              int_of_str str_strip str_len raw i)
    as (t & Hread & _ & Hiff & _);
    [by apply is_valid_accepted | done |].
  exists (t :: ts). split.
  - rewrite mapM_Some. constructor; [done | by apply mapM_Some].
  - by constructor.
Qed.

(** *** Ids and validation *)

Lemma add_task_ids_from_same_fields (i : nat) (tasks : list raw_task) :
  Forall2 same_fields tasks (add_task_ids_from i tasks).
Proof.
  revert i. induction tasks as [|t tasks IH]; intros i; simpl;
    constructor; [| apply IH].
  by destruct (raw_id t).
Qed.

Lemma validate_same_fields (task task' : raw_task) :
  same_fields task task' → validate task' = validate task.
Proof.
  intros (Ht & Hd & Hh & Hi & Hdeps).
  unfold validate_task_data, check_required, check_title, check_due_date,
    check_estimated_hours, check_importance, check_dependencies. simpl.
  by rewrite Ht, Hd, Hh, Hi, Hdeps.
Qed.

Lemma Forall2_filter_rel {A B : Type} (R : A → B → Prop)
  (P : A → Prop) (Q : B → Prop)
  `{!∀ x, Decision (P x)} `{!∀ y, Decision (Q y)} (l : list A) (k : list B) :
  Forall2 R l k → (∀ x y, R x y → (P x ↔ Q y)) →
  Forall2 R (filter P l) (filter Q k).
Proof.
  intros HR HPQ. induction HR as [|x y l k Hxy _ IH]; [constructor |].
  rewrite !filter_cons.
  destruct (decide (P x)) as [Hx|Hx], (decide (Q y)) as [Hy|Hy];
    [by constructor | | | done];
    exfalso; apply (HPQ _ _) in Hxy; tauto.
Qed.

(** The valid tasks of a request are the same with and without the ids. *)
Lemma valid_tasks_same_fields (tasks : list raw_task) :
  Forall2 same_fields
    (filter (fun task => valid task = true) tasks)
    (filter (fun task => valid task = true) (add_task_ids tasks)).
Proof.
  apply Forall2_filter_rel; [apply add_task_ids_from_same_fields |].
  intros x y Hxy. unfold is_valid. by rewrite (validate_same_fields x y).
Qed.

(** *** The shape of the answer *)

Lemma analyze_tasks_post_eq (tasks : list raw_task) (strategy : string) :
  ∃ ts cycles,
    mapM read_task (filter (fun task => valid task = true) (add_task_ids tasks))
    = Some ts ∧
    Forall2 (fun raw t =>
      valid raw = true ∧
      (scorable t = false
       ↔ is_text (raw_estimated_hours raw) ∨ is_text (raw_importance raw)
         ∨ raw_due_date raw = Some (JAtom PyDateTime)))
      (filter (fun task => valid task = true) (add_task_ids tasks)) ts ∧
    detect_circular_dependencies ts
    = Some (Ok (bool_decide (0 < length cycles)%nat, cycles)) ∧
    analyze tasks strategy
    = Some (
        match ts with
        | [] => Ok (NoValidTasks (validate_from 0 (add_task_ids tasks)).1)
        | _ =>
            scored ← rank date_today strptime_ymd ts strategy;
            Ok (Analysis scored
                  ((validate_from 0 (add_task_ids tasks)).1
                   ++ (if bool_decide (0 < length cycles)%nat
                       then [CircularDependencyWarning cycles] else []))
                  strategy (bool_decide (0 < length cycles)%nat) cycles)
        end).
Proof.
  destruct (valid_tasks_read tasks) as (ts & Hts & Hall).
  destruct (detect_circular_dependencies_total ts) as (cycles & Hdet & _).
  exists ts, cycles. split; [done |]. split; [done |]. split; [done |].
  unfold analyze_tasks_post.
  pose proof (validate_all_valid 0 (add_task_ids tasks)) as Hvs.
  destruct (validate_from 0 (add_task_ids tasks)) as [ws vs]. simpl in Hvs.
  subst vs. cbn [fst].
  destruct (filter _ (add_task_ids tasks)) as [|raw raws] eqn:Ef.
  { apply Forall2_nil_inv_l in Hall. by subst ts. }
  rewrite Hts. cbn [mbind option_bind]. rewrite Hdet.
  destruct ts as [|t ts']; [by apply Forall2_nil_inv_r in Hall |].
  f_equal.
  destruct (bool_decide (0 < length cycles)%nat) eqn:Ec; [done |].
  apply bool_decide_eq_false in Ec.
  destruct cycles; [by rewrite app_nil_r | simpl in Ec; lia].
Qed.

(** What an [Analysis] answer is made of. *)
Lemma analyze_tasks_post_Analysis (tasks : list raw_task) (strategy : string)
  (ranked : list scored_task) (ws : list warning) (s : string) (hc : bool)
  (details : list string) :
  analyze tasks strategy = Some (Ok (Analysis ranked ws s hc details)) →
  s = strategy ∧
  ∃ ts,
    ts ≠ [] ∧
    mapM read_task (filter (fun task => valid task = true) (add_task_ids tasks))
    = Some ts ∧
    rank date_today strptime_ymd ts strategy = Ok ranked ∧
    detect_circular_dependencies ts = Some (Ok (hc, details)) ∧
    hc = bool_decide (0 < length details)%nat ∧
    ws = (validate_from 0 (add_task_ids tasks)).1
         ++ (if hc then [CircularDependencyWarning details] else []).
Proof.
  destruct (analyze_tasks_post_eq tasks strategy)
    as (ts & cycles & Hts & _ & Hdet & ->).
  destruct ts as [|t ts']; [done |].
  destruct (rank date_today strptime_ymd (t :: ts') strategy)
    as [scored|e] eqn:Hrank; [| done].
  cbn [mbind pyres_bind]. intros [= <- <- <- <- <-].
  split; [done |]. by exists (t :: ts').
Qed.

(** X19.  An answer with a ranking echoes the strategy name, ranks exactly
    the valid tasks of the request (as many as validation accepts), and says
    that there are circular dependencies exactly when it lists some.  Its
    warnings are one validation warning for every error of every invalid
    task, with the position of the task in the request and its title (or
    [Task n] when it has none), and the circular dependency warning when
    there are cycles; so there is no warning exactly when every task is
    valid and there is no cycle. *)
Theorem X19_analysis_content (tasks : list raw_task) (strategy : string)
  (ranked : list scored_task) (ws : list warning) (s : string) (hc : bool)
  (details : list string) :
  analyze tasks strategy = Some (Ok (Analysis ranked ws s hc details)) →
  s = strategy ∧
  (∃ ts,
     mapM read_task (filter (fun task => valid task = true) (add_task_ids tasks))
     = Some ts ∧
     rank date_today strptime_ymd ts strategy = Ok ranked ∧
     detect_circular_dependencies ts = Some (Ok (hc, details))) ∧
  length ranked = length (filter (fun task => valid task = true) tasks) ∧
  (1 ≤ length ranked)%nat ∧
  (hc = true ↔ details ≠ []) ∧
  (∀ w, w ∈ ws ↔
     (∃ (k : nat) (task : raw_task) (e : validation_error),
        tasks !! k = Some task ∧ e ∈ (validate task).2 ∧
        w = ValidationWarning k
              (default (JAtom (PyStr ("Task " +:+ str_of_int (Z.of_nat k + 1))))
                 (raw_title task)) e)
     ∨ (hc = true ∧ w = CircularDependencyWarning details)) ∧
  (ws = [] ↔ Forall (fun task => valid task = true) tasks ∧ hc = false).
Proof.
  intros (-> & ts & Hne & Hts & Hrank & Hdet & Hhc & Hws)%analyze_tasks_post_Analysis.
  pose proof (add_task_ids_from_same_fields 0 tasks) as Hsame.
  fold (add_task_ids tasks) in Hsame.
  assert (length ranked = length ts) as Hlen.
  { pose proof Hrank as (scored & Hscored & ->)%rank_Ok.
    apply score_tasks_Ok, Forall2_length in Hscored.
    by rewrite (sort_reverse_perm priority_score scored). }
  assert (∀ w, w ∈ (validate_from 0 (add_task_ids tasks)).1 ↔
     ∃ (k : nat) (task : raw_task) (e : validation_error),
        tasks !! k = Some task ∧ e ∈ (validate task).2 ∧
        w = ValidationWarning k
              (default (JAtom (PyStr ("Task " +:+ str_of_int (Z.of_nat k + 1))))
                 (raw_title task)) e) as Hval.
  { intros w. rewrite validate_all_warnings. split.
    - intros (k & task' & e & Hk & He & ->).
      destruct (Forall2_lookup_r _ _ _ _ _ Hsame Hk) as (task & Hk' & Hf).
      exists k, task, e. split; [done |].
      rewrite <- (validate_same_fields task task' Hf).
      destruct Hf as (<- & _). done.
    - intros (k & task & e & Hk & He & ->).
      destruct (Forall2_lookup_l _ _ _ _ _ Hsame Hk) as (task' & Hk' & Hf).
      exists k, task', e. split; [done |].
      rewrite (validate_same_fields task task' Hf).
      destruct Hf as (-> & _). done. }
  split; [done |]. split; [by exists ts |].
  split.
  { rewrite Hlen, <- (length_mapM _ _ _ Hts).
    symmetry. apply (Forall2_length _ _ _ (valid_tasks_same_fields tasks)). }
  split; [rewrite Hlen; destruct ts; [done | simpl; lia] |].
  split.
  { rewrite Hhc, bool_decide_eq_true. destruct details; simpl; [| split; [done | lia]].
    split; [lia | done]. }
  split.
  { intros w. rewrite Hws, elem_of_app, Hval.
    destruct hc.
    { rewrite list_elem_of_singleton.
      split; (intros [H|H]; [by left | right]); [done | by destruct H]. }
    split; [intros [H|H%elem_of_nil]; [by left | done] |].
    intros [H|[[=] _]]. by left. }
  rewrite Hws, app_nil. split.
  - intros [Hv Hc]. split; [| by destruct hc].
    apply Forall_forall. intros task [k Hk]%list_elem_of_lookup.
    destruct (valid task) eqn:Ev; [done |]. exfalso.
    unfold is_valid in Ev.
    destruct (validate task).2 as [|e errors] eqn:Ee.
    { apply validate_is_valid in Ee. congruence. }
    assert (ValidationWarning k
              (default (JAtom (PyStr ("Task " +:+ str_of_int (Z.of_nat k + 1))))
                 (raw_title task)) e
            ∈ (validate_from 0 (add_task_ids tasks)).1) as Hin.
    { apply Hval. exists k, task, e. rewrite Ee. split; [done |].
      split; [apply list_elem_of_here | done]. }
    rewrite Hv in Hin. by apply elem_of_nil in Hin.
  - intros [Hv ->]. split; [| done].
    destruct (validate_from 0 (add_task_ids tasks)).1 as [|w l] eqn:Ew; [done |].
    assert (w ∈ w :: l) as Hin by apply list_elem_of_here.
    apply Hval in Hin as (k & task & e & Hk & He & _).
    rewrite Forall_forall in Hv.
    assert (valid task = true) as Ev
      by (apply Hv, list_elem_of_lookup; by exists k).
    unfold is_valid in Ev. apply validate_is_valid in Ev.
    rewrite Ev in He. by apply elem_of_nil in He.
Qed.

(** *** The suggestions *)

Lemma blocking_count_score_notice (n : nat) :
  6 <= blocking_count_score n ↔ n ≠ 0%nat.
Proof.
  destruct n as [|n].
  - simpl. split; [intros H; exfalso; lra | done].
  - split; [done | intros _].
    assert (6 <= blocking_count_score 1) as H1 by (simpl; lra).
    pose proof (blocking_count_score_mono 1 (S n)) as Hmono.
    assert (1 ≤ S n)%nat as Hle by lia.
    specialize (Hmono Hle). lra.
Qed.

Lemma final_score_dependency (t : task) (all_tasks : list task)
  (strategy : string) (r : score_data) :
  calculate_final_score date_today strptime_ymd t all_tasks strategy = Ok r →
  b_dependency (breakdown r)
  == blocking_count_score (length (dependents (id t) all_tasks)).
Proof.
  intros Hr.
  apply calculate_final_score_Ok in Hr
    as (u & un & i & inn & e & en & d & dn & _ & _ & _ & Ed & Hb & _).
  rewrite Hb. simpl.
  destruct (dependency_score_dependents (id t) all_tasks) as (d' & dn' & Ed' & Hd).
  rewrite Ed in Ed'. by injection Ed' as <- <-.
Qed.

(** X20.  The suggestions are the first three tasks of the ranking of the
    analysis, or all of them when there are fewer, and there is at least
    one; the count is the number of ranked tasks, and the strategy, the
    warnings and the cycle report are those of the analysis.  The first
    suggestion is worded as the top priority, the second as the second and
    the third as the third, each with the priority score of its task; the
    blocking notice is appended exactly when some ranked task lists the id
    of the suggested task among its dependencies. *)
Theorem X20_suggestions (tasks : list raw_task) (strategy : string)
  (top : list (scored_task * recommendation)) (s : string) (n : nat)
  (ws : list warning) (hc : bool) (details : list string) :
  suggest_tasks_post date_today strptime_ymd float_of_str int_of_str
    str_strip str_len tasks strategy
  = Some (Ok (Suggestions top s n ws hc details)) →
  ∃ ranked,
    analyze tasks strategy = Some (Ok (Analysis ranked ws s hc details)) ∧
    n = length ranked ∧ (1 ≤ n)%nat ∧
    map fst top = take 3 ranked ∧
    length top = Nat.min 3 n ∧
    ∀ (k : nat) (task : scored_task) (rec : recommendation),
      top !! k = Some (task, rec) →
      rec_text rec = rank_text k (priority_score task) ∧
      (rec_blocking_notice rec = true
       ↔ ∃ other, other ∈ ranked ∧
           id (task_fields task) ∈ get_dependencies (task_fields other)).
Proof.
  unfold suggest_tasks_post.
  destruct (analyze tasks strategy) as [[[ws0|ranked ws0 s0 hc0 details0]|e]|]
    eqn:Ha; try done.
  intros [= <- <- <- <- <- <-]. exists ranked. split; [done |].
  split; [done |].
  pose proof Ha as (-> & ts & Hne & Hts & Hrank & _)%analyze_tasks_post_Analysis.
  pose proof Hrank as (scored & Hscored & Hsort)%rank_Ok.
  apply score_tasks_Ok in Hscored.
  pose proof (sort_reverse_perm priority_score scored) as Hperm.
  rewrite <- Hsort in Hperm.
  assert (length ranked = length ts) as Hlen.
  { rewrite Hperm. symmetry. by apply Forall2_length in Hscored. }
  split; [rewrite Hlen; destruct ts; [done | simpl; lia] |].
  split.
  { unfold top_tasks. apply list_eq. intros k.
    rewrite list_lookup_fmap, list_lookup_imap.
    by destruct (take 3 ranked !! k). }
  split.
  { unfold top_tasks. by rewrite length_imap, length_take. }
  intros k task rec Hk. unfold top_tasks in Hk.
  rewrite list_lookup_imap in Hk.
  destruct (take 3 ranked !! k) as [task'|] eqn:Hk'; [| done].
  simpl in Hk. injection Hk as -> <-.
  split.
  { unfold recommend, rank_text. simpl.
    destruct k as [|[|k]]; [done | done |].
    by replace (S (S k) + 1)%nat with (S (S (S k))) by lia. }
  unfold recommend. simpl. rewrite Qle_b_true.
  assert (task ∈ scored) as Hin.
  { rewrite <- Hperm. apply list_elem_of_lookup. exists k.
    by apply lookup_take_Some in Hk' as [? _]. }
  apply list_elem_of_lookup in Hin as [j Hj].
  destruct (Forall2_lookup_r _ _ _ _ _ Hscored Hj) as (t & _ & r & Hr & ->).
  simpl. rewrite (final_score_dependency _ _ _ _ Hr), blocking_count_score_notice.
  unfold dependents.
  assert (∀ other, other ∈ ts ↔ ∃ o, o ∈ ranked ∧ task_fields o = other) as Hts'.
  { intros other. split.
    - intros [i Hi]%list_elem_of_lookup.
      destruct (Forall2_lookup_l _ _ _ _ _ Hscored Hi) as (o & Ho & r' & _ & ->).
      eexists. split;
        [rewrite Hperm; apply list_elem_of_lookup; by exists i | done].
    - intros (o & Ho & <-). rewrite Hperm in Ho.
      apply list_elem_of_lookup in Ho as [i Hi].
      destruct (Forall2_lookup_r _ _ _ _ _ Hscored Hi) as (t' & Ht' & r' & _ & ->).
      simpl. apply list_elem_of_lookup. by exists i. }
  split.
  - intros Hn.
    destruct (filter (fun t0 => id t ∈ get_dependencies t0) ts) as [|o l] eqn:Ef;
      [done |].
    assert (o ∈ filter (fun t0 => id t ∈ get_dependencies t0) ts) as Ho
      by (rewrite Ef; apply list_elem_of_here).
    apply list_elem_of_filter in Ho as [Hdep Ho].
    apply Hts' in Ho as (o' & Ho' & <-). by exists o'.
  - intros (o & Ho & Hdep).
    assert (task_fields o ∈ filter (fun t0 => id t ∈ get_dependencies t0) ts) as Hin.
    { apply list_elem_of_filter. split; [done |]. apply Hts'. by exists o. }
    destruct (filter (fun t0 => id t ∈ get_dependencies t0) ts);
      [by apply elem_of_nil in Hin | done].
Qed.

End AnalyzeFacts.

(** *** The request serializer *)

Lemma first_missing_field_None (task : raw_task) :
  first_missing_field task required_fields = None ↔ has_required_keys task.
Proof.
  unfold has_required_keys, required_fields. simpl.
  destruct (raw_title task), (raw_due_date task), (raw_estimated_hours task),
    (raw_importance task); simpl;
    (split; [intros H; try discriminate H; by repeat split
            | intros (H1 & H2 & H3 & H4); try done;
              first [by destruct H1 | by destruct H2
                    | by destruct H3 | by destruct H4]]).
Qed.

Lemma first_missing_field_Some (task : raw_task)
  (fields : list (string * (raw_task → option jsonval))) (field : string) :
  first_missing_field task fields = Some field ↔
  ∃ before get after,
    fields = before ++ (field, get) :: after ∧
    get task = None ∧
    Forall (fun '(_, get') => is_Some (get' task)) before.
Proof.
  induction fields as [|[f g] fields IH]; simpl.
  - split; [done | intros (before & ? & ? & E & _); by destruct before].
  - destruct (g task) as [v|] eqn:Eg.
    + rewrite IH. split.
      * intros (before & get & after & -> & Hget & Hbefore).
        exists ((f, g) :: before), get, after. split; [done |].
        split; [done |]. constructor; [by rewrite Eg | done].
      * intros ([|[f' g'] before] & get & after & E & Hget & Hbefore);
          simplify_eq/=.
        apply Forall_cons in Hbefore as [_ Hbefore].
        by exists before, get, after.
    + split.
      * intros [= <-]. by exists [], g, fields.
      * intros ([|[f' g'] before] & get & after & E & Hget & Hbefore);
          simplify_eq/=; [done |].
        apply Forall_cons in Hbefore as [[v Hv] _]. congruence.
Qed.

Lemma check_tasks_from_None (i : nat) (value : list raw_task) :
  check_tasks_from i value = None ↔ Forall has_required_keys value.
Proof.
  revert i. induction value as [|task value IH]; intros i;
    cbn [check_tasks_from].
  - split; [constructor | done].
  - rewrite Forall_cons, <- first_missing_field_None.
    destruct (first_missing_field task required_fields);
      [split; [done | by intros [[=] _]] |].
    rewrite IH. tauto.
Qed.

Lemma check_tasks_from_Some (i : nat) (value : list raw_task)
  (err : serializer_error) :
  check_tasks_from i value = Some err ↔
  ∃ k task field,
    value !! k = Some task ∧
    Forall has_required_keys (take k value) ∧
    first_missing_field task required_fields = Some field ∧
    err = TaskMissingField (i + k + 1) field.
Proof.
  revert i. induction value as [|task value IH]; intros i;
    cbn [check_tasks_from].
  - split; [done | by intros (k & ? & ? & ? & _)].
  - destruct (first_missing_field task required_fields) as [field|] eqn:Ef.
    + split.
      * intros [= <-]. exists 0%nat, task, field.
        rewrite Nat.add_0_r. by repeat split; try constructor.
      * intros ([|k] & task' & field' & Hk & Hbefore & Hf & ->);
          simpl in Hk, Hbefore.
        -- simplify_eq. by rewrite Nat.add_0_r.
        -- apply Forall_cons in Hbefore as [Hkeys%first_missing_field_None _].
           congruence.
    + rewrite IH. split.
      * intros (k & task' & field & Hk & Hbefore & Hf & ->).
        exists (S k), task', field. simpl. split; [done |].
        split; [constructor; [by apply first_missing_field_None | done] |].
        split; [done |]. f_equal. lia.
      * intros ([|k] & task' & field & Hk & Hbefore & Hf & ->);
          simpl in Hk, Hbefore.
        -- simplify_eq.
        -- apply Forall_cons in Hbefore as [_ Hbefore].
           exists k, task', field. split; [done |]. split; [done |].
           split; [done |]. f_equal. lia.
Qed.

Lemma is_none_true (value : jsonval) :
  is_none value = true ↔ value = JAtom PyNone.
Proof. destruct value as [[]| |]; simpl; split; done. Qed.

Lemma check_required_elem (task : raw_task) (e : validation_error) :
  e ∈ check_required task ↔
  ∃ field get,
    (field, get) ∈ required_fields ∧ e = MissingField field ∧
    (get task = None ∨ get task = Some (JAtom PyNone)).
Proof.
  unfold check_required. rewrite list_elem_of_In, in_flat_map. split.
  - intros ([field get] & Hin%list_elem_of_In & He%list_elem_of_In).
    exists field, get. split; [done |].
    destruct (get task) as [v|] eqn:Ev.
    + destruct (is_none v) eqn:En; [| by apply elem_of_nil in He].
      apply list_elem_of_singleton in He. apply is_none_true in En.
      split; [done | right; by subst v].
    + apply list_elem_of_singleton in He. split; [done | by left].
  - intros (field & get & Hin & -> & Hget). exists (field, get).
    split; [by apply list_elem_of_In |]. apply list_elem_of_In.
    destruct Hget as [->| ->]; simpl; apply list_elem_of_here.
Qed.

Lemma check_dependency_ids_elem (deps : list jsonval) (e : validation_error) :
  e ∈ check_dependency_ids deps → ∃ dep, e = DependencyInvalid dep.
Proof.
  induction deps as [|dep deps IH]; simpl; [by intros ?%elem_of_nil |].
  destruct (is_int dep); [done |].
  intros ->%list_elem_of_singleton. by exists dep.
Qed.

Section SerializerFacts.

Variable strptime_ymd : string -> option Z.
Variable float_of_str : string -> option Q.
Variable int_of_str : string -> option Z.
Variable str_strip : string -> string.
Variable str_len : string -> nat.

Local Abbreviation validate :=
  (validate_task_data strptime_ymd float_of_str int_of_str str_strip str_len).

(** A missing-field error of validation names a required field that the
    task lacks or gives as [None]. *)
Lemma validate_missing_field (task : raw_task) (field : string) :
  MissingField field ∈ (validate task).2 ↔
  ∃ get, (field, get) ∈ required_fields ∧
    (get task = None ∨ get task = Some (JAtom PyNone)).
Proof.
  rewrite validate_errors, !elem_of_app, check_required_elem. split.
  - intros [(field' & get & Hin & [= <-] & Hget)|Hother]; [by exists get |].
    exfalso.
    unfold check_title, check_due_date, check_estimated_hours, check_importance,
      check_dependencies in Hother.
    destruct Hother as [H|[H|[H|[H|H]]]];
      repeat case_match;
      try (by apply elem_of_nil in H);
      try (by apply list_elem_of_singleton in H);
      by apply check_dependency_ids_elem in H as [dep [=]].
  - intros (get & Hin & Hget). left. by exists field, get.
Qed.

(** X21.  The serializer passes a list of tasks on, unchanged, exactly when
    the list is not empty and every task has the four required keys; it
    rejects the empty list as empty, and any other list with the number
    (counted from 1) of the first task that lacks a key and the first key,
    in the order title, due date, hours, importance, that this task lacks.
    It does not look at the values: a task it lets through can still get a
    missing-field error from validation, and then the value of that field
    is [None]. *)
Theorem X21_validate_tasks (value : list raw_task) :
  (∀ passed, validate_tasks value = inl passed ↔
     passed = value ∧ value ≠ [] ∧ Forall has_required_keys value) ∧
  (validate_tasks value = inr TasksEmpty ↔ value = []) ∧
  (∀ number field,
     validate_tasks value = inr (TaskMissingField number field) ↔
     ∃ k task before get after,
       number = (k + 1)%nat ∧ value !! k = Some task ∧
       Forall has_required_keys (take k value) ∧
       required_fields = before ++ (field, get) :: after ∧
       get task = None ∧
       Forall (fun '(_, get') => is_Some (get' task)) before) ∧
  (∀ passed task field,
     validate_tasks value = inl passed → task ∈ passed →
     MissingField field ∈ (validate task).2 →
     ∃ get, (field, get) ∈ required_fields ∧ get task = Some (JAtom PyNone)).
Proof.
  assert (∀ passed, validate_tasks value = inl passed ↔
     passed = value ∧ value ≠ [] ∧ Forall has_required_keys value) as Hpass.
  { intros passed. unfold validate_tasks.
    destruct value as [|task value]; [split; [done | by intros (_ & ? & _)] |].
    rewrite <- (check_tasks_from_None 0).
    destruct (check_tasks_from 0 (task :: value)) as [err|].
    - split; [done | by intros (_ & _ & [=])].
    - split; [by intros [= <-] | by intros (-> & _)]. }
  split; [exact Hpass |].
  split.
  { unfold validate_tasks. destruct value as [|task value]; [done |].
    destruct (check_tasks_from 0 (task :: value)) as [err|] eqn:E; [| done].
    split; [| done]. intros [= ->].
    apply check_tasks_from_Some in E as (k & ? & ? & _ & _ & _ & [=]). }
  split.
  { intros number field. unfold validate_tasks.
    destruct value as [|task value].
    { split; [done | by intros (k & ? & ? & ? & ? & _ & ? & _)]. }
    destruct (check_tasks_from 0 (task :: value)) as [err|] eqn:E.
    - apply check_tasks_from_Some in E
        as (k & task' & field' & Hk & Hbefore & Hf & ->).
      simpl (0 + k + 1)%nat. split.
      + intros [= <- <-].
        apply first_missing_field_Some in Hf
          as (before & get & after & Hfields & Hget & Hpresent).
        by exists k, task', before, get, after.
      + intros (k' & task'' & before & get & after
                & -> & Hk' & Hbefore' & Hfields & Hget & Hpresent).
        assert (first_missing_field task'' required_fields = Some field) as Hf'
          by (apply first_missing_field_Some; by exists before, get, after).
        assert (k' = k) as ->.
        { destruct (Nat.lt_trichotomy k' k) as [Hlt|[->|Hlt]]; [| done |].
          - rewrite Forall_forall in Hbefore.
            assert (has_required_keys task'') as Hkeys.
            { apply Hbefore, list_elem_of_lookup. exists k'.
              by rewrite lookup_take_lt. }
            apply first_missing_field_None in Hkeys. congruence.
          - rewrite Forall_forall in Hbefore'.
            assert (has_required_keys task') as Hkeys.
            { apply Hbefore', list_elem_of_lookup. exists k.
              by rewrite lookup_take_lt. }
            apply first_missing_field_None in Hkeys. congruence. }
        do 2 f_equal. congruence.
    - split; [done |].
      intros (k & task' & before & get & after
              & -> & Hk & _ & Hfields & Hget & Hpresent).
      apply check_tasks_from_None in E. rewrite Forall_forall in E.
      assert (has_required_keys task') as Hkeys
        by (apply E, list_elem_of_lookup; by exists k).
      apply first_missing_field_None in Hkeys.
      assert (first_missing_field task' required_fields = Some field) as Hf'
        by (apply first_missing_field_Some; by exists before, get, after).
      congruence. }
  intros passed task field (-> & _ & Hkeys)%Hpass Hin Herr.
  rewrite Forall_forall in Hkeys. specialize (Hkeys task Hin).
  apply validate_missing_field in Herr as (get & Hget & [Hnone|Hnull]);
    [| by exists get].
  exfalso. destruct Hkeys as (H1 & H2 & H3 & H4).
  unfold required_fields in Hget.
  repeat (apply elem_of_cons in Hget as [[= -> ->]|Hget];
          [rewrite Hnone in *; by eapply is_Some_None |]).
  by apply elem_of_nil in Hget.
Qed.

End SerializerFacts.

Lemma X19_analysis_content_witness :
  ∃ ranked ws details,
    analyze_tasks_post 739586 strptime_padded sample_float_of_str
      sample_int_of_str (fun s => s) String.length sample_request "HIGH_IMPACT"
    = Some (Ok (Analysis ranked ws "HIGH_IMPACT" true details)) ∧
    length ranked = 2%nat ∧ details ≠ [].
Proof.
  eexists _, _, _. split; [vm_compute; reflexivity |].
  split.
  - refine (eq_trans (proj1 (proj2 (proj2
      (X19_analysis_content 739586 strptime_padded sample_float_of_str
         sample_int_of_str (fun s => s) String.length sample_request
         "HIGH_IMPACT" _ _ _ _ _ _)))) _);
      vm_compute; reflexivity.
  - refine (proj1 (proj1 (proj2 (proj2 (proj2 (proj2
      (X19_analysis_content 739586 strptime_padded sample_float_of_str
         sample_int_of_str (fun s => s) String.length sample_request
         "HIGH_IMPACT" _ _ _ _ _ _)))))) eq_refl);
      vm_compute; reflexivity.
Defined.

Lemma X20_suggestions_witness :
  ∃ top ws details,
    suggest_tasks_post 739586 strptime_padded sample_float_of_str
      sample_int_of_str (fun s => s) String.length sample_request "HIGH_IMPACT"
    = Some (Ok (Suggestions top "HIGH_IMPACT" 2 ws true details)) ∧
    length top = 2%nat.
Proof.
  eexists _, _, _. split; [vm_compute; reflexivity |].
  destruct (X20_suggestions 739586 strptime_padded sample_float_of_str
              sample_int_of_str (fun s => s) String.length sample_request
              "HIGH_IMPACT" _ _ _ _ _ _ eq_refl)
    as (ranked & _ & _ & _ & _ & Hlen & _).
  exact Hlen.
Defined.
